(** * memora: the [/api/posts] route handlers

    A shallow embedding of [src/app/api/posts/route.ts]: the [POST] handler
    that creates a post, relocates its uploaded files and records them, and
    the [GET] handler that lists posts under the visibility rules.

    The handlers are written in a state-and-exception monad over the
    database tables; everything the handlers await from outside (the session
    service, the request body, the storage helper, failures of database
    calls) is read from an explicit environment record, so that each
    handler is a total, executable function.  What the handlers write to
    the console is left out. *)

From Stdlib Require Import ZArith List String Ascii Bool Lia QArith Qround.
From Stdlib Require Import Sorted.
Import ListNotations.
Local Open Scope string_scope.
Local Open Scope Z_scope.

(* ------------------------------------------------------------------ *)
(** * JavaScript primitives used by the handlers *)

Module Js.

(** [!!s] for a value that is either absent ([undefined]/[null]) or a
    string: only a non-empty string is truthy. *)
Definition truthy (s : option string) : bool :=
  match s with
  | Some (String _ _) => true
  | _ => false
  end.

(** [s || d] for such a value and a string default. *)
Definition or_else (s : option string) (d : string) : string :=
  match s with
  | Some (String c r) => String c r
  | _ => d
  end.

(** [a || b] where both sides may be absent; [None] stands for the final
    [null]. *)
Definition or_null (a b : option string) : option string :=
  if truthy a then a else if truthy b then b else None.

(** [s.includes(sub)]. *)
Fixpoint includes (s sub : string) : bool :=
  if prefix sub s then true
  else match s with
       | EmptyString => false
       | String _ r => includes r sub
       end.

(** [s.split('/')]: [cur] holds the characters of the segment being read. *)
Fixpoint split_from (sep : ascii) (cur : string) (s : string) : list string :=
  match s with
  | EmptyString => [cur]
  | String c r =>
      if Ascii.eqb c sep then cur :: split_from sep EmptyString r
      else split_from sep (cur ++ String c EmptyString) r
  end.

Definition split (sep : ascii) (s : string) : list string :=
  split_from sep EmptyString s.

(** [arr.pop()]: the last element, [undefined] on an empty array. *)
Definition pop (l : list string) : option string :=
  match rev l with
  | [] => None
  | x :: _ => Some x
  end.

(** ** Numbers

    A JavaScript number is kept as [option Z].  [None] is [NaN].
    [Some z] with [|z| < 2^1024] is the finite double [z]; the handlers
    meet integers only.  [Some infinity] and [Some (- infinity)], with
    [infinity] the first power of two past the largest double, stand
    for the two infinities.  Every operation returns the exact result
    rounded to the nearest double, ties to the even significand, as the
    language does.  [-0] is identified with [0]. *)

Definition number : Type := option Z.

Definition infinity : Z := 2 ^ 1024.

(** The nearest double of an integer: exact below 2^53, 53 significant
    bits above, an infinity from [2^1024 - 2^970] on. *)
Definition round_double (z : Z) : Z :=
  let a := Z.abs z in
  if a <? 2 ^ 53 then z
  else
    let e := Z.log2 a - 52 in
    let q := Z.shiftr a e in
    let r := a - Z.shiftl q e in
    let half := Z.shiftl 1 (e - 1) in
    let q := if (half <? r) || ((r =? half) && Z.odd q) then q + 1 else q in
    let m := Z.shiftl q e in
    let m := if infinity <=? m then infinity else m in
    if z <? 0 then - m else m.

(** ** [parseInt] with no radix argument

    Text is kept as its UTF-8 bytes.  The white space the language skips
    is TAB, LF, VT, FF, CR, SP, and, past ASCII, U+00A0, U+1680,
    U+2000 to U+200A, U+2028, U+2029, U+202F, U+205F, U+3000 and
    U+FEFF. *)

Definition is_space (c : ascii) : bool :=
  let n := nat_of_ascii c in
  ((9 <=? n) && (n <=? 13))%nat || (n =? 32)%nat.

(** U+00A0 is the bytes C2 A0. *)
Definition is_space2 (c1 c2 : ascii) : bool :=
  ((nat_of_ascii c1 =? 194) && (nat_of_ascii c2 =? 160))%nat.

(** The white space of three bytes: E1 9A 80; E2 80 80 to E2 80 8A,
    E2 80 A8, E2 80 A9, E2 80 AF; E2 81 9F; E3 80 80; EF BB BF. *)
Definition is_space3 (c1 c2 c3 : ascii) : bool :=
  let n1 := nat_of_ascii c1 in
  let n2 := nat_of_ascii c2 in
  let n3 := nat_of_ascii c3 in
  ((n1 =? 225) && (n2 =? 154) && (n3 =? 128)
   || (n1 =? 226) && (n2 =? 128)
      && ((128 <=? n3) && (n3 <=? 138) || (n3 =? 168) || (n3 =? 169) || (n3 =? 175))
   || (n1 =? 226) && (n2 =? 129) && (n3 =? 159)
   || (n1 =? 227) && (n2 =? 128) && (n3 =? 128)
   || (n1 =? 239) && (n2 =? 187) && (n3 =? 191))%nat.

Fixpoint trim_start (s : string) : string :=
  match s with
  | EmptyString => EmptyString
  | String c1 r1 =>
      if is_space c1 then trim_start r1
      else
        match r1 with
        | EmptyString => s
        | String c2 r2 =>
            if is_space2 c1 c2 then trim_start r2
            else
              match r2 with
              | EmptyString => s
              | String c3 r3 =>
                  if is_space3 c1 c2 c3 then trim_start r3 else s
              end
        end
  end.

Definition digit_value (radix : Z) (c : ascii) : option Z :=
  let n := Z.of_nat (nat_of_ascii c) in
  let v := if (48 <=? n) && (n <=? 57) then n - 48
           else if (97 <=? n) && (n <=? 122) then n - 87
           else if (65 <=? n) && (n <=? 90) then n - 55
           else radix in
  if v <? radix then Some v else None.

(** The value of the longest prefix of radix digits; [None] when that
    prefix is empty. *)
Fixpoint digits (radix : Z) (acc : option Z) (s : string) : option Z :=
  match s with
  | EmptyString => acc
  | String c r =>
      match digit_value radix c with
      | Some d =>
          digits radix (Some (radix * match acc with Some a => a | None => 0 end + d)) r
      | None => acc
      end
  end.

(** The number is the value of the digits, rounded.  (The language lets
    an implementation read the decimal digits after the twentieth as
    zeros; here they are all read.) *)
Definition parseInt (input : string) : number :=
  let s := trim_start input in
  let '(sign, s) :=
    match s with
    | String "-" r => (-1, r)
    | String "+" r => (1, r)
    | _ => (1, s)
    end in
  let '(radix, s) :=
    match s with
    | String "0" (String "x" r) => (16, r)
    | String "0" (String "X" r) => (16, r)
    | _ => (10, s)
    end in
  option_map (fun m => round_double (sign * m)) (digits radix None s).

(** [Math.min(a, b)]: [NaN] if either argument is. *)
Definition Math_min (a b : number) : number :=
  match a, b with
  | Some x, Some y => Some (Z.min x y)
  | _, _ => None
  end.

Definition sub (a b : number) : number :=
  match a, b with
  | Some x, Some y =>
      if (infinity <=? Z.abs x) && (infinity <=? Z.abs y) && (0 <? x * y)
      then None
      else Some (round_double (x - y))
  | _, _ => None
  end.

(** An infinity times zero is [NaN]. *)
Definition mul (a b : number) : number :=
  match a, b with
  | Some x, Some y =>
      if (infinity <=? Z.abs x) && (y =? 0) || (x =? 0) && (infinity <=? Z.abs y)
      then None
      else Some (round_double (x * y))
  | _, _ => None
  end.

(** [a / b] for a count [a] and a limit [b]: an exact rational, or
    [None] for a result that is not finite ([NaN], or an infinity when
    [b] is zero).  The double the language computes is the exact
    quotient rounded; for a count below 2^53 the rounding never reaches
    the next integer from a quotient that is not one, so [Math.ceil] of
    it is the ceiling of the exact quotient.  The limit is at most 50;
    under the limit that stands for the negative infinity the quotient
    is the [-0] of the language. *)
Definition div (a b : number) : option Q :=
  match a, b with
  | Some x, Some y => if y =? 0 then None else Some (inject_Z x / inject_Z y)%Q
  | _, _ => None
  end.

(** [Math.ceil]: a non-finite argument is returned as it is. *)
Definition Math_ceil (q : option Q) : number :=
  option_map Qceiling q.

End Js.

(* ------------------------------------------------------------------ *)
(** * Data model *)

(** Modelled from the spec: the [Visibility] enumeration is declared in the
    Prisma schema, which is not part of the route file.  The handlers name
    [PUBLIC] and [FOLLOWERS]; [PRIVATE] is the more restricted tier. *)
Inductive Visibility : Type := PUBLIC | FOLLOWERS | PRIVATE.

(** At run time a member of the enumeration is the string of its name. *)
Definition Visibility_name (v : Visibility) : string :=
  match v with
  | PUBLIC => "PUBLIC"
  | FOLLOWERS => "FOLLOWERS"
  | PRIVATE => "PRIVATE"
  end.

Definition Visibility_of_name (s : string) : option Visibility :=
  if String.eqb s "PUBLIC" then Some PUBLIC
  else if String.eqb s "FOLLOWERS" then Some FOLLOWERS
  else if String.eqb s "PRIVATE" then Some PRIVATE
  else None.

Definition Visibility_eqb (a b : Visibility) : bool :=
  match a, b with
  | PUBLIC, PUBLIC | FOLLOWERS, FOLLOWERS | PRIVATE, PRIVATE => true
  | _, _ => false
  end.

Module User.
Record t : Type := Build
  { id : string; email : string; username : string; avatar : option string }.
End User.

Module Post.
Record t : Type := Build
  { id : string;
    title : string;
    description : string;
    category : string;
    tags : list string;
    visibility : Visibility;
    isDraft : bool;
    coverImage : option string;
    userId : string;
    createdAt : Z }.

Definition with_coverImage (c : option string) (p : t) : t :=
  Build (id p) (title p) (description p) (category p) (tags p)
        (visibility p) (isDraft p) c (userId p) (createdAt p).
End Post.

Module Image.
(** The generated identifier of an image row is left out: no code of the
    route reads it. *)
Record t : Type := Build
  { url : string; description : option string; postId : string }.
End Image.

(** Modelled from the spec: a follow is a directed edge from the follower to
    the user being followed; the relation [followers] of a user is the set
    of edges that point at that user. *)
Module Follow.
Record t : Type := Build { followerId : string; followingId : string }.
End Follow.

(** The tables the route touches.  Likes and comments are only counted, so
    a row is kept as the identifier of the post it belongs to. *)
Module DB.
Record t : Type := Build
  { users : list User.t;
    posts : list Post.t;
    images : list Image.t;
    follows : list Follow.t;
    likes : list string;
    comments : list string }.

Definition with_posts (ps : list Post.t) (d : t) : t :=
  Build (users d) ps (images d) (follows d) (likes d) (comments d).

Definition with_images (im : list Image.t) (d : t) : t :=
  Build (users d) (posts d) im (follows d) (likes d) (comments d).

(** The rows that belong to the post [postId] are removed from the image,
    like and comment tables. *)
Definition without_rows_of (postId : string) (d : t) : t :=
  Build (users d) (posts d)
        (filter (fun i => negb (String.eqb (Image.postId i) postId)) (images d))
        (follows d)
        (filter (fun l => negb (String.eqb l postId)) (likes d))
        (filter (fun c => negb (String.eqb c postId)) (comments d)).
End DB.

(** The interface [FileData] of the route and the body it destructures.  A
    field that the handler tests for truthiness is optional here; [None]
    is an absent (or null) field. *)
Module FileData.
Record t : Type := Build
  { s3Key : string;
    description : option string;
    fileName : string;
    fileType : string }.
End FileData.

Module Body.
Record t : Type := Build
  { title : option string;
    description : option string;
    category : option string;
    tags : option (list string);
    visibility : option string;
    isDraft : option bool;
    coverImage : option string;
    files : option (list FileData.t) }.
End Body.

Module Session.
Record user_t : Type := BuildUser { email : option string }.
Record t : Type := Build { user : option user_t }.
End Session.

(** [session?.user?.email] *)
Definition session_email (s : option Session.t) : option string :=
  match s with
  | Some s' =>
      match Session.user s' with
      | Some u => Session.email u
      | None => None
      end
  | None => None
  end.

(* ------------------------------------------------------------------ *)
(** * Outcomes of awaited calls and the environment *)

Inductive Outcome (A : Type) : Type :=
| Returns (a : A)
| Throws.
Arguments Returns {A} a.
Arguments Throws {A}.

(** The database calls of the route, as places where a call may fail.  The
    image of the [i]-th file has a place of its own. *)
Inductive Call : Type :=
| AtUserFindUnique
| AtPostCreate
| AtImageCreate (i : nat)
| AtPostUpdate
| AtPostDelete
| AtPostFindMany
| AtPostCount.

(** Modelled from the spec: what one request sees of the world outside the
    route file.

    [generateFinalKey] and [moveFileFromTemp] live in [@/lib/aws-s3], which
    is not part of the route file.  The first computes a deterministic
    storage key from the owner, the post, the file name and the requested
    visibility; the second relocates an object and yields the URL of its
    final place, or throws.  [moveFileFromTemp] is given the position of
    the file in the request as well, so that two calls with equal keys may
    end differently.

    The defaults of [visibility] and [isDraft] and what a delete does to
    the rows that hang on a post are declared in the Prisma schema, which
    is not part of the route file either.  The session, the failures of
    database calls, the identifier of a new post and the clock are what
    the run time supplies. *)
Module Env.
Record t : Type := Build
  { AWS_S3_BUCKET_NAME : option string;       (* process.env *)
    AWS_REGION : option string;
    generateFinalKey : string -> string -> string -> option string -> string;
    moveFileFromTemp : nat -> string -> string -> Outcome string;
    getServerSession : Outcome (option Session.t);
    throws : Call -> bool;                    (* a database call that fails *)
    newId : string;                           (* identifier given to a created post *)
    now : Z;                                  (* default of createdAt *)
    defaultVisibility : Visibility;           (* schema defaults *)
    defaultIsDraft : bool;
    cascade : bool }.                         (* deleting a post deletes its rows *)
End Env.

(* ------------------------------------------------------------------ *)
(** * The monad of the handlers: database state and exceptions

    An exception leaves the writes made before it in place. *)

Definition M (A : Type) : Type := DB.t -> Outcome A * DB.t.

Definition ret {A} (a : A) : M A := fun d => (Returns a, d).

Definition throw {A} : M A := fun d => (Throws, d).

Definition bind {A B} (m : M A) (k : A -> M B) : M B :=
  fun d =>
    match m d with
    | (Returns a, d') => k a d'
    | (Throws, d') => (Throws, d')
    end.

(** [try { m } catch { h }] *)
Definition try_catch {A} (m h : M A) : M A :=
  fun d =>
    match m d with
    | (Returns a, d') => (Returns a, d')
    | (Throws, d') => h d'
    end.

(** [await] of a call whose outcome the environment fixes. *)
Definition await {A} (o : Outcome A) : M A :=
  match o with
  | Returns a => ret a
  | Throws => throw
  end.

Notation "x <- m ;; k" := (bind m (fun x => k))
  (at level 61, m at next level, right associativity).
Notation "m ;;; k" := (bind m (fun _ => k))
  (at level 61, right associativity).

(* ------------------------------------------------------------------ *)
(** * The database client *)

(** The filter object given to [findMany] and [count].  The keys of the
    object are conjoined; [OR] holds when one of its entries does. *)
Module Where.
#[warnings="-register-all"]
Inductive cond : Type :=
| visibility_is (v : Visibility)   (* { visibility: v } *)
| userId_is (id : string)          (* { userId: id } *)
| AND (cs : list cond)             (* { AND: [...] } *)
| user_followers_some (followerId : string).
    (* { user: { followers: { some: { followerId } } } } *)

Record t : Type := Build
  { isDraft : bool;
    visibility : option string;
    category : option string;
    userId : option string;
    OR : option (list cond) }.

Definition with_visibility (v : string) (w : t) : t :=
  Build (isDraft w) (Some v) (category w) (userId w) (OR w).

Definition with_category (c : string) (w : t) : t :=
  Build (isDraft w) (visibility w) (Some c) (userId w) (OR w).

Definition with_userId (u : string) (w : t) : t :=
  Build (isDraft w) (visibility w) (category w) (Some u) (OR w).

Definition with_OR (cs : list cond) (w : t) : t :=
  Build (isDraft w) (visibility w) (category w) (userId w) (Some cs).
End Where.

(** [follower] follows [owner]: some edge of the follow table points from
    the one at the other. *)
Definition follows_user (d : DB.t) (follower owner : string) : bool :=
  existsb (fun f => String.eqb (Follow.followerId f) follower
                    && String.eqb (Follow.followingId f) owner)
          (DB.follows d).

(** A post satisfies an entry of [OR].  The owner of a post is a row of the
    user table (a required relation), so the filter on the owner's
    followers is a filter on the edges that point at [userId]. *)
Fixpoint holds (d : DB.t) (p : Post.t) (c : Where.cond) : bool :=
  match c with
  | Where.visibility_is v => Visibility_eqb (Post.visibility p) v
  | Where.userId_is id => String.eqb (Post.userId p) id
  | Where.AND cs => forallb (holds d p) cs
  | Where.user_followers_some f => follows_user d f (Post.userId p)
  end.

Definition field_is (filter : option string) (value : string) : bool :=
  match filter with
  | Some x => String.eqb value x
  | None => true
  end.

Definition matches (d : DB.t) (w : Where.t) (p : Post.t) : bool :=
  Bool.eqb (Post.isDraft p) (Where.isDraft w)
  && field_is (Where.visibility w) (Visibility_name (Post.visibility p))
  && field_is (Where.category w) (Post.category p)
  && field_is (Where.userId w) (Post.userId p)
  && match Where.OR w with
     | Some cs => existsb (holds d p) cs
     | None => true
     end.

(** The rows a filter selects, in the order of the table. *)
Definition selected (d : DB.t) (w : Where.t) : list Post.t :=
  filter (matches d w) (DB.posts d).

(** [orderBy: { createdAt: 'desc' }]; rows of equal date keep the order of
    the table. *)
Fixpoint insert_desc (p : Post.t) (l : list Post.t) : list Post.t :=
  match l with
  | [] => [p]
  | q :: r =>
      if Post.createdAt q <=? Post.createdAt p then p :: q :: r
      else q :: insert_desc p r
  end.

Definition orderBy_createdAt_desc (l : list Post.t) : list Post.t :=
  fold_right insert_desc [] l.

(** [skip] and [take] travel to the query engine as signed 64-bit
    integers: a value that is not a number or does not fit is refused,
    and so is a negative [skip].  A negative [take] counts from the end
    of the ordered rows.  The model keeps to results of fewer than 2^53
    rows, the ones whose count is a number of the language without
    rounding; it lets the query fail on a longer one. *)
Definition int64 (z : Z) : bool :=
  (- 2 ^ 63 <=? z) && (z <? 2 ^ 63).

Definition paginate {A} (skip take : Js.number) (rows : list A) : Outcome (list A) :=
  match skip, take with
  | Some s, Some t =>
      if (s <? 0) || negb (int64 s) || negb (int64 t)
         || (2 ^ 53 <=? Z.of_nat (List.length rows))
      then Throws
      else if 0 <=? t then
        Returns (firstn (Z.to_nat t) (skipn (Z.to_nat s) rows))
      else
        Returns (rev (firstn (Z.to_nat (- t)) (skipn (Z.to_nat s) (rev rows))))
  | _, _ => Throws
  end.

(** What [include] adds to a post: the owner's summary, the images and the
    two counts. *)
Module UserSummary.
Record t : Type := Build
  { id : string; username : string; avatar : option string }.
End UserSummary.

Module PostView.
Record t : Type := Build
  { post : Post.t;
    user : option UserSummary.t;
    images : list Image.t;
    count_likes : Z;
    count_comments : Z }.
End PostView.

Definition count_of (postId : string) (rows : list string) : Z :=
  Z.of_nat (List.length (filter (String.eqb postId) rows)).

Definition include (d : DB.t) (p : Post.t) : PostView.t :=
  PostView.Build p
    (option_map (fun u => UserSummary.Build (User.id u) (User.username u) (User.avatar u))
                (find (fun u => String.eqb (User.id u) (Post.userId p)) (DB.users d)))
    (filter (fun i => String.eqb (Image.postId i) (Post.id p)) (DB.images d))
    (count_of (Post.id p) (DB.likes d))
    (count_of (Post.id p) (DB.comments d)).

Module prisma.

Definition user_findUnique (env : Env.t) (email : string) : M (option User.t) :=
  fun d =>
    if Env.throws env AtUserFindUnique then (Throws, d)
    else (Returns (find (fun u => String.eqb (User.email u) email) (DB.users d)), d).

(** The client refuses a filter whose [visibility] is not a member of the
    enumeration.  (The members of [Category] are declared in the schema
    too and are not known here; a refused category is one of the failures
    [Env.throws] stands for.) *)
Definition valid_where (w : Where.t) : bool :=
  match Where.visibility w with
  | Some s => match Visibility_of_name s with Some _ => true | None => false end
  | None => true
  end.

Definition post_findMany (env : Env.t) (w : Where.t) (skip take : Js.number)
  : M (list PostView.t) :=
  fun d =>
    if Env.throws env AtPostFindMany || negb (valid_where w) then (Throws, d)
    else
      match paginate skip take (orderBy_createdAt_desc (selected d w)) with
      | Returns rows => (Returns (map (include d) rows), d)
      | Throws => (Throws, d)
      end.

Definition post_count (env : Env.t) (w : Where.t) : M Z :=
  fun d =>
    if Env.throws env AtPostCount || negb (valid_where w) then (Throws, d)
    else (Returns (Z.of_nat (List.length (selected d w))), d).

(** The [data] of [post.create].  A field the body may leave out is
    optional and takes the default of the schema. *)
Record post_data : Type := PostData
  { title : string;
    description : string;
    category : string;
    tags : option (list string);
    visibility : option string;
    isDraft : option bool;
    userId : string;
    coverImage : string }.

(** A visibility that is not a member of the enumeration is refused, and
    so is an identifier that is already taken.  (A category or a tag
    outside its enumeration is one of the failures [Env.throws] stands
    for.) *)
Definition post_create (env : Env.t) (data : post_data) : M Post.t :=
  fun d =>
    if Env.throws env AtPostCreate then (Throws, d)
    else
      match (match visibility data with
             | Some s => Visibility_of_name s
             | None => Some (Env.defaultVisibility env)
             end) with
      | None => (Throws, d)
      | Some v =>
          if existsb (fun p => String.eqb (Post.id p) (Env.newId env)) (DB.posts d)
          then (Throws, d)
          else
            let p :=
              Post.Build (Env.newId env) (title data) (description data)
                (category data)
                (match tags data with Some ts => ts | None => [] end)
                v
                (match isDraft data with Some b => b | None => Env.defaultIsDraft env end)
                (Some (coverImage data)) (userId data) (Env.now env) in
            (Returns p, DB.with_posts (DB.posts d ++ [p])%list d)
      end.

(** The image of the [i]-th file.  The post it names has to exist. *)
Definition image_create (env : Env.t) (i : nat) (data : Image.t) : M Image.t :=
  fun d =>
    if Env.throws env (AtImageCreate i) then (Throws, d)
    else if existsb (fun p => String.eqb (Post.id p) (Image.postId data)) (DB.posts d)
    then (Returns data, DB.with_images (DB.images d ++ [data])%list d)
    else (Throws, d).

(** [post.update] of the cover image, with the [include] of the route; a
    post that is not there cannot be updated. *)
Definition post_update (env : Env.t) (id : string) (cover : option string)
  : M PostView.t :=
  fun d =>
    if Env.throws env AtPostUpdate then (Throws, d)
    else
      match find (fun p => String.eqb (Post.id p) id) (DB.posts d) with
      | None => (Throws, d)
      | Some p =>
          let d' :=
            DB.with_posts
              (map (fun q => if String.eqb (Post.id q) id
                             then Post.with_coverImage cover q else q)
                   (DB.posts d)) d in
          (Returns (include d' (Post.with_coverImage cover p)), d')
      end.

Definition post_delete (env : Env.t) (id : string) : M unit :=
  fun d =>
    if Env.throws env AtPostDelete then (Throws, d)
    else if existsb (fun p => String.eqb (Post.id p) id) (DB.posts d) then
      let d' :=
        DB.with_posts
          (filter (fun p => negb (String.eqb (Post.id p) id)) (DB.posts d)) d in
      (Returns tt, if Env.cascade env then DB.without_rows_of id d' else d')
    else (Throws, d).

End prisma.

(* ------------------------------------------------------------------ *)
(** * Responses *)

Module Pagination.
Record t : Type := Build
  { page : Js.number; limit : Js.number; total : Z; pages : Js.number }.
End Pagination.

Inductive Response : Type :=
| Created (message : string) (post : PostView.t)               (* status 200 *)
| Listing (posts : list PostView.t) (pagination : Pagination.t) (* status 200 *)
| Failure (status : Z) (error : string).

Definition status (r : Response) : Z :=
  match r with
  | Created _ _ => 200
  | Listing _ _ => 200
  | Failure s _ => s
  end.

(* ------------------------------------------------------------------ *)
(** * GET /api/posts *)

(** The search parameters the handler reads; [None] is a parameter that
    [searchParams.get] does not find. *)
Module Query.
Record t : Type := Build
  { page : option string;
    limit : option string;
    visibility : option string;
    category : option string;
    userId : option string }.
End Query.

Definition page_of (q : Query.t) : Js.number :=
  Js.parseInt (Js.or_else (Query.page q) "1").

Definition limit_of (q : Query.t) : Js.number :=
  Js.Math_min (Js.parseInt (Js.or_else (Query.limit q) "10")) (Some 50).

Definition skip_of (q : Query.t) : Js.number :=
  Js.mul (Js.sub (page_of q) (Some 1)) (limit_of q).

(** Lines 188-202: the filter built from the parameters alone. *)
Definition where_of_query (q : Query.t) : Where.t :=
  let where_ := Where.Build false None None None None in
  let where_ :=
    match Query.visibility q with
    | Some (String c r) => Where.with_visibility (String c r) where_
    | _ => where_
    end in
  let where_ :=
    match Query.category q with
    | Some (String c r) => Where.with_category (String c r) where_
    | _ => where_
    end in
  match Query.userId q with
  | Some (String c r) => Where.with_userId (String c r) where_
  | _ => where_
  end.

(** The three entries the handler puts in [OR] for the caller [me]. *)
Definition visible_to (me : string) : list Where.cond :=
  [ Where.visibility_is PUBLIC;
    Where.userId_is me;
    Where.AND [ Where.visibility_is FOLLOWERS; Where.user_followers_some me ] ].

(** Lines 205-239: the filter after the session has been looked at. *)
Definition authorize (env : Env.t) (q : Query.t) (where_ : Where.t) : M Where.t :=
  session <- await (Env.getServerSession env) ;;
  match session_email session with
  | Some (String c r) =>
      if negb (Js.truthy (Query.userId q)) then
        user <- prisma.user_findUnique env (String c r) ;;
        match user with
        | Some u => ret (Where.with_OR (visible_to (User.id u)) where_)
        | None => ret where_
        end
      else ret where_
  | _ => ret (Where.with_visibility (Visibility_name PUBLIC) where_)
  end.

Definition GET (env : Env.t) (q : Query.t) : M Response :=
  try_catch
    (let page := page_of q in
     let limit := limit_of q in
     let skip := skip_of q in
     where_ <- authorize env q (where_of_query q) ;;
     posts <- prisma.post_findMany env where_ skip limit ;;
     total <- prisma.post_count env where_ ;;
     ret (Listing posts
            (Pagination.Build page limit total
               (Js.Math_ceil (Js.div (Some total) limit)))))
    (ret (Failure 500 "Internal server error")).

(* ------------------------------------------------------------------ *)
(** * POST /api/posts *)

Module Request.
Record t : Type := Build { json : Outcome Body.t }.
End Request.

(** Line 39: the test that answers 400. *)
Definition missing_required (b : Body.t) : bool :=
  negb (Js.truthy (Body.title b))
  || negb (Js.truthy (Body.description b))
  || negb (Js.truthy (Body.category b))
  || match Body.files b with
     | None => true
     | Some files => Z.of_nat (List.length files) =? 0
     end.

(** The string of a field that the test above has found present. *)
Definition the (field : option string) : string :=
  match field with
  | Some s => s
  | None => EmptyString
  end.

Definition files_of (b : Body.t) : list FileData.t :=
  match Body.files b with
  | Some files => files
  | None => []
  end.

(** A value inside a template literal. *)
Definition interpolate (v : option string) : string :=
  match v with
  | Some s => s
  | None => "undefined"
  end.

(** Line 120. *)
Definition final_url (env : Env.t) (key : string) : string :=
  "https://" ++ interpolate (Env.AWS_S3_BUCKET_NAME env) ++ ".s3."
  ++ interpolate (Env.AWS_REGION env) ++ ".amazonaws.com/" ++ key.

Definition finalKey_of (env : Env.t) (userId postId : string)
    (visibility : option string) (file : FileData.t) : string :=
  Env.generateFinalKey env userId postId (FileData.fileName file) visibility.

(** Lines 77-102, the body of the loop for the [i]-th file.  [movedFiles] is
    the array of that name: a URL pushed on it stays there when the
    creation of the image throws afterwards.  The inner [catch] only logs,
    whichever call threw. *)
Definition process_file (env : Env.t) (user : User.t) (post : Post.t)
    (visibility : option string) (i : nat) (file : FileData.t)
    (movedFiles : list string) : M (list string) :=
  let finalKey := finalKey_of env (User.id user) (Post.id post) visibility file in
  match Env.moveFileFromTemp env i (FileData.s3Key file) finalKey with
  | Throws => ret movedFiles
  | Returns finalUrl =>
      let movedFiles := (movedFiles ++ [finalUrl])%list in
      try_catch
        (prisma.image_create env i
           (Image.Build finalUrl (Js.or_null (FileData.description file) None)
              (Post.id post)) ;;;
         ret movedFiles)
        (ret movedFiles)
  end.

(** Lines 76-103. *)
Fixpoint process_files (env : Env.t) (user : User.t) (post : Post.t)
    (visibility : option string) (i : nat) (files : list FileData.t)
    (movedFiles : list string) : M (list string) :=
  match files with
  | [] => ret movedFiles
  | file :: rest =>
      movedFiles <- process_file env user post visibility i file movedFiles ;;
      process_files env user post visibility (S i) rest movedFiles
  end.

(** Lines 109-111: the first file whose last key segment occurs in the
    hint. *)
Definition coverFile_of (coverImage : string) (files : list FileData.t)
  : option FileData.t :=
  find (fun f =>
          Js.includes coverImage
            (Js.or_else (Js.pop (Js.split "/" (FileData.s3Key f))) ""))
       files.

(** Lines 106-122. *)
Definition finalCoverImage_of (env : Env.t) (user : User.t) (post : Post.t)
    (visibility : option string) (coverImage : option string)
    (files : list FileData.t) : string :=
  match coverImage with
  | Some (String c r) =>
      match coverFile_of (String c r) files with
      | Some coverFile =>
          final_url env
            (finalKey_of env (User.id user) (Post.id post) visibility coverFile)
      | None => ""
      end
  | _ => ""
  end.

(** Line 128: [finalCoverImage || movedFiles[0] || null]. *)
Definition cover_of (finalCoverImage : string) (movedFiles : list string)
  : option string :=
  Js.or_null (Some finalCoverImage) (hd_error movedFiles).

(** Lines 73-151: the body of the inner [try]. *)
Definition file_processing_try (env : Env.t) (user : User.t) (post : Post.t)
    (body : Body.t) : M Response :=
  let visibility := Body.visibility body in
  let files := files_of body in
  movedFiles <- process_files env user post visibility 0 files [] ;;
  let finalCoverImage :=
    finalCoverImage_of env user post visibility (Body.coverImage body) files in
  updatedPost <-
    prisma.post_update env (Post.id post) (cover_of finalCoverImage movedFiles) ;;
  ret (Created "Post created successfully" updatedPost).

(** Lines 72-165: the inner [try] with its [catch]. *)
Definition file_processing (env : Env.t) (user : User.t) (post : Post.t)
    (body : Body.t) : M Response :=
  try_catch
    (file_processing_try env user post body)
    (prisma.post_delete env (Post.id post) ;;;
     ret (Failure 500 "Failed to process uploaded files")).

(** Lines 60-69: the [data] of the post. *)
Definition post_data_of (body : Body.t) (user : User.t) : prisma.post_data :=
  prisma.PostData (the (Body.title body)) (the (Body.description body))
    (the (Body.category body)) (Body.tags body) (Body.visibility body)
    (Body.isDraft body) (User.id user) "".

Definition POST (env : Env.t) (request : Request.t) : M Response :=
  try_catch
    (session <- await (Env.getServerSession env) ;;
     match session_email session with
     | Some (String c r) =>
         body <- await (Request.json request) ;;
         if missing_required body then ret (Failure 400 "Missing required fields")
         else
           user <- prisma.user_findUnique env (String c r) ;;
           match user with
           | None => ret (Failure 404 "User not found")
           | Some user =>
               post <- prisma.post_create env (post_data_of body user) ;;
               file_processing env user post body
           end
     | _ => ret (Failure 401 "Unauthorized")
     end)
    (ret (Failure 500 "Internal server error")).

(* ------------------------------------------------------------------ *)
(** * A small world to run the handlers in *)

Module Sample.

Definition alice : User.t := User.Build "u1" "alice@example.org" "alice" None.
Definition bob : User.t := User.Build "u2" "bob@example.org" "bob" None.
Definition carol : User.t := User.Build "u3" "carol@example.org" "carol" None.

Definition mk_post (id owner : string) (v : Visibility) (draft : bool) (at_ : Z)
  : Post.t :=
  Post.Build id "t" "d" "TRAVEL" [] v draft None owner at_.

Definition bob_public : Post.t := mk_post "p1" "u2" PUBLIC false 1.
Definition bob_followers : Post.t := mk_post "p2" "u2" FOLLOWERS false 2.
Definition bob_private : Post.t := mk_post "p3" "u2" PRIVATE false 3.
Definition carol_followers : Post.t := mk_post "p4" "u3" FOLLOWERS false 4.
Definition carol_private : Post.t := mk_post "p5" "u3" PRIVATE false 5.
Definition alice_private : Post.t := mk_post "p6" "u1" PRIVATE false 6.
Definition bob_draft : Post.t := mk_post "p7" "u2" PUBLIC true 7.

(** Alice follows Bob; nobody follows Carol. *)
Definition db : DB.t :=
  DB.Build [alice; bob; carol]
    [bob_public; bob_followers; bob_private; carol_followers; carol_private;
     alice_private; bob_draft]
    [] [Follow.Build "u1" "u2"] ["p1"] [].

Definition session_of (email : string) : Outcome (option Session.t) :=
  Returns (Some (Session.Build (Some (Session.BuildUser (Some email))))).

Definition key (userId postId fileName : string) (visibility : option string)
  : string :=
  "posts/" ++ userId ++ "/" ++ postId ++ "/" ++ fileName.

(** An environment in which the database calls [throws] names fail and the
    moves of the files [move_fails] names fail; every other move yields the
    URL of the final key. *)
Definition env_with (session : Outcome (option Session.t)) (throws : Call -> bool)
    (move_fails : nat -> bool) : Env.t :=
  Env.Build (Some "memora") (Some "eu-west-1") key
    (fun i _ finalKey =>
       if move_fails i then Throws
       else Returns ("https://memora.s3.eu-west-1.amazonaws.com/" ++ finalKey))
    session throws "p8" 8 PUBLIC false true.

(** An environment in which nothing fails. *)
Definition env_of (session : Outcome (option Session.t)) : Env.t :=
  env_with session (fun _ => false) (fun _ => false).

Definition anonymous : Env.t := env_of (Returns None).
Definition as_alice : Env.t := env_of (session_of "alice@example.org").
Definition as_carol : Env.t := env_of (session_of "carol@example.org").
(** A session whose email belongs to no user row. *)
Definition as_ghost : Env.t := env_of (session_of "ghost@example.org").

Definition no_query : Query.t := Query.Build None None None None None.

Definition photo (name : string) : FileData.t :=
  FileData.Build ("temp/u1/" ++ name) None name "image/png".

Definition body_of (cover : option string) (files : list FileData.t) : Body.t :=
  Body.Build (Some "Trip") (Some "Three days") (Some "TRAVEL") None (Some "PUBLIC")
    None cover (Some files).

Definition request_of (b : Body.t) : Request.t := Request.Build (Returns b).

Definition three_photos : list FileData.t :=
  [photo "a.png"; photo "b.png"; photo "c.png"].

(** Two files, the name of the first inside the name of the second. *)
Definition two_alike : list FileData.t := [photo "ab"; photo "abc.png"].

(** The second move fails. *)
Definition second_move_fails : Env.t :=
  env_with (session_of "alice@example.org") (fun _ => false) (Nat.eqb 1).

(** The image of the first file cannot be created. *)
Definition first_image_fails : Env.t :=
  env_with (session_of "alice@example.org")
    (fun c => match c with AtImageCreate 0 => true | _ => false end)
    (fun _ => false).

(** The update of the cover fails. *)
Definition update_fails : Env.t :=
  env_with (session_of "alice@example.org")
    (fun c => match c with AtPostUpdate => true | _ => false end)
    (fun _ => false).

(** The update of the cover fails and so does the delete that follows. *)
Definition update_and_delete_fail : Env.t :=
  env_with (session_of "alice@example.org")
    (fun c => match c with AtPostUpdate | AtPostDelete => true | _ => false end)
    (fun _ => false).

(** The count of the listing fails. *)
Definition count_fails : Env.t :=
  env_with (session_of "alice@example.org")
    (fun c => match c with AtPostCount => true | _ => false end)
    (fun _ => false).

(** The row [post.create] makes for [body_of] when Alice sends it, and the
    sample database with that row. *)
Definition created : Post.t :=
  Post.Build "p8" "Trip" "Three days" "TRAVEL" [] PUBLIC false (Some "") "u1" 8.

Definition db_created : DB.t := DB.with_posts (DB.posts db ++ [created])%list db.

Definition post_ids (r : Outcome Response * DB.t) : list string :=
  map Post.id (DB.posts (snd r)).

Definition image_urls (r : Outcome Response * DB.t) : list string :=
  map Image.url (DB.images (snd r)).

Definition cover (r : Outcome Response * DB.t) : option string :=
  match fst r with
  | Returns (Created _ v) => Post.coverImage (PostView.post v)
  | _ => None
  end.

Definition status_of (r : Outcome Response * DB.t) : Z :=
  match fst r with
  | Returns resp => status resp
  | Throws => 0
  end.

(** A table of [n] public posts of Bob. *)
Definition crowd (n : nat) : DB.t :=
  DB.Build [bob]
    (map (fun i => mk_post (String (ascii_of_nat i) EmptyString) "u2" PUBLIC false
                     (Z.of_nat i))
         (seq 0 n))
    [] [] [] [].

(** [?limit=-60]. *)
Definition last_sixty : Query.t := Query.Build None (Some "-60") None None None.

Definition ids (r : Outcome Response * DB.t) : list string :=
  match fst r with
  | Returns (Listing posts _) => map (fun v => Post.id (PostView.post v)) posts
  | _ => []
  end.

End Sample.

(* ------------------------------------------------------------------ *)
(** * The vocabulary of the listing properties *)

(** A parameter as a filter: an empty value is no filter. *)
Definition given (o : option string) : option string :=
  match o with
  | Some (String c r) => Some (String c r)
  | _ => None
  end.

(** The visibility rule for the caller [me]: a public post, a post of the
    caller, or a followers post of somebody the caller follows. *)
Definition visible_rule (d : DB.t) (me : string) (p : Post.t) : Prop :=
  Post.visibility p = PUBLIC
  \/ Post.userId p = me
  \/ (Post.visibility p = FOLLOWERS /\ follows_user d me (Post.userId p) = true).

(** A published post that passes the explicit category filter. *)
Definition published_in_category (q : Query.t) (d : DB.t) (p : Post.t) : Prop :=
  In p (DB.posts d)
  /\ Post.isDraft p = false
  /\ field_is (given (Query.category q)) (Post.category p) = true.

(** The listing answers of a request are pages of the rows that the filter
    [w] selects: an answer with a listing leaves the database alone,
    reports the number of selected rows as its total and holds selected
    rows only; and when neither query fails, the filter is accepted and the
    paging is accepted, the answer is the listing of that page. *)
Definition pages_of_selection (env : Env.t) (q : Query.t) (d : DB.t) (w : Where.t)
  : Prop :=
  (forall posts pg d',
      GET env q d = (Returns (Listing posts pg), d') ->
      d' = d
      /\ Pagination.total pg = Z.of_nat (List.length (selected d w))
      /\ forall v, In v posts -> In (PostView.post v) (selected d w))
  /\ (forall rows,
        Env.throws env AtPostFindMany = false ->
        Env.throws env AtPostCount = false ->
        prisma.valid_where w = true ->
        paginate (skip_of q) (limit_of q) (orderBy_createdAt_desc (selected d w))
        = Returns rows ->
        exists pg, GET env q d = (Returns (Listing (map (include d) rows) pg), d)).

(** The request carries a session with a non-empty email. *)
Definition signed_in (env : Env.t) : bool :=
  match Env.getServerSession env with
  | Returns s => Js.truthy (session_email s)
  | Throws => false
  end.

(** The user row of the caller, when the session's email has one. *)
Definition caller (env : Env.t) (d : DB.t) : option User.t :=
  match Env.getServerSession env with
  | Returns s =>
      match session_email s with
      | Some (String c r) =>
          find (fun u => String.eqb (User.email u) (String c r)) (DB.users d)
      | _ => None
      end
  | Throws => None
  end.

(** The reading under which the rule takes the place of the visibility
    constraint: for a caller [me] who sends no owner filter, whatever
    [visibility] parameter was sent, the selected rows are the published
    rows of the category that pass the rule. *)
Definition rule_replaces_visibility (env : Env.t) (q : Query.t) (d : DB.t)
  : Prop :=
  forall me w,
    caller env d = Some me ->
    Js.truthy (Query.userId q) = false ->
    authorize env q (where_of_query q) d = (Returns w, d) ->
    forall p,
      In p (selected d w)
      <-> published_in_category q d p /\ visible_rule d (User.id me) p.

(** C6 as worded: the page size is clamped to 50, so no listing answer
    holds more than 50 posts. *)
Definition page_size_clamped (env : Env.t) (q : Query.t) (d : DB.t) : Prop :=
  forall posts pg d',
    GET env q d = (Returns (Listing posts pg), d') ->
    Z.of_nat (List.length posts) <= 50.

(* ------------------------------------------------------------------ *)
(** * The vocabulary of the creation properties *)

(** The request gets as far as creating its post: the session has an
    email, the body has the required fields, [user] is the row of the
    caller and [post] the row [post.create] returns, in the database
    [d1]. *)
Definition creates (env : Env.t) (request : Request.t) (d : DB.t)
    (user : User.t) (post : Post.t) (body : Body.t) (d1 : DB.t) : Prop :=
  exists s c r,
    Env.getServerSession env = Returns s
    /\ session_email s = Some (String c r)
    /\ Request.json request = Returns body
    /\ missing_required body = false
    /\ prisma.user_findUnique env (String c r) d = (Returns (Some user), d)
    /\ prisma.post_create env (post_data_of body user) d = (Returns post, d1).

(** The files of a request with their positions, counted from [i]. *)
Definition indexed (i : nat) (files : list FileData.t) : list (nat * FileData.t) :=
  combine (seq i (List.length files)) files.

(** The URL the move of the [i]-th file yields, when it does not throw. *)
Definition moved_url (env : Env.t) (userId postId : string)
    (visibility : option string) (i : nat) (file : FileData.t) : option string :=
  match Env.moveFileFromTemp env i (FileData.s3Key file)
          (finalKey_of env userId postId visibility file) with
  | Returns url => Some url
  | Throws => None
  end.

(** The move of a file does not throw. *)
Definition move_ok (env : Env.t) (userId postId : string)
    (visibility : option string) (x : nat * FileData.t) : bool :=
  match moved_url env userId postId visibility (fst x) (snd x) with
  | Some _ => true
  | None => false
  end.

(** Neither the move of a file nor the creation of its image throws. *)
Definition record_ok (env : Env.t) (userId postId : string)
    (visibility : option string) (x : nat * FileData.t) : bool :=
  move_ok env userId postId visibility x
  && negb (Env.throws env (AtImageCreate (fst x))).

(** The URLs of the files whose move does not throw, in the order of the
    request. *)
Fixpoint moved_urls (env : Env.t) (userId postId : string)
    (visibility : option string) (i : nat) (files : list FileData.t)
  : list string :=
  match files with
  | [] => []
  | file :: rest =>
      match moved_url env userId postId visibility i file with
      | Some url => url :: moved_urls env userId postId visibility (S i) rest
      | None => moved_urls env userId postId visibility (S i) rest
      end
  end.

(** One image row for each file whose move and whose image creation do
    not throw: the URL the move yielded, the description of the file, the
    post. *)
Fixpoint recorded (env : Env.t) (userId postId : string)
    (visibility : option string) (i : nat) (files : list FileData.t)
  : list Image.t :=
  match files with
  | [] => []
  | file :: rest =>
      match moved_url env userId postId visibility i file with
      | Some url =>
          if Env.throws env (AtImageCreate i)
          then recorded env userId postId visibility (S i) rest
          else
            Image.Build url (Js.or_null (FileData.description file) None) postId
            :: recorded env userId postId visibility (S i) rest
      | None => recorded env userId postId visibility (S i) rest
      end
  end.

(** The rows one file adds to the image table: one row when neither its
    move nor the creation of its image throws, none otherwise. *)
Definition rows_of_file (env : Env.t) (userId postId : string)
    (visibility : option string) (x : nat * FileData.t) : list Image.t :=
  match moved_url env userId postId visibility (fst x) (snd x) with
  | Some url =>
      if Env.throws env (AtImageCreate (fst x)) then []
      else [Image.Build url (Js.or_null (FileData.description (snd x)) None) postId]
  | None => []
  end.

(** The post with the identifier [id], if the table has one. *)
Definition post_of (d : DB.t) (id : string) : option Post.t :=
  find (fun p => String.eqb (Post.id p) id) (DB.posts d).

(** The database after the loop over the files of [body], started in
    [d1]. *)
Definition after_files (env : Env.t) (user : User.t) (post : Post.t)
    (body : Body.t) (d1 : DB.t) : DB.t :=
  DB.with_images
    (DB.images d1
     ++ recorded env (User.id user) (Post.id post) (Body.visibility body) 0
          (files_of body))%list
    d1.

(** The cover the handler resolves for [body]. *)
Definition resolved_cover (env : Env.t) (user : User.t) (post : Post.t)
    (body : Body.t) : option string :=
  cover_of
    (finalCoverImage_of env user post (Body.visibility body) (Body.coverImage body)
       (files_of body))
    (moved_urls env (User.id user) (Post.id post) (Body.visibility body) 0
       (files_of body)).

(** The reading of the compensation under which the post is gone whenever
    the inner [try] throws. *)
Definition block_failure_removes_post (env : Env.t) (request : Request.t)
    (d : DB.t) : Prop :=
  forall user post body d1 d2,
    creates env request d user post body d1 ->
    file_processing_try env user post body d1 = (Throws, d2) ->
    exists resp d',
      POST env request d = (Returns resp, d')
      /\ status resp = 500
      /\ post_of d' (Post.id post) = None.

(** The reading of the image count under which a successful request has as
    many new image rows as files whose move did not throw. *)
Definition images_count_moves (env : Env.t) (request : Request.t) (d : DB.t)
  : Prop :=
  forall message view d' user post body d1,
    POST env request d = (Returns (Created message view), d') ->
    creates env request d user post body d1 ->
    List.length (DB.images d')
    = (List.length (DB.images d)
       + List.length
           (filter (move_ok env (User.id user) (Post.id post) (Body.visibility body))
              (indexed 0 (files_of body))))%nat.

(** The reading of the cover invariant under which no temporary key of the
    request occurs in the cover of a finalized post. *)
Definition cover_free_of_temp_keys (env : Env.t) (request : Request.t)
    (d : DB.t) : Prop :=
  forall message view d' body,
    POST env request d = (Returns (Created message view), d') ->
    Request.json request = Returns body ->
    forall url file,
      Post.coverImage (PostView.post view) = Some url ->
      In file (files_of body) ->
      Js.includes url (FileData.s3Key file) = false.

(* ------------------------------------------------------------------ *)
(** * The vocabulary of the further properties *)

(** Newest first: no post is older than one that comes after it. *)
Definition newest_first (l : list Post.t) : Prop :=
  StronglySorted (fun a b => Post.createdAt b <= Post.createdAt a) l.

(** The [k]-th run of [size] rows, counted from 0. *)
Definition slice {A} (size k : nat) (rows : list A) : list A :=
  firstn size (skipn (k * size) rows).

(** The posts of a listing answer; none for any other answer. *)
Definition posts_of (r : Outcome Response * DB.t) : list PostView.t :=
  match fst r with
  | Returns (Listing posts _) => posts
  | _ => []
  end.

(** The rows a request is shown when its filter is [w]: the selected rows,
    newest first. *)
Definition ordered (d : DB.t) (w : Where.t) : list Post.t :=
  orderBy_createdAt_desc (selected d w).

(** Line 110: the part of the temporary key of a file that is looked for
    in the hint. *)
Definition key_segment (f : FileData.t) : string :=
  Js.or_else (Js.pop (Js.split "/" (FileData.s3Key f))) "".

Fixpoint slash_free (s : string) : bool :=
  match s with
  | EmptyString => true
  | String c r => negb (Ascii.eqb c "/") && slash_free r
  end.

(** The name of the file a temporary key holds: what follows the last
    slash of the key, the whole key when it has none. *)
Definition is_name_of (name key : string) : Prop :=
  slash_free name = true
  /\ (key = name \/ exists dir, key = (dir ++ String "/" name)%string).

Definition occurs_in (sub s : string) : Prop :=
  exists a b, s = (a ++ sub ++ b)%string.

Definition ends_with (s suffix : string) : Prop :=
  exists before, s = (before ++ suffix)%string.

(** The hint names a file: the name its temporary key holds occurs in
    the hint. *)
Definition hint_names (hint : string) (file : FileData.t) : Prop :=
  exists name, is_name_of name (FileData.s3Key file) /\ occurs_in name hint.

(** [file] is the first file of the list that the hint names. *)
Definition first_named (hint : string) (files : list FileData.t)
    (file : FileData.t) : Prop :=
  exists before after,
    files = (before ++ file :: after)%list
    /\ hint_names hint file
    /\ forall g, In g before -> ~ hint_names hint g.

(** C5 as worded: a hint matches a file by file name suffix, that is the
    hint ends with the name of the file, and the cover is then the URL
    recomputed for that file. *)
Definition cover_follows_suffix_match (env : Env.t) (request : Request.t)
    (d : DB.t) : Prop :=
  forall message view d' user post body d1 hint file name,
    POST env request d = (Returns (Created message view), d') ->
    creates env request d user post body d1 ->
    given (Body.coverImage body) = Some hint ->
    In file (files_of body) ->
    is_name_of name (FileData.s3Key file) ->
    ends_with hint name ->
    Post.coverImage (PostView.post view)
    = Some (final_url env
              (finalKey_of env (User.id user) (Post.id post) (Body.visibility body)
                 file)).

(** The [select] of the owner in the [include] of both handlers. *)
Definition summary_of (u : User.t) : UserSummary.t :=
  UserSummary.Build (User.id u) (User.username u) (User.avatar u).

(** No image, like or comment row names the post [id]. *)
Definition unreferenced (d : DB.t) (id : string) : Prop :=
  (forall i, In i (DB.images d) -> Image.postId i <> id)
  /\ (forall l, In l (DB.likes d) -> l <> id)
  /\ (forall c, In c (DB.comments d) -> c <> id).

(** Queries for a walk through the pages of the sample world, two posts a
    page. *)
Module Tour.

Definition page (p : string) : Query.t :=
  Query.Build (Some p) (Some "2") None None None.

Definition ask (k : nat) : Query.t :=
  nth k [page "1"; page "2"; page "3"] (page "4").

Definition everything : Where.t := Where.Build false None None None None.

(** Page 2^63, one post a page. *)
Definition far : Query.t :=
  Query.Build (Some "9223372036854775808") (Some "1") None None None.

End Tour.

(* ================================================================== *)
(** * Properties *)

(** ** Evaluation of the primitives on small inputs *)

Example parseInt_plain : Js.parseInt "25" = Some 25.
Proof. reflexivity. Qed.

Example parseInt_junk_suffix : Js.parseInt " -12px" = Some (-12).
Proof. reflexivity. Qed.

Example parseInt_hex : Js.parseInt "0x1F" = Some 31.
Proof. reflexivity. Qed.

Example parseInt_nan : Js.parseInt "abc" = None.
Proof. reflexivity. Qed.

(** 2^53 + 1 is not a double; the tie goes to the even significand. *)
Example parseInt_rounds : Js.parseInt "9007199254740993" = Some 9007199254740992.
Proof. reflexivity. Qed.

Example parseInt_rounds_up :
  Js.parseInt "9223372036854775807" = Some 9223372036854775808.
Proof. reflexivity. Qed.

(** U+00A0 and U+3000 before the digits are skipped. *)
Example parseInt_no_break_space :
  Js.parseInt (String (ascii_of_nat 194) (String (ascii_of_nat 160) "7")) = Some 7
  /\ Js.parseInt (String (ascii_of_nat 227) (String (ascii_of_nat 128)
                    (String (ascii_of_nat 128) " 42"))) = Some 42.
Proof. split; reflexivity. Qed.

(** 400 digits are past the largest double. *)
Example parseInt_overflows :
  Js.parseInt ("1" ++ String.concat "" (List.repeat "0" 400)) = Some Js.infinity
  /\ Js.Math_min (Some Js.infinity) (Some 50) = Some 50
  /\ Js.sub (Some Js.infinity) (Some 1) = Some Js.infinity
  /\ Js.mul (Some Js.infinity) (Some 0) = None.
Proof. repeat split; vm_compute; reflexivity. Qed.

Example split_pop_key : Js.pop (Js.split "/" "temp/u1/a.png") = Some "a.png".
Proof. reflexivity. Qed.

Example split_trailing : Js.split "/" "a/" = ["a"; ""].
Proof. reflexivity. Qed.

Example includes_sub : Js.includes "https://x/temp/a.png" "a.png" = true.
Proof. reflexivity. Qed.

Example includes_empty : Js.includes "" "" = true.
Proof. reflexivity. Qed.

(** ** The listing on the sample world *)

Example anonymous_sees_public :
  Sample.ids (GET Sample.anonymous Sample.no_query Sample.db) = ["p1"].
Proof. reflexivity. Qed.

Example alice_sees :
  Sample.ids (GET Sample.as_alice Sample.no_query Sample.db) = ["p6"; "p2"; "p1"].
Proof. reflexivity. Qed.

Example carol_sees :
  Sample.ids (GET Sample.as_carol Sample.no_query Sample.db) = ["p5"; "p4"; "p1"].
Proof. reflexivity. Qed.

(** ** Strings *)

Lemma truthy_Some (o : option string) :
  Js.truthy o = true -> exists c r, o = Some (String c r).
Proof.
  destruct o as [[|c r]|]; simpl; intros H; try discriminate.
  now exists c, r.
Qed.

Lemma field_is_spec (f : option string) (v : string) :
  field_is f v = true <-> (forall x, f = Some x -> v = x).
Proof.
  unfold field_is. destruct f as [x|].
  - rewrite String.eqb_eq. split.
    + intros -> y [= <-]. reflexivity.
    + intros H. now apply H.
  - split; [intros _ y; discriminate | reflexivity].
Qed.

Lemma Visibility_eqb_eq (a b : Visibility) : Visibility_eqb a b = true <-> a = b.
Proof. destruct a, b; simpl; split; intros H; congruence. Qed.

Lemma Visibility_of_name_name (v : Visibility) :
  Visibility_of_name (Visibility_name v) = Some v.
Proof. now destruct v. Qed.

Lemma Visibility_name_inj (a b : Visibility) :
  Visibility_name a = Visibility_name b -> a = b.
Proof.
  intros H. apply (f_equal Visibility_of_name) in H.
  rewrite !Visibility_of_name_name in H. congruence.
Qed.

(** ** Numbers *)

Lemma round_double_small z : Z.abs z < 2 ^ 53 -> Js.round_double z = z.
Proof.
  intros H. unfold Js.round_double.
  now replace (Z.abs z <? 2 ^ 53) with true by lia.
Qed.

Lemma round_double_ge z : 2 ^ 53 <= z -> 2 ^ 53 <= Js.round_double z.
Proof.
  intros H. unfold Js.round_double.
  rewrite (Z.abs_eq z) by lia.
  replace (z <? 2 ^ 53) with false by lia.
  replace (z <? 0) with false by lia.
  cbv zeta.
  set (e := Z.log2 z - 52).
  assert (Hn : 53 <= Z.log2 z).
  { change 53 with (Z.log2 (2 ^ 53)). apply Z.log2_le_mono. exact H. }
  assert (He : 1 <= e) by (unfold e; lia).
  destruct (Z.log2_spec z ltac:(lia)) as [Hlo _].
  replace (Z.log2 z) with (52 + e) in Hlo by (unfold e; lia).
  rewrite Z.pow_add_r in Hlo by lia.
  assert (HP : 2 ^ 1 <= 2 ^ e) by (apply Z.pow_le_mono_r; lia).
  set (q := Z.shiftr z e).
  assert (Hq : 2 ^ 52 <= q).
  { unfold q. rewrite Z.shiftr_div_pow2 by lia.
    apply Z.div_le_lower_bound; lia. }
  set (q' := if _ : bool then q + 1 else q).
  assert (Hq' : q <= q') by (unfold q'; destruct (_ || _); lia).
  rewrite Z.shiftl_mul_pow2 by lia.
  assert (2 ^ 53 <= q' * 2 ^ e) by nia.
  destruct (Js.infinity <=? q' * 2 ^ e); [|assumption].
  unfold Js.infinity. apply Z.pow_le_mono_r; lia.
Qed.

Lemma sub_one p : Js.sub (Some p) (Some 1) = Some (Js.round_double (p - 1)).
Proof.
  unfold Js.sub.
  replace (Js.infinity <=? Z.abs 1) with false by reflexivity.
  now rewrite Bool.andb_false_r.
Qed.

Lemma mul_Some x y s :
  Js.mul (Some x) (Some y) = Some s -> s = Js.round_double (x * y).
Proof.
  unfold Js.mul. destruct (_ || _); now intros [= <-].
Qed.

(** ** Ordering and paging keep to the selected rows *)

Lemma insert_desc_In (p x : Post.t) (l : list Post.t) :
  In x (insert_desc p l) <-> x = p \/ In x l.
Proof.
  induction l as [|q r IH]; simpl.
  - intuition congruence.
  - destruct (Post.createdAt q <=? Post.createdAt p); simpl.
    + intuition congruence.
    + rewrite IH. intuition congruence.
Qed.

Lemma orderBy_In (x : Post.t) (l : list Post.t) :
  In x (orderBy_createdAt_desc l) <-> In x l.
Proof.
  unfold orderBy_createdAt_desc.
  induction l as [|p r IH]; simpl; [tauto|].
  rewrite insert_desc_In, IH. intuition congruence.
Qed.

Lemma insert_desc_length (p : Post.t) (l : list Post.t) :
  List.length (insert_desc p l) = S (List.length l).
Proof.
  induction l as [|q r IH]; simpl; [reflexivity|].
  destruct (Post.createdAt q <=? Post.createdAt p); simpl; congruence.
Qed.

Lemma orderBy_length (l : list Post.t) :
  List.length (orderBy_createdAt_desc l) = List.length l.
Proof.
  unfold orderBy_createdAt_desc.
  induction l as [|p r IH]; simpl; [reflexivity|].
  now rewrite insert_desc_length, IH.
Qed.

Lemma firstn_incl {A} (n : nat) (x : A) (l : list A) :
  In x (firstn n l) -> In x l.
Proof.
  revert l. induction n as [|n IH]; intros [|y l]; simpl; try tauto.
  intros [H|H]; [now left | right; now apply IH].
Qed.

Lemma firstn_skipn_In {A} (n m : nat) (x : A) (l : list A) :
  In x (firstn n (skipn m l)) -> In x l.
Proof.
  intros H. apply firstn_incl in H.
  rewrite <- (firstn_skipn m l). apply in_or_app. now right.
Qed.

Lemma paginate_returns {A} (skip take : Js.number) (rows page : list A) :
  paginate skip take rows = Returns page ->
  exists s t,
    skip = Some s /\ take = Some t /\
    0 <= s < 2 ^ 63 /\ - 2 ^ 63 <= t < 2 ^ 63 /\
    Z.of_nat (List.length rows) < 2 ^ 53 /\
    page = if 0 <=? t
           then firstn (Z.to_nat t) (skipn (Z.to_nat s) rows)
           else rev (firstn (Z.to_nat (- t)) (skipn (Z.to_nat s) (rev rows))).
Proof.
  unfold paginate, int64. destruct skip as [s|], take as [t|]; try discriminate.
  destruct (s <? 0) eqn:E1; [discriminate|].
  destruct (- 2 ^ 63 <=? s) eqn:E2, (s <? 2 ^ 63) eqn:E3; try discriminate.
  destruct (- 2 ^ 63 <=? t) eqn:E4, (t <? 2 ^ 63) eqn:E5; try discriminate.
  destruct (2 ^ 53 <=? Z.of_nat (List.length rows)) eqn:E6; [discriminate|].
  cbn [orb andb negb]. intros H. exists s, t.
  repeat split; try lia.
  destruct (0 <=? t); now injection H as <-.
Qed.

Lemma paginate_accepts {A} (s t : Z) (rows : list A) :
  0 <= s < 2 ^ 63 -> - 2 ^ 63 <= t < 2 ^ 63 ->
  Z.of_nat (List.length rows) < 2 ^ 53 ->
  paginate (Some s) (Some t) rows =
  Returns (if 0 <=? t
           then firstn (Z.to_nat t) (skipn (Z.to_nat s) rows)
           else rev (firstn (Z.to_nat (- t)) (skipn (Z.to_nat s) (rev rows)))).
Proof.
  intros Hs Ht Hn. unfold paginate, int64.
  replace (s <? 0) with false by lia.
  replace (- 2 ^ 63 <=? s) with true by lia.
  replace (s <? 2 ^ 63) with true by lia.
  replace (- 2 ^ 63 <=? t) with true by lia.
  replace (t <? 2 ^ 63) with true by lia.
  replace (2 ^ 53 <=? Z.of_nat (List.length rows)) with false by lia.
  cbn [orb andb negb]. now destruct (0 <=? t).
Qed.

Lemma paginate_In {A} (skip take : Js.number) (rows page : list A) (x : A) :
  paginate skip take rows = Returns page -> In x page -> In x rows.
Proof.
  intros H. apply paginate_returns in H as (s & t & _ & _ & _ & _ & _ & ->).
  destruct (0 <=? t); intros H.
  - eapply firstn_skipn_In; eauto.
  - apply in_rev in H. apply firstn_skipn_In in H. now apply in_rev.
Qed.

Lemma paginate_length {A} (skip : Js.number) (t : Z) (rows page : list A) :
  0 <= t -> paginate skip (Some t) rows = Returns page ->
  Z.of_nat (List.length page) <= t.
Proof.
  intros Ht H. apply paginate_returns in H as (s & t' & _ & [= <-] & _ & _ & _ & ->).
  replace (0 <=? t) with true by lia.
  pose proof (firstn_le_length (Z.to_nat t) (skipn (Z.to_nat s) rows)).
  lia.
Qed.

(** ** The shape of [GET] *)

Lemma user_findUnique_db env email d o d' :
  prisma.user_findUnique env email d = (o, d') -> d' = d.
Proof.
  unfold prisma.user_findUnique.
  destruct (Env.throws env AtUserFindUnique); now intros [= _ <-].
Qed.

Lemma authorize_db env q w d o d' :
  authorize env q w d = (o, d') -> d' = d.
Proof.
  unfold authorize, bind, await, ret, throw.
  destruct (Env.getServerSession env) as [s|]; [|now intros [= _ <-]].
  destruct (session_email s) as [[|c r]|]; try now intros [= _ <-].
  destruct (negb (Js.truthy (Query.userId q))); [|now intros [= _ <-]].
  destruct (prisma.user_findUnique env (String c r) d) as [[u|] d1] eqn:E;
    apply user_findUnique_db in E; subst d1.
  - destruct u; now intros [= _ <-].
  - now intros [= _ <-].
Qed.

Lemma authorize_anonymous env q w d s :
  Env.getServerSession env = Returns s ->
  Js.truthy (session_email s) = false ->
  authorize env q w d = (Returns (Where.with_visibility "PUBLIC" w), d).
Proof.
  intros Hs He. unfold authorize, bind, await, ret. rewrite Hs.
  destruct (session_email s) as [[|c r]|]; try reflexivity. discriminate.
Qed.

Lemma authorize_owner_filter env q w d s c r :
  Env.getServerSession env = Returns s ->
  session_email s = Some (String c r) ->
  Js.truthy (Query.userId q) = true ->
  authorize env q w d = (Returns w, d).
Proof.
  intros Hs He Hu. unfold authorize, bind, await, ret. now rewrite Hs, He, Hu.
Qed.

Lemma authorize_known env q w d s c r u :
  Env.getServerSession env = Returns s ->
  session_email s = Some (String c r) ->
  Js.truthy (Query.userId q) = false ->
  Env.throws env AtUserFindUnique = false ->
  find (fun u => String.eqb (User.email u) (String c r)) (DB.users d) = Some u ->
  authorize env q w d = (Returns (Where.with_OR (visible_to (User.id u)) w), d).
Proof.
  intros Hs He Hu Ht Hf.
  unfold authorize, bind, await, ret, prisma.user_findUnique.
  rewrite Hs, He, Hu. cbn [negb]. now rewrite Ht, Hf.
Qed.

Lemma authorize_unknown env q w d s c r :
  Env.getServerSession env = Returns s ->
  session_email s = Some (String c r) ->
  Js.truthy (Query.userId q) = false ->
  Env.throws env AtUserFindUnique = false ->
  find (fun u => String.eqb (User.email u) (String c r)) (DB.users d) = None ->
  authorize env q w d = (Returns w, d).
Proof.
  intros Hs He Hu Ht Hf.
  unfold authorize, bind, await, ret, prisma.user_findUnique.
  rewrite Hs, He, Hu. cbn [negb]. now rewrite Ht, Hf.
Qed.

(** [GET] always answers: its outer [catch] turns every exception into a
    500, and it never writes. *)
Lemma GET_total env q d : exists r, GET env q d = (Returns r, d).
Proof.
  unfold GET, try_catch, bind, ret.
  destruct (authorize env q (where_of_query q) d) as [[w|] d1] eqn:E;
    apply authorize_db in E; subst d1; [|eauto].
  unfold prisma.post_findMany, prisma.post_count.
  destruct (Env.throws env AtPostFindMany || negb (prisma.valid_where w)); [eauto|].
  destruct (paginate _ _ _); [|eauto].
  destruct (Env.throws env AtPostCount || negb (prisma.valid_where w)); eauto.
Qed.

(** When nothing fails the answer is the page of the selected rows. *)
Lemma GET_listing env q d w rows :
  authorize env q (where_of_query q) d = (Returns w, d) ->
  Env.throws env AtPostFindMany = false ->
  Env.throws env AtPostCount = false ->
  prisma.valid_where w = true ->
  paginate (skip_of q) (limit_of q) (orderBy_createdAt_desc (selected d w))
    = Returns rows ->
  GET env q d =
    (Returns
       (Listing (map (include d) rows)
          (Pagination.Build (page_of q) (limit_of q)
             (Z.of_nat (List.length (selected d w)))
             (Js.Math_ceil
                (Js.div (Some (Z.of_nat (List.length (selected d w)))) (limit_of q))))),
     d).
Proof.
  intros Ha Hf Hc Hv Hp.
  unfold GET, try_catch, bind, ret. rewrite Ha.
  unfold prisma.post_findMany, prisma.post_count.
  now rewrite Hf, Hc, Hv, Hp.
Qed.

(** Conversely a listing answer is such a page. *)
Lemma GET_listing_inv env q d posts pg d' :
  GET env q d = (Returns (Listing posts pg), d') ->
  exists w rows,
    authorize env q (where_of_query q) d = (Returns w, d)
    /\ d' = d
    /\ prisma.valid_where w = true
    /\ paginate (skip_of q) (limit_of q) (orderBy_createdAt_desc (selected d w))
       = Returns rows
    /\ posts = map (include d) rows
    /\ pg = Pagination.Build (page_of q) (limit_of q)
              (Z.of_nat (List.length (selected d w)))
              (Js.Math_ceil
                 (Js.div (Some (Z.of_nat (List.length (selected d w)))) (limit_of q))).
Proof.
  unfold GET, try_catch, bind, ret.
  destruct (authorize env q (where_of_query q) d) as [[w|] d1] eqn:E;
    [|discriminate].
  assert (d1 = d) as -> by (eapply authorize_db; eauto).
  unfold prisma.post_findMany, prisma.post_count.
  destruct (Env.throws env AtPostFindMany); simpl; [discriminate|].
  destruct (prisma.valid_where w) eqn:Hv; simpl; [|discriminate].
  destruct (paginate _ _ _) as [rows|] eqn:Hp; [|discriminate].
  rewrite Bool.orb_false_r.
  destruct (Env.throws env AtPostCount); [discriminate|].
  intros [= <- <- <-]. exists w, rows. repeat split; auto.
Qed.

(** Every post of a listing answer is a selected row. *)
Lemma GET_page_selected env q d posts pg d' w v :
  GET env q d = (Returns (Listing posts pg), d') ->
  authorize env q (where_of_query q) d = (Returns w, d) ->
  In v posts ->
  In (PostView.post v) (selected d w).
Proof.
  intros HG Ha Hv.
  destruct (GET_listing_inv _ _ _ _ _ _ HG) as (w' & rows & Ha' & _ & _ & Hp & -> & _).
  rewrite Ha in Ha'. injection Ha' as <-.
  apply in_map_iff in Hv as (p & <- & Hp'). simpl.
  apply orderBy_In. eapply paginate_In; eauto.
Qed.

Lemma GET_pages_of_selection env q d w :
  authorize env q (where_of_query q) d = (Returns w, d) ->
  pages_of_selection env q d w.
Proof.
  intros Ha. split.
  - intros posts pg d' HG.
    destruct (GET_listing_inv _ _ _ _ _ _ HG)
      as (w' & rows & Ha' & -> & _ & _ & _ & ->).
    rewrite Ha in Ha'. injection Ha' as <-.
    split; [reflexivity|]. split; [reflexivity|].
    intros v Hv. eapply GET_page_selected; eauto.
  - intros rows Hf Hc Hv Hp. eexists.
    exact (GET_listing env q d w rows Ha Hf Hc Hv Hp).
Qed.

(** ** Filters *)

Lemma where_of_query_fields (q : Query.t) :
  Where.isDraft (where_of_query q) = false
  /\ Where.visibility (where_of_query q) = given (Query.visibility q)
  /\ Where.category (where_of_query q) = given (Query.category q)
  /\ Where.userId (where_of_query q) = given (Query.userId q)
  /\ Where.OR (where_of_query q) = None.
Proof.
  unfold where_of_query.
  destruct (Query.visibility q) as [[|? ?]|], (Query.category q) as [[|? ?]|],
    (Query.userId q) as [[|? ?]|]; simpl; auto.
Qed.

Lemma given_truthy (o : option string) :
  Js.truthy o = true -> given o = o.
Proof. now destruct o as [[|? ?]|]. Qed.

Lemma given_falsy (o : option string) :
  Js.truthy o = false -> given o = None.
Proof. now destruct o as [[|? ?]|]. Qed.

Lemma selected_spec (d : DB.t) (w : Where.t) (p : Post.t) :
  In p (selected d w)
  <-> In p (DB.posts d)
      /\ Post.isDraft p = Where.isDraft w
      /\ field_is (Where.visibility w) (Visibility_name (Post.visibility p)) = true
      /\ field_is (Where.category w) (Post.category p) = true
      /\ field_is (Where.userId w) (Post.userId p) = true
      /\ match Where.OR w with
         | Some cs => existsb (holds d p) cs = true
         | None => True
         end.
Proof.
  unfold selected, matches. rewrite filter_In, !Bool.andb_true_iff, Bool.eqb_true_iff.
  destruct (Where.OR w); intuition.
Qed.

Lemma visible_to_spec (d : DB.t) (me : string) (p : Post.t) :
  existsb (holds d p) (visible_to me) = true <-> visible_rule d me p.
Proof.
  unfold visible_to, visible_rule. simpl.
  rewrite !Bool.orb_true_iff, !Bool.andb_true_iff, !Visibility_eqb_eq, String.eqb_eq.
  intuition discriminate.
Qed.

Lemma field_is_PUBLIC (v : Visibility) :
  field_is (Some "PUBLIC") (Visibility_name v) = true <-> v = PUBLIC.
Proof. destruct v; simpl; split; intros H; congruence. Qed.

(** ** Listing without a session *)

Lemma authorize_throws env q w d :
  Env.getServerSession env = Throws -> authorize env q w d = (Throws, d).
Proof. intros Hs. unfold authorize, bind, await, throw. now rewrite Hs. Qed.

(** C2.  A listing request without an authenticated session (no session,
    a session without a non-empty email, or a session service that fails)
    never returns a post that is not PUBLIC.  When the session service
    answers, the visibility filter is set to PUBLIC whatever the query
    asked for and nothing is put in [OR]; every row that filter selects is
    a published PUBLIC post, and the answers are pages of those rows. *)
Theorem anonymous_listing_is_public env q d :
  signed_in env = false ->
  let w := Where.with_visibility "PUBLIC" (where_of_query q) in
  Where.visibility w = Some (Visibility_name PUBLIC)
  /\ Where.OR w = None
  /\ (forall p, In p (selected d w) ->
        Post.visibility p = PUBLIC /\ Post.isDraft p = false)
  /\ (forall s, Env.getServerSession env = Returns s ->
        authorize env q (where_of_query q) d = (Returns w, d)
        /\ pages_of_selection env q d w)
  /\ (forall posts pg d',
        GET env q d = (Returns (Listing posts pg), d') ->
        forall v, In v posts ->
        Post.visibility (PostView.post v) = PUBLIC
        /\ Post.isDraft (PostView.post v) = false).
Proof.
  intros Hout w.
  assert (Hsel : forall p, In p (selected d w) ->
                   Post.visibility p = PUBLIC /\ Post.isDraft p = false).
  { intros p Hp. apply selected_spec in Hp as (_ & Hd & Hv & _).
    split.
    - now apply field_is_PUBLIC.
    - rewrite Hd. apply where_of_query_fields. }
  assert (Hauth : forall s, Env.getServerSession env = Returns s ->
                    authorize env q (where_of_query q) d = (Returns w, d)).
  { intros s Hs. apply (authorize_anonymous env q (where_of_query q) d s Hs).
    unfold signed_in in Hout. now rewrite Hs in Hout. }
  split; [reflexivity|].
  split; [apply where_of_query_fields|]. split; [exact Hsel|].
  split.
  { intros s Hs. split; [exact (Hauth s Hs)|].
    apply GET_pages_of_selection. exact (Hauth s Hs). }
  intros posts pg d' HG v Hv.
  apply (Hsel (PostView.post v)).
  destruct (Env.getServerSession env) as [s|] eqn:Hs.
  - eapply GET_page_selected; eauto.
  - destruct (GET_listing_inv _ _ _ _ _ _ HG) as (w' & rows & Ha & _).
    rewrite (authorize_throws env q (where_of_query q) d Hs) in Ha. discriminate Ha.
Qed.

Lemma anonymous_listing_is_public_witness :
  let q := Query.Build None None (Some "PRIVATE") None None in
  let w := Where.with_visibility "PUBLIC" (where_of_query q) in
  authorize Sample.anonymous q (where_of_query q) Sample.db = (Returns w, Sample.db)
  /\ selected Sample.db w = [Sample.bob_public]
  /\ (forall posts pg d',
        GET Sample.anonymous q Sample.db = (Returns (Listing posts pg), d') ->
        forall v, In v posts ->
        Post.visibility (PostView.post v) = PUBLIC
        /\ Post.isDraft (PostView.post v) = false).
Proof.
  destruct (anonymous_listing_is_public Sample.anonymous
              (Query.Build None None (Some "PRIVATE") None None) Sample.db eq_refl)
    as (_ & _ & _ & Hauth & Hpage).
  split; [exact (proj1 (Hauth None eq_refl))|].
  split; [reflexivity | exact Hpage].
Defined.

Example anonymous_asks_private :
  Sample.ids (GET Sample.anonymous (Query.Build None None (Some "PRIVATE") None None)
                Sample.db) = ["p1"].
Proof. reflexivity. Qed.

(** ** Listing for a signed-in caller without an owner filter *)

Lemma caller_session env d me :
  caller env d = Some me ->
  exists s c r,
    Env.getServerSession env = Returns s
    /\ session_email s = Some (String c r)
    /\ find (fun u => String.eqb (User.email u) (String c r)) (DB.users d) = Some me.
Proof.
  unfold caller. destruct (Env.getServerSession env) as [s|]; [|discriminate].
  destruct (session_email s) as [[|c r]|] eqn:E; try discriminate.
  intros H. exists s, c, r. repeat split; auto.
Qed.

Lemma signed_in_session env :
  signed_in env = true ->
  exists s c r,
    Env.getServerSession env = Returns s /\ session_email s = Some (String c r).
Proof.
  unfold signed_in. destruct (Env.getServerSession env) as [s|]; [|discriminate].
  intros H. apply truthy_Some in H as (c & r & H). exists s, c, r. now split.
Qed.

Lemma rule_filter_selected q d me p :
  let w := Where.with_OR (visible_to (User.id me)) (where_of_query q) in
  In p (selected d w)
  <-> published_in_category q d p
      /\ field_is (given (Query.visibility q)) (Visibility_name (Post.visibility p)) = true
      /\ field_is (given (Query.userId q)) (Post.userId p) = true
      /\ visible_rule d (User.id me) p.
Proof.
  intros w. unfold published_in_category.
  destruct (where_of_query_fields q) as (Hd & Hv & Hc & Hu & _).
  rewrite selected_spec. subst w. unfold Where.with_OR.
  cbn [Where.OR Where.isDraft Where.visibility Where.category Where.userId].
  rewrite Hd, Hv, Hc, Hu, visible_to_spec. tauto.
Qed.

(** C1, as the code has it.  For a signed-in caller with a user row who
    sends no owner filter, the three-way rule is put in [OR] next to the
    explicit filters, none of which is dropped: the selected rows are the
    published posts that pass the explicit visibility and category filters
    and the rule.  So no PRIVATE post of another user is ever selected, a
    FOLLOWERS post of another user only when the caller follows its owner,
    and when no visibility parameter is sent the selected rows of the
    category are exactly those the rule admits.  The returned page is made
    of selected rows. *)
Theorem listing_rule_joins_filters env q d me :
  caller env d = Some me ->
  Js.truthy (Query.userId q) = false ->
  Env.throws env AtUserFindUnique = false ->
  let w := Where.with_OR (visible_to (User.id me)) (where_of_query q) in
  authorize env q (where_of_query q) d = (Returns w, d)
  /\ Where.visibility w = given (Query.visibility q)
  /\ (forall p,
        In p (selected d w)
        <-> published_in_category q d p
            /\ field_is (given (Query.visibility q))
                 (Visibility_name (Post.visibility p)) = true
            /\ visible_rule d (User.id me) p)
  /\ (forall p,
        In p (selected d w) -> Post.userId p <> User.id me ->
        Post.visibility p <> PRIVATE
        /\ (Post.visibility p = FOLLOWERS ->
            follows_user d (User.id me) (Post.userId p) = true))
  /\ (given (Query.visibility q) = None ->
      forall p,
        In p (selected d w)
        <-> published_in_category q d p /\ visible_rule d (User.id me) p)
  /\ pages_of_selection env q d w.
Proof.
  intros Hc Hu Ht w.
  destruct (caller_session _ _ _ Hc) as (s & c & r & Hs & He & Hf).
  pose proof (authorize_known env q (where_of_query q) d s c r me Hs He Hu Ht Hf)
    as Ha.
  assert (Hsel : forall p,
             In p (selected d w)
             <-> published_in_category q d p
                 /\ field_is (given (Query.visibility q))
                      (Visibility_name (Post.visibility p)) = true
                 /\ visible_rule d (User.id me) p).
  { intros p. subst w. rewrite rule_filter_selected.
    rewrite (given_falsy _ Hu). simpl. tauto. }
  split; [exact Ha|].
  split; [apply where_of_query_fields|].
  split; [exact Hsel|].
  split.
  { intros p Hp Hother. apply Hsel in Hp as (_ & _ & [Hpub|[Hown|[Hfol Hedge]]]).
    - split; [congruence|]. intros; congruence.
    - contradiction.
    - split; [congruence|]. auto. }
  split.
  { intros Hnone p. rewrite Hsel, Hnone. simpl. tauto. }
  now apply GET_pages_of_selection.
Qed.

Lemma listing_rule_joins_filters_witness :
  let q := Query.Build None None (Some "PRIVATE") None None in
  let w := Where.with_OR (visible_to "u1") (where_of_query q) in
  authorize Sample.as_alice q (where_of_query q) Sample.db = (Returns w, Sample.db)
  /\ Where.visibility w = Some "PRIVATE"
  /\ selected Sample.db w = [Sample.alice_private].
Proof.
  pose proof (listing_rule_joins_filters Sample.as_alice
                (Query.Build None None (Some "PRIVATE") None None) Sample.db
                Sample.alice eq_refl eq_refl eq_refl) as (Ha & Hv & _).
  split; [exact Ha|]. split; [exact Hv|]. reflexivity.
Defined.

(** Alice asks for PRIVATE posts: Bob's public post is published and passes
    the rule, but the explicit filter stays and it is not selected. *)
Lemma rule_does_not_replace_visibility :
  ~ rule_replaces_visibility Sample.as_alice
      (Query.Build None None (Some "PRIVATE") None None) Sample.db.
Proof.
  intros H.
  specialize (H Sample.alice _ eq_refl eq_refl eq_refl Sample.bob_public).
  destruct H as [_ H].
  assert (Hin : In Sample.bob_public [Sample.alice_private]).
  { apply H. split.
    - unfold published_in_category. simpl. tauto.
    - left. reflexivity. }
  destruct Hin as [Heq|[]]. discriminate Heq.
Qed.

Example alice_asks_private :
  Sample.ids (GET Sample.as_alice (Query.Build None None (Some "PRIVATE") None None)
                Sample.db) = ["p6"].
Proof. reflexivity. Qed.

(** ** Listing with an owner filter *)

(** C9.  When a signed-in caller sends a [userId] parameter, the filter is
    the one built from the parameters and nothing is put in [OR]: the
    selected rows are the published posts of that user that pass the
    explicit visibility and category filters.  Who the caller is and whom
    the caller follows plays no part; without a visibility parameter a
    post of any tier is selected. *)
Theorem owner_filter_skips_rule env q d :
  signed_in env = true ->
  Js.truthy (Query.userId q) = true ->
  let w := where_of_query q in
  authorize env q w d = (Returns w, d)
  /\ Where.OR w = None
  /\ (forall p,
        In p (selected d w)
        <-> published_in_category q d p
            /\ field_is (given (Query.visibility q))
                 (Visibility_name (Post.visibility p)) = true
            /\ Some (Post.userId p) = Query.userId q)
  /\ (given (Query.visibility q) = None ->
      forall p,
        published_in_category q d p -> Some (Post.userId p) = Query.userId q ->
        In p (selected d w))
  /\ pages_of_selection env q d w.
Proof.
  intros Hin Hu w.
  destruct (signed_in_session _ Hin) as (s & c & r & Hs & He).
  pose proof (authorize_owner_filter env q w d s c r Hs He Hu) as Ha.
  destruct (where_of_query_fields q) as (Hd & Hv & Hc & Hw & Hor).
  assert (Hsel : forall p,
             In p (selected d w)
             <-> published_in_category q d p
                 /\ field_is (given (Query.visibility q))
                      (Visibility_name (Post.visibility p)) = true
                 /\ Some (Post.userId p) = Query.userId q).
  { intros p. unfold published_in_category. rewrite selected_spec. subst w.
    rewrite Hd, Hv, Hc, Hw, Hor, (given_truthy _ Hu).
    destruct (Query.userId q) as [u|]; [|discriminate]. simpl.
    rewrite String.eqb_eq. intuition congruence. }
  split; [exact Ha|]. split; [exact Hor|]. split; [exact Hsel|]. split.
  { intros Hnone p Hp Hown. apply Hsel. rewrite Hnone. simpl. tauto. }
  now apply GET_pages_of_selection.
Qed.

Lemma owner_filter_skips_rule_witness :
  let q := Query.Build None None None None (Some "u3") in
  authorize Sample.as_alice q (where_of_query q) Sample.db
    = (Returns (where_of_query q), Sample.db)
  /\ In Sample.carol_private (selected Sample.db (where_of_query q))
  /\ follows_user Sample.db "u1" "u3" = false.
Proof.
  pose proof (owner_filter_skips_rule Sample.as_alice
                (Query.Build None None None None (Some "u3")) Sample.db
                eq_refl eq_refl) as (Ha & _ & _ & Hall & _).
  split; [exact Ha|]. split; [|reflexivity].
  apply Hall; [reflexivity| |reflexivity].
  unfold published_in_category. simpl. tauto.
Defined.

Example alice_reads_carol :
  Sample.ids (GET Sample.as_alice (Query.Build None None None None (Some "u3"))
                Sample.db) = ["p5"; "p4"].
Proof. reflexivity. Qed.

(** ** Listing for a session without a user row *)

(** C10.  When the session's email belongs to no user row and no [userId]
    parameter is sent, the filter is again the one built from the
    parameters: nothing constrains the visibility but the explicit
    parameter, so without it the published posts of every tier and every
    owner are selected. *)
Theorem unknown_user_sees_all env q d :
  signed_in env = true ->
  caller env d = None ->
  Js.truthy (Query.userId q) = false ->
  Env.throws env AtUserFindUnique = false ->
  let w := where_of_query q in
  authorize env q w d = (Returns w, d)
  /\ Where.OR w = None
  /\ Where.visibility w = given (Query.visibility q)
  /\ (forall p,
        In p (selected d w)
        <-> published_in_category q d p
            /\ field_is (given (Query.visibility q))
                 (Visibility_name (Post.visibility p)) = true)
  /\ (given (Query.visibility q) = None ->
      forall p, published_in_category q d p -> In p (selected d w))
  /\ pages_of_selection env q d w.
Proof.
  intros Hin Hc Hu Ht w.
  destruct (signed_in_session _ Hin) as (s & c & r & Hs & He).
  assert (Hf : find (fun u => String.eqb (User.email u) (String c r)) (DB.users d)
               = None).
  { unfold caller in Hc. now rewrite Hs, He in Hc. }
  pose proof (authorize_unknown env q w d s c r Hs He Hu Ht Hf) as Ha.
  destruct (where_of_query_fields q) as (Hd & Hv & Hcat & Hw & Hor).
  assert (Hsel : forall p,
             In p (selected d w)
             <-> published_in_category q d p
                 /\ field_is (given (Query.visibility q))
                      (Visibility_name (Post.visibility p)) = true).
  { intros p. unfold published_in_category. rewrite selected_spec. subst w.
    rewrite Hd, Hv, Hcat, Hw, Hor, (given_falsy _ Hu). simpl. tauto. }
  split; [exact Ha|]. split; [exact Hor|]. split; [exact Hv|].
  split; [exact Hsel|]. split.
  { intros Hnone p Hp. apply Hsel. rewrite Hnone. simpl. tauto. }
  now apply GET_pages_of_selection.
Qed.

Lemma unknown_user_sees_all_witness :
  authorize Sample.as_ghost Sample.no_query (where_of_query Sample.no_query) Sample.db
    = (Returns (where_of_query Sample.no_query), Sample.db)
  /\ In Sample.bob_private (selected Sample.db (where_of_query Sample.no_query))
  /\ In Sample.carol_followers (selected Sample.db (where_of_query Sample.no_query)).
Proof.
  pose proof (unknown_user_sees_all Sample.as_ghost Sample.no_query Sample.db
                eq_refl eq_refl eq_refl eq_refl) as (Ha & _ & _ & _ & Hall & _).
  split; [exact Ha|].
  split; apply Hall; try reflexivity; unfold published_in_category; simpl; tauto.
Defined.

Example ghost_sees :
  Sample.ids (GET Sample.as_ghost Sample.no_query Sample.db)
  = ["p6"; "p5"; "p4"; "p3"; "p2"; "p1"].
Proof. reflexivity. Qed.

(** ** Paging *)

Lemma ceil_div_nonzero (t l : Z) :
  l <> 0 ->
  Js.Math_ceil (Js.div (Some t) (Some l))
  = Some (Qceiling (inject_Z t / inject_Z l))
  /\ Qceiling (inject_Z t / inject_Z l) = - ((- t) / l).
Proof.
  intros Hl. unfold Js.Math_ceil, Js.div.
  destruct (l =? 0) eqn:E; [apply Z.eqb_eq in E; contradiction|].
  split; [reflexivity|].
  unfold Qceiling. f_equal. rewrite Zdiv_Qdiv. apply Qfloor_comp.
  rewrite inject_Z_opp. unfold Qdiv. ring.
Qed.

Lemma ceil_div_bounds (t l : Z) :
  0 < l -> (- ((- t) / l) - 1) * l < t <= - ((- t) / l) * l.
Proof.
  intros Hl.
  pose proof (Z.div_mod (- t) l ltac:(lia)).
  pose proof (Z.mod_pos_bound (- t) l Hl).
  nia.
Qed.

Lemma limit_of_clamped (q : Query.t) (l : Z) : limit_of q = Some l -> l <= 50.
Proof.
  unfold limit_of, Js.Math_min.
  destruct (Js.parseInt _); [|discriminate]. intros [= <-]. lia.
Qed.

Lemma paginate_length_negative {A} (skip : Js.number) (t : Z) (rows page : list A) :
  t < 0 -> paginate skip (Some t) rows = Returns page ->
  Z.of_nat (List.length page) <= - t.
Proof.
  intros Ht H. apply paginate_returns in H as (s & t' & _ & [= <-] & _ & _ & _ & ->).
  replace (0 <=? t) with false by lia.
  rewrite length_rev.
  pose proof (firstn_le_length (Z.to_nat (- t)) (skipn (Z.to_nat s) (rev rows))).
  lia.
Qed.

Lemma paginate_take_zero {A} (skip : Js.number) (rows page : list A) :
  paginate skip (Some 0) rows = Returns page -> page = [].
Proof.
  intros H. apply paginate_returns in H as (s & t' & _ & [= <-] & _ & _ & _ & ->).
  reflexivity.
Qed.

(** C6, as worded, fails: the limit is clamped from above only, and under
    a negative limit the query returns up to that many rows from the end
    of the ordered result.  With 130 public posts, [?limit=-60] is
    answered with 60 posts. *)
Lemma negative_limit_exceeds_clamp :
  ~ page_size_clamped Sample.anonymous Sample.last_sixty (Sample.crowd 130).
Proof.
  intros H.
  assert (E : exists posts pg,
             GET Sample.anonymous Sample.last_sixty (Sample.crowd 130)
             = (Returns (Listing posts pg), Sample.crowd 130)
             /\ List.length posts = 60%nat).
  { eexists _, _. split; vm_compute; reflexivity. }
  destruct E as (posts & pg & HG & Hlen).
  specialize (H _ _ _ HG). rewrite Hlen in H. lia.
Qed.

(** C6, amended.  In every listing answer the reported [limit] is the
    smaller of the parsed [limit] parameter and 50: never above 50, 10
    when the parameter is absent, and not bounded from below.  The page
    has at most [limit] posts when the limit is not negative, and at
    most [- limit] posts when it is negative.  The reported [page] is the
    parsed [page] parameter, 1 when it is absent.  For every limit other
    than zero [pages] is the ceiling of total/limit, for a positive limit
    the least number of pages of that size that hold all rows; for a
    limit of zero it is no finite number and the page is empty.  A total
    of 101 with a limit of 50 gives 3 pages. *)
Theorem pagination_metadata env q d posts pg d' :
  GET env q d = (Returns (Listing posts pg), d') ->
  Pagination.limit pg
    = Js.Math_min (Js.parseInt (Js.or_else (Query.limit q) "10")) (Some 50)
  /\ Pagination.page pg = Js.parseInt (Js.or_else (Query.page q) "1")
  /\ (Query.limit q = None -> Pagination.limit pg = Some 10)
  /\ (Query.page q = None -> Pagination.page pg = Some 1)
  /\ (forall n, Js.parseInt (Js.or_else (Query.limit q) "10") = Some n ->
        Pagination.limit pg = Some (Z.min n 50))
  /\ (exists l,
        Pagination.limit pg = Some l
        /\ l <= 50
        /\ (0 <= l -> Z.of_nat (List.length posts) <= l)
        /\ (l < 0 -> Z.of_nat (List.length posts) <= - l)
        /\ (l <> 0 ->
            Pagination.pages pg
            = Some (Qceiling (inject_Z (Pagination.total pg) / inject_Z l)))
        /\ (l = 0 -> Pagination.pages pg = None /\ posts = [])
        /\ (0 < l ->
            exists n, Pagination.pages pg = Some n
                      /\ (n - 1) * l < Pagination.total pg <= n * l))
  /\ (Pagination.total pg = 101 -> Pagination.limit pg = Some 50 ->
      Pagination.pages pg = Some 3).
Proof.
  intros HG.
  destruct (GET_listing_inv _ _ _ _ _ _ HG) as (w & rows & _ & _ & _ & Hp & -> & ->).
  cbn [Pagination.limit Pagination.page Pagination.total Pagination.pages].
  split; [reflexivity|]. split; [reflexivity|].
  split. { intros Hn. unfold limit_of. now rewrite Hn. }
  split. { intros Hn. unfold page_of. now rewrite Hn. }
  split. { intros n Hn. unfold limit_of. now rewrite Hn. }
  split.
  { destruct (paginate_returns _ _ _ _ Hp) as (s & l & _ & Hl & _ & _ & _ & _).
    exists l. split; [exact Hl|].
    split; [eapply limit_of_clamped; eauto|].
    rewrite Hl in Hp |- *. rewrite length_map.
    split. { intros H0. eapply paginate_length; eauto. }
    split. { intros H0. eapply paginate_length_negative; eauto. }
    split. { intros Hnz. now apply ceil_div_nonzero. }
    split.
    { intros ->. split; [reflexivity|].
      now rewrite (paginate_take_zero _ _ _ Hp). }
    intros Hpos.
    destruct (ceil_div_nonzero (Z.of_nat (List.length (selected d w))) l
                ltac:(lia)) as [-> ->].
    eexists. split; [reflexivity|]. now apply ceil_div_bounds. }
  intros -> ->. reflexivity.
Qed.

Lemma pagination_metadata_witness :
  exists posts pg,
    GET Sample.anonymous (Query.Build None (Some "80") None None None)
      (Sample.crowd 101)
    = (Returns (Listing posts pg), Sample.crowd 101)
    /\ Pagination.limit pg = Some 50
    /\ Pagination.page pg = Some 1
    /\ Pagination.total pg = 101
    /\ Pagination.pages pg = Some 3
    /\ List.length posts = 50%nat.
Proof.
  eexists _, _. split; [vm_compute; reflexivity|].
  match goal with
  | |- Pagination.limit ?pg = _ /\ _ =>
      pose proof (pagination_metadata Sample.anonymous
                    (Query.Build None (Some "80") None None None)
                    (Sample.crowd 101) _ pg (Sample.crowd 101) eq_refl)
        as (_ & _ & _ & Hp & Hl & _ & H3)
  end.
  split; [exact (Hl 80 eq_refl)|].
  split; [exact (Hp eq_refl)|].
  split; [reflexivity|].
  split; [exact (H3 eq_refl (Hl 80 eq_refl))|].
  reflexivity.
Defined.

(** The same listing seen from its end: the limit is reported as it was
    sent, and [pages] is negative. *)
Example negative_limit_listing :
  let r := GET Sample.anonymous Sample.last_sixty (Sample.crowd 130) in
  List.length (posts_of r) = 60%nat
  /\ match fst r with
     | Returns (Listing _ pg) =>
         Pagination.limit pg = Some (-60) /\ Pagination.pages pg = Some (-2)
     | _ => False
     end.
Proof. vm_compute. repeat split. Qed.

Example limit_absent : limit_of Sample.no_query = Some 10.
Proof. reflexivity. Qed.

Example limit_zero_pages :
  Js.Math_ceil (Js.div (Some 7) (limit_of (Query.Build None (Some "0") None None None)))
  = None.
Proof. reflexivity. Qed.

Example limit_not_a_number :
  limit_of (Query.Build None (Some "many") None None None) = None.
Proof. reflexivity. Qed.

(** ** The write calls *)

Lemma with_images_same (d : DB.t) : DB.with_images (DB.images d) d = d.
Proof. now destruct d. Qed.

Lemma with_images_twice (a b : list Image.t) (d : DB.t) :
  DB.with_images a (DB.with_images b d) = DB.with_images a d.
Proof. reflexivity. Qed.

Lemma find_existsb {A} (f : A -> bool) (l : list A) :
  existsb f l = false <-> find f l = None.
Proof.
  induction l as [|x l IH]; simpl; [tauto|].
  destruct (f x); simpl; [split; discriminate | exact IH].
Qed.

Lemma find_app_last {A} (f : A -> bool) (l : list A) (x : A) :
  find f l = None -> f x = true -> find f (l ++ [x]) = Some x.
Proof.
  induction l as [|y l IH]; simpl; intros Hn Hx.
  - now rewrite Hx.
  - destruct (f y); [discriminate | auto].
Qed.

(** What a successful [post.create] leaves: a new row with the identifier
    of the environment and the cover of [data], at the end of the table. *)
Lemma post_create_returns env data d post d1 :
  prisma.post_create env data d = (Returns post, d1) ->
  Post.id post = Env.newId env
  /\ Post.coverImage post = Some (prisma.coverImage data)
  /\ Post.userId post = prisma.userId data
  /\ post_of d (Post.id post) = None
  /\ d1 = DB.with_posts (DB.posts d ++ [post]) d
  /\ post_of d1 (Post.id post) = Some post.
Proof.
  unfold prisma.post_create, post_of.
  destruct (Env.throws env AtPostCreate); [discriminate|].
  destruct (match prisma.visibility data with
            | Some s => Visibility_of_name s
            | None => Some (Env.defaultVisibility env)
            end) as [v|]; [|discriminate].
  destruct (existsb _ (DB.posts d)) eqn:E; [discriminate|].
  intros [= <- <-]. cbn [Post.id Post.coverImage Post.userId DB.posts DB.with_posts].
  apply find_existsb in E.
  repeat split; auto.
  apply find_app_last; [exact E|]. simpl. apply String.eqb_refl.
Qed.

(** ** The loop over the files *)

Lemma process_files_spec env user post visibility files :
  forall i movedFiles d,
    existsb (fun p => String.eqb (Post.id p) (Post.id post)) (DB.posts d) = true ->
    process_files env user post visibility i files movedFiles d
    = (Returns
         (movedFiles
          ++ moved_urls env (User.id user) (Post.id post) visibility i files)%list,
       DB.with_images
         (DB.images d
          ++ recorded env (User.id user) (Post.id post) visibility i files)%list
         d).
Proof.
  induction files as [|file rest IH]; intros i movedFiles d Hpost.
  - simpl. unfold ret. now rewrite !app_nil_r, with_images_same.
  - cbn [process_files moved_urls recorded].
    unfold bind, process_file, moved_url.
    destruct (Env.moveFileFromTemp env i (FileData.s3Key file) _) as [url|].
    + unfold try_catch, bind, ret, prisma.image_create.
      cbn [Image.postId].
      destruct (Env.throws env (AtImageCreate i)).
      * rewrite IH by exact Hpost. now rewrite <- app_assoc.
      * rewrite Hpost. rewrite IH by exact Hpost.
        cbn [DB.images DB.with_images]. rewrite with_images_twice.
        now rewrite <- !app_assoc.
    + unfold ret. now rewrite IH by exact Hpost.
Qed.

Lemma moved_urls_count env userId postId visibility files :
  forall i,
    List.length (moved_urls env userId postId visibility i files)
    = List.length (filter (move_ok env userId postId visibility) (indexed i files)).
Proof.
  unfold indexed.
  induction files as [|file rest IH]; intros i; [reflexivity|].
  cbn [moved_urls List.length seq combine filter].
  unfold move_ok at 1. cbn [fst snd].
  destruct (moved_url env userId postId visibility i file); simpl; now rewrite IH.
Qed.

Lemma recorded_count env userId postId visibility files :
  forall i,
    List.length (recorded env userId postId visibility i files)
    = List.length (filter (record_ok env userId postId visibility) (indexed i files)).
Proof.
  unfold indexed.
  induction files as [|file rest IH]; intros i; [reflexivity|].
  cbn [recorded List.length seq combine filter].
  unfold record_ok at 1, move_ok. cbn [fst snd].
  destruct (moved_url env userId postId visibility i file); simpl;
    [destruct (Env.throws env (AtImageCreate i)); simpl|]; now rewrite IH.
Qed.

Lemma recorded_per_file env userId postId visibility files :
  forall i,
    recorded env userId postId visibility i files
    = flat_map (rows_of_file env userId postId visibility) (indexed i files).
Proof.
  unfold indexed.
  induction files as [|file rest IH]; intros i; [reflexivity|].
  cbn [recorded List.length seq combine flat_map].
  unfold rows_of_file at 1. cbn [fst snd].
  destruct (moved_url env userId postId visibility i file); simpl;
    [destruct (Env.throws env (AtImageCreate i)); simpl|]; now rewrite IH.
Qed.

Lemma rows_of_file_length env userId postId visibility x :
  List.length (rows_of_file env userId postId visibility x)
  = if record_ok env userId postId visibility x then 1%nat else 0%nat.
Proof.
  unfold rows_of_file, record_ok, move_ok.
  destruct (moved_url env userId postId visibility (fst x) (snd x)); simpl;
    [destruct (Env.throws env (AtImageCreate (fst x)))|]; reflexivity.
Qed.

Lemma indexed_length (i : nat) (files : list FileData.t) :
  List.length (indexed i files) = List.length files.
Proof.
  unfold indexed. rewrite length_combine, length_seq. apply Nat.min_id.
Qed.

(** Files that are recorded and files that are not make up the request. *)
Lemma filter_split_length {A} (f : A -> bool) (l : list A) :
  (List.length (filter f l) + List.length (filter (fun x => negb (f x)) l)
   = List.length l)%nat.
Proof.
  induction l as [|x l IH]; [reflexivity|].
  simpl. destruct (f x); simpl; lia.
Qed.

(** Every recorded row points at the post and carries the URL its move
    yielded and the description of its file. *)
Lemma recorded_rows env userId postId visibility files :
  forall i im,
    In im (recorded env userId postId visibility i files) ->
    Image.postId im = postId
    /\ exists j file,
         In (j, file) (indexed i files)
         /\ moved_url env userId postId visibility j file = Some (Image.url im)
         /\ Env.throws env (AtImageCreate j) = false
         /\ Image.description im = Js.or_null (FileData.description file) None.
Proof.
  unfold indexed.
  induction files as [|file rest IH]; intros i im; [intros []|].
  cbn [recorded List.length seq combine].
  assert (Hrest : In im (recorded env userId postId visibility (S i) rest) ->
                  Image.postId im = postId
                  /\ exists j file0,
                       In (j, file0) ((i, file) :: combine (seq (S i) (List.length rest)) rest)
                       /\ moved_url env userId postId visibility j file0
                          = Some (Image.url im)
                       /\ Env.throws env (AtImageCreate j) = false
                       /\ Image.description im
                          = Js.or_null (FileData.description file0) None).
  { intros H. destruct (IH _ _ H) as (Hp & j & f & Hin & Hrestf).
    split; [exact Hp|]. exists j, f. split; [now right | exact Hrestf]. }
  destruct (moved_url env userId postId visibility i file) as [url|] eqn:Hm;
    [|exact Hrest].
  destruct (Env.throws env (AtImageCreate i)) eqn:Ht; [exact Hrest|].
  intros [<-|H]; [|now apply Hrest].
  split; [reflexivity|]. exists i, file. simpl. auto.
Qed.

(** ** The inner [try] and its [catch] *)

Lemma post_of_existsb d id post :
  post_of d id = Some post ->
  existsb (fun p => String.eqb (Post.id p) id) (DB.posts d) = true.
Proof.
  unfold post_of. intros H.
  destruct (existsb _ (DB.posts d)) eqn:E; [reflexivity|].
  apply find_existsb in E. congruence.
Qed.

Lemma file_processing_try_spec env user post body d1 :
  post_of d1 (Post.id post) = Some post ->
  file_processing_try env user post body d1
  = if Env.throws env AtPostUpdate then (Throws, after_files env user post body d1)
    else
      let d2 := after_files env user post body d1 in
      let d3 :=
        DB.with_posts
          (map (fun q => if String.eqb (Post.id q) (Post.id post)
                         then Post.with_coverImage (resolved_cover env user post body) q
                         else q)
               (DB.posts d2)) d2 in
      (Returns
         (Created "Post created successfully"
            (include d3
               (Post.with_coverImage (resolved_cover env user post body) post))),
       d3).
Proof.
  intros Hpost.
  unfold file_processing_try, bind.
  rewrite process_files_spec by (eapply post_of_existsb; eauto).
  cbn [app]. fold (after_files env user post body d1).
  fold (resolved_cover env user post body).
  unfold prisma.post_update.
  destruct (Env.throws env AtPostUpdate); [reflexivity|].
  unfold post_of in Hpost. unfold after_files at 1. cbn [DB.posts DB.with_images].
  now rewrite Hpost.
Qed.

Lemma find_filter_out {A} (f : A -> bool) (l : list A) :
  find f (filter (fun x => negb (f x)) l) = None.
Proof.
  induction l as [|x l IH]; [reflexivity|].
  simpl. destruct (f x) eqn:E; simpl; [exact IH|]. now rewrite E.
Qed.

Lemma post_of_after_files env user post body d1 id :
  post_of (after_files env user post body d1) id = post_of d1 id.
Proof. reflexivity. Qed.

Lemma post_delete_spec env id d post :
  post_of d id = Some post ->
  Env.throws env AtPostDelete = false ->
  exists d', prisma.post_delete env id d = (Returns tt, d')
             /\ post_of d' id = None
             /\ (forall other, other <> id -> post_of d' other = post_of d other).
Proof.
  intros Hpost Ht. unfold prisma.post_delete. rewrite Ht.
  rewrite (post_of_existsb _ _ _ Hpost).
  eexists. split; [reflexivity|].
  assert (Hposts :
    DB.posts (if Env.cascade env
              then DB.without_rows_of id
                     (DB.with_posts
                        (filter (fun p => negb (String.eqb (Post.id p) id)) (DB.posts d)) d)
              else DB.with_posts
                     (filter (fun p => negb (String.eqb (Post.id p) id)) (DB.posts d)) d)
    = filter (fun p => negb (String.eqb (Post.id p) id)) (DB.posts d)).
  { now destruct (Env.cascade env). }
  unfold post_of. rewrite Hposts. split.
  - apply (find_filter_out (fun p => String.eqb (Post.id p) id)).
  - intros other Hne. clear Hposts Hpost.
    induction (DB.posts d) as [|p l IH]; [reflexivity|].
    simpl. destruct (String.eqb (Post.id p) id) eqn:E; simpl.
    + apply String.eqb_eq in E.
      destruct (String.eqb (Post.id p) other) eqn:E'; [|exact IH].
      apply String.eqb_eq in E'. congruence.
    + destruct (String.eqb (Post.id p) other); [reflexivity | exact IH].
Qed.

(** ** The shape of [POST] *)

(** [POST] always answers. *)
Lemma POST_total env request d : exists r d', POST env request d = (Returns r, d').
Proof.
  unfold POST, try_catch.
  match goal with
  | |- context [match ?m d with _ => _ end] => destruct (m d) as [[r|] d']
  end; unfold ret; eauto.
Qed.

(** Once the post is created the answer is that of the inner [try] and
    [catch]; an exception that leaves them is answered by the outer
    [catch]. *)
Lemma POST_after_create env request d user post body d1 :
  creates env request d user post body d1 ->
  POST env request d
  = match file_processing env user post body d1 with
    | (Returns r, d2) => (Returns r, d2)
    | (Throws, d2) => (Returns (Failure 500 "Internal server error"), d2)
    end.
Proof.
  intros (s & c & r & Hs & He & Hj & Hm & Hu & Hp).
  unfold POST, try_catch, bind, await, ret.
  rewrite Hs, He, Hj. cbn beta iota. rewrite Hm, Hu. cbn beta iota. rewrite Hp.
  reflexivity.
Qed.

Lemma user_findUnique_inv env email d o d' :
  prisma.user_findUnique env email d = (Returns o, d') ->
  d' = d
  /\ Env.throws env AtUserFindUnique = false
  /\ o = find (fun u => String.eqb (User.email u) email) (DB.users d).
Proof.
  unfold prisma.user_findUnique.
  destruct (Env.throws env AtUserFindUnique); [discriminate|].
  intros [= <- <-]. auto.
Qed.

(** A 200 answer of [POST] comes from the inner [try]. *)
Lemma POST_created_inv env request d message view d' :
  POST env request d = (Returns (Created message view), d') ->
  exists user post body d1,
    creates env request d user post body d1
    /\ file_processing_try env user post body d1
       = (Returns (Created message view), d').
Proof.
  unfold POST, try_catch at 1, bind, await, ret, throw.
  destruct (Env.getServerSession env) as [s|] eqn:Hs; [|discriminate].
  destruct (session_email s) as [[|c r]|] eqn:He; try discriminate.
  destruct (Request.json request) as [body|] eqn:Hj; [|discriminate].
  destruct (missing_required body) eqn:Hm; [discriminate|].
  destruct (prisma.user_findUnique env (String c r) d) as [[[user|]|] d0] eqn:Hu;
    try discriminate.
  destruct (user_findUnique_inv _ _ _ _ _ Hu) as (-> & _ & _).
  destruct (prisma.post_create env (post_data_of body user) d) as [[post|] d1] eqn:Hp;
    [|discriminate].
  unfold file_processing, try_catch, bind, ret.
  destruct (file_processing_try env user post body d1) as [[resp|] d2] eqn:Ht.
  - intros [= -> ->]. exists user, post, body, d1. split; [|exact Ht].
    exists s, c, r. repeat split; auto.
  - destruct (prisma.post_delete env (Post.id post) d2) as [[[]|] d3]; discriminate.
Qed.

Lemma creates_post env request d user post body d1 :
  creates env request d user post body d1 ->
  Post.id post = Env.newId env
  /\ Post.coverImage post = Some ""
  /\ Post.userId post = User.id user
  /\ caller env d = Some user
  /\ post_of d (Post.id post) = None
  /\ post_of d1 (Post.id post) = Some post
  /\ DB.images d1 = DB.images d.
Proof.
  intros (s & c & r & Hs & He & Hj & Hm & Hu & Hp).
  destruct (post_create_returns _ _ _ _ _ Hp) as (Hid & Hc & Hown & Hnew & Hd1 & Hin).
  destruct (user_findUnique_inv _ _ _ _ _ Hu) as (_ & _ & Hfind).
  repeat split; auto.
  - unfold caller. now rewrite Hs, He.
  - now rewrite Hd1.
Qed.

Lemma find_map_update (id : string) (g : Post.t -> Post.t) (l : list Post.t) p :
  (forall q, Post.id (g q) = Post.id q) ->
  find (fun q => String.eqb (Post.id q) id) l = Some p ->
  find (fun q => String.eqb (Post.id q) id)
       (map (fun q => if String.eqb (Post.id q) id then g q else q) l)
  = Some (g p).
Proof.
  intros Hg. induction l as [|q l IH]; [discriminate|].
  simpl. destruct (String.eqb (Post.id q) id) eqn:E.
  - intros [= ->]. now rewrite Hg, E.
  - rewrite E. exact IH.
Qed.

(** The answer of a request whose post is created and whose update does
    not throw. *)
Lemma POST_created env request d user post body d1 :
  creates env request d user post body d1 ->
  Env.throws env AtPostUpdate = false ->
  exists view d',
    POST env request d = (Returns (Created "Post created successfully" view), d')
    /\ PostView.post view
       = Post.with_coverImage (resolved_cover env user post body) post
    /\ post_of d' (Post.id post) = Some (PostView.post view)
    /\ DB.images d' = DB.images (after_files env user post body d1)
    /\ PostView.images view
       = filter (fun i => String.eqb (Image.postId i) (Post.id post)) (DB.images d').
Proof.
  intros Hc Hu.
  destruct (creates_post _ _ _ _ _ _ _ Hc) as (_ & _ & _ & _ & _ & Hin & _).
  rewrite (POST_after_create _ _ _ _ _ _ _ Hc).
  unfold file_processing, try_catch.
  rewrite (file_processing_try_spec _ _ _ _ _ Hin), Hu. cbv zeta.
  eexists _, _. split; [reflexivity|].
  cbn [PostView.post PostView.images include DB.images DB.with_posts DB.posts
       Post.id Post.with_coverImage].
  split; [reflexivity|]. split; [|split; reflexivity].
  unfold post_of. cbn [DB.posts DB.with_posts].
  apply (find_map_update (Post.id post)
           (Post.with_coverImage (resolved_cover env user post body))).
  - reflexivity.
  - exact Hin.
Qed.

(** ** Validation *)

(** C7.  A creation request of a signed-in caller whose body lacks a
    title, a description or a category (absent or empty), or whose file
    list is absent or empty, is answered with status 400, and the database
    is left as it was: the test comes before the user lookup and the
    creation of the post, so no post row is created. *)
Theorem missing_fields_rejected env request d body :
  signed_in env = true ->
  Request.json request = Returns body ->
  Js.truthy (Body.title body) = false
  \/ Js.truthy (Body.description body) = false
  \/ Js.truthy (Body.category body) = false
  \/ Body.files body = None
  \/ Body.files body = Some [] ->
  exists resp,
    POST env request d = (Returns resp, d)
    /\ status resp = 400
    /\ resp = Failure 400 "Missing required fields".
Proof.
  intros Hin Hj Hmiss.
  destruct (signed_in_session _ Hin) as (s & c & r & Hs & He).
  assert (Hm : missing_required body = true).
  { unfold missing_required.
    destruct Hmiss as [H|[H|[H|[H|H]]]]; rewrite H; simpl;
      rewrite ?Bool.orb_true_r; reflexivity. }
  exists (Failure 400 "Missing required fields").
  split; [|split; reflexivity].
  unfold POST, try_catch, bind, await, ret.
  now rewrite Hs, He, Hj, Hm.
Qed.

Lemma missing_fields_rejected_witness :
  exists resp,
    POST Sample.as_alice (Sample.request_of (Sample.body_of None [])) Sample.db
    = (Returns resp, Sample.db)
    /\ status resp = 400
    /\ resp = Failure 400 "Missing required fields".
Proof.
  apply (missing_fields_rejected Sample.as_alice
           (Sample.request_of (Sample.body_of None [])) Sample.db
           (Sample.body_of None []) eq_refl eq_refl).
  right. right. right. right. reflexivity.
Defined.

Example empty_title_rejected :
  Sample.status_of
    (POST Sample.as_alice
       (Sample.request_of
          (Body.Build (Some "") (Some "d") (Some "TRAVEL") None None None None
             (Some Sample.three_photos)))
       Sample.db) = 400.
Proof. reflexivity. Qed.

(** ** Compensation *)

(** C3, as the code has it.  When the post has been created and the inner
    [try] throws, the handler asks for the post to be deleted and the
    answer has status 500.  If the delete does not throw, the post is gone
    afterwards; if the delete throws as well, the exception reaches the
    outer [catch] and the post row stays. *)
Theorem block_failure_compensated env request d user post body d1 d2 :
  creates env request d user post body d1 ->
  file_processing_try env user post body d1 = (Throws, d2) ->
  (exists resp d', POST env request d = (Returns resp, d') /\ status resp = 500)
  /\ (Env.throws env AtPostDelete = false ->
      exists d',
        POST env request d
        = (Returns (Failure 500 "Failed to process uploaded files"), d')
        /\ post_of d' (Post.id post) = None)
  /\ (Env.throws env AtPostDelete = true ->
      POST env request d = (Returns (Failure 500 "Internal server error"), d2)
      /\ post_of d2 (Post.id post) = Some post).
Proof.
  intros Hc Ht.
  destruct (creates_post _ _ _ _ _ _ _ Hc) as (_ & _ & _ & _ & _ & Hin & _).
  assert (Hd2 : post_of d2 (Post.id post) = Some post).
  { rewrite (file_processing_try_spec _ _ _ _ _ Hin) in Ht.
    destruct (Env.throws env AtPostUpdate); [|discriminate].
    injection Ht as <-. exact Hin. }
  pose proof (POST_after_create _ _ _ _ _ _ _ Hc) as HP.
  unfold file_processing, try_catch, bind, ret in HP. rewrite Ht in HP.
  assert (Hgone : Env.throws env AtPostDelete = false ->
                  exists d',
                    POST env request d
                    = (Returns (Failure 500 "Failed to process uploaded files"), d')
                    /\ post_of d' (Post.id post) = None).
  { intros Hdel.
    destruct (post_delete_spec env (Post.id post) d2 post Hd2 Hdel)
      as (d' & Hrun & Hnone & _).
    rewrite Hrun in HP. now exists d'. }
  assert (Hstays : Env.throws env AtPostDelete = true ->
                   POST env request d
                   = (Returns (Failure 500 "Internal server error"), d2)
                   /\ post_of d2 (Post.id post) = Some post).
  { intros Hdel. unfold prisma.post_delete in HP. rewrite Hdel in HP. now split. }
  split; [|split; assumption].
  destruct (Env.throws env AtPostDelete).
  - destruct (Hstays eq_refl) as [-> _]. eexists _, _. split; reflexivity.
  - destruct (Hgone eq_refl) as (d' & -> & _). eexists _, _. split; reflexivity.
Qed.

(** In the sample world a request of Alice with the required fields
    creates the post, whichever of the later calls fail. *)
Ltac sample_creates :=
  exists (Some (Session.Build (Some (Session.BuildUser (Some "alice@example.org"))))),
    "a"%char, "lice@example.org";
  repeat split; reflexivity.

(** And it creates no other post, for no other user. *)
Lemma sample_creates_inv cover files user post body d1 :
  creates Sample.as_alice (Sample.request_of (Sample.body_of cover files))
    Sample.db user post body d1 ->
  user = Sample.alice /\ post = Sample.created
  /\ body = Sample.body_of cover files.
Proof.
  intros (s & c & r & Hs & He & Hj & _ & Hu & Hp).
  injection Hs as <-. injection He as <- <-. injection Hj as <-.
  assert (user = Sample.alice) as -> by (symmetry; now injection Hu).
  assert (post = Sample.created) as -> by (symmetry; now injection Hp).
  auto.
Qed.

Lemma block_failure_compensated_witness :
  exists d',
    POST Sample.update_fails
      (Sample.request_of (Sample.body_of None Sample.three_photos)) Sample.db
    = (Returns (Failure 500 "Failed to process uploaded files"), d')
    /\ post_of d' "p8" = None.
Proof.
  assert (Hc : creates Sample.update_fails
                 (Sample.request_of (Sample.body_of None Sample.three_photos))
                 Sample.db Sample.alice Sample.created
                 (Sample.body_of None Sample.three_photos) Sample.db_created)
    by sample_creates.
  destruct (block_failure_compensated _ _ _ _ _ _ _ _ Hc eq_refl) as (_ & Hgone & _).
  exact (Hgone eq_refl).
Defined.

(** The update fails and the delete fails too: the answer is 500 and the
    post that was created is still in the table. *)
Lemma post_survives_failed_delete :
  ~ block_failure_removes_post Sample.update_and_delete_fail
      (Sample.request_of (Sample.body_of None Sample.three_photos)) Sample.db.
Proof.
  intros H.
  assert (Hc : creates Sample.update_and_delete_fail
                 (Sample.request_of (Sample.body_of None Sample.three_photos))
                 Sample.db Sample.alice Sample.created
                 (Sample.body_of None Sample.three_photos) Sample.db_created)
    by sample_creates.
  destruct (H _ _ _ _ _ Hc eq_refl) as (resp & d' & HP & _ & Hnone).
  vm_compute in HP. injection HP as <- <-. vm_compute in Hnone. discriminate Hnone.
Qed.

Example update_and_delete_fail_answer :
  let r := POST Sample.update_and_delete_fail
             (Sample.request_of (Sample.body_of None Sample.three_photos)) Sample.db in
  Sample.status_of r = 500 /\ In "p8" (Sample.post_ids r).
Proof. vm_compute. intuition. Qed.

(** ** Image rows *)

Lemma filter_ext_in_bool {A} (f g : A -> bool) (l : list A) :
  (forall x, In x l -> f x = g x) -> filter f l = filter g l.
Proof.
  induction l as [|x l IH]; intros H; [reflexivity|].
  simpl. rewrite (H x (or_introl eq_refl)), IH; [reflexivity|].
  intros y Hy. apply H. now right.
Qed.

(** C4, as the code has it.  When the post is created and the final update
    does not throw, the answer is 200 whatever happens to the single
    files, and the image table grows by exactly one row for each file
    whose move and whose image creation both did not throw, and by none
    for any other file: the row carries the URL the move yielded and
    points at the post.  The files
    that failed and the rows that were made add up to the files of the
    request, so one failing file leaves one row less than files.  When no
    image creation throws, the rows are as many as the files whose move
    did not throw. *)
Theorem images_follow_recorded_files env request d user post body d1 :
  creates env request d user post body d1 ->
  Env.throws env AtPostUpdate = false ->
  let ok := record_ok env (User.id user) (Post.id post) (Body.visibility body) in
  let files := indexed 0 (files_of body) in
  let rows :=
    recorded env (User.id user) (Post.id post) (Body.visibility body) 0
      (files_of body) in
  exists view d',
    POST env request d = (Returns (Created "Post created successfully" view), d')
    /\ DB.images d' = (DB.images d ++ rows)%list
    /\ rows
       = flat_map
           (rows_of_file env (User.id user) (Post.id post) (Body.visibility body))
           files
    /\ (forall x,
          List.length
            (rows_of_file env (User.id user) (Post.id post) (Body.visibility body) x)
          = if ok x then 1%nat else 0%nat)
    /\ List.length rows = List.length (filter ok files)
    /\ (forall im, In im rows ->
          Image.postId im = Post.id post
          /\ exists j file,
               In (j, file) files
               /\ moved_url env (User.id user) (Post.id post) (Body.visibility body)
                    j file = Some (Image.url im)
               /\ Env.throws env (AtImageCreate j) = false
               /\ Image.description im = Js.or_null (FileData.description file) None)
    /\ (List.length rows + List.length (filter (fun x => negb (ok x)) files)
        = List.length (files_of body))%nat
    /\ (List.length (filter (fun x => negb (ok x)) files) = 1%nat ->
        (List.length rows + 1 = List.length (files_of body))%nat)
    /\ ((forall i, Env.throws env (AtImageCreate i) = false) ->
        List.length rows
        = List.length
            (filter (move_ok env (User.id user) (Post.id post) (Body.visibility body))
               files)).
Proof.
  intros Hc Hu ok files rows.
  destruct (POST_created _ _ _ _ _ _ _ Hc Hu) as (view & d' & HP & _ & _ & Him & _).
  destruct (creates_post _ _ _ _ _ _ _ Hc) as (_ & _ & _ & _ & _ & _ & Hd1).
  assert (Hcount : List.length rows = List.length (filter ok files))
    by apply recorded_count.
  assert (Hsum : (List.length rows + List.length (filter (fun x => negb (ok x)) files)
                  = List.length (files_of body))%nat).
  { rewrite Hcount, filter_split_length. apply indexed_length. }
  exists view, d'. split; [exact HP|].
  split. { rewrite Him. unfold after_files. cbn [DB.images DB.with_images].
           now rewrite Hd1. }
  split; [apply recorded_per_file|].
  split; [intros x; apply rows_of_file_length|].
  split; [exact Hcount|].
  split. { intros im Him'. now apply recorded_rows in Him'. }
  split; [exact Hsum|].
  split. { intros H1. now rewrite H1 in Hsum. }
  intros Hnone. rewrite Hcount. f_equal. apply filter_ext_in_bool.
  intros x _. unfold ok, record_ok. rewrite Hnone. apply Bool.andb_true_r.
Qed.

Lemma images_follow_recorded_files_witness :
  exists view d',
    POST Sample.second_move_fails
      (Sample.request_of (Sample.body_of None Sample.three_photos)) Sample.db
    = (Returns (Created "Post created successfully" view), d')
    /\ List.length (DB.images d') = 2%nat
    /\ List.length (PostView.images view) = 2%nat.
Proof.
  assert (Hc : creates Sample.second_move_fails
                 (Sample.request_of (Sample.body_of None Sample.three_photos))
                 Sample.db Sample.alice Sample.created
                 (Sample.body_of None Sample.three_photos) Sample.db_created)
    by sample_creates.
  destruct (images_follow_recorded_files _ _ _ _ _ _ _ Hc eq_refl)
    as (view & d' & HP & Him & _).
  exists view, d'. split; [exact HP|].
  split; [now rewrite Him|].
  vm_compute in HP. injection HP as <- _. reflexivity.
Defined.

(** All three moves succeed but the image of the first file cannot be
    created: the answer is 200 with two new rows for three moved files. *)
Lemma image_rows_fewer_than_moves :
  ~ images_count_moves Sample.first_image_fails
      (Sample.request_of (Sample.body_of None Sample.three_photos)) Sample.db.
Proof.
  intros H.
  assert (Hc : creates Sample.first_image_fails
                 (Sample.request_of (Sample.body_of None Sample.three_photos))
                 Sample.db Sample.alice Sample.created
                 (Sample.body_of None Sample.three_photos) Sample.db_created)
    by sample_creates.
  destruct (POST_created _ _ _ _ _ _ _ Hc eq_refl) as (view & d' & HP & _ & _ & Him & _).
  specialize (H _ _ _ _ _ _ _ HP Hc).
  rewrite Him in H. vm_compute in H. discriminate H.
Qed.

Example first_image_fails_answer :
  let r := POST Sample.first_image_fails
             (Sample.request_of (Sample.body_of None Sample.three_photos)) Sample.db in
  Sample.status_of r = 200
  /\ Sample.image_urls r
     = ["https://memora.s3.eu-west-1.amazonaws.com/posts/u1/p8/b.png";
        "https://memora.s3.eu-west-1.amazonaws.com/posts/u1/p8/c.png"]
  /\ Sample.cover r
     = Some "https://memora.s3.eu-west-1.amazonaws.com/posts/u1/p8/a.png".
Proof. vm_compute. auto. Qed.

(** ** The file a hint names *)

Lemma includes_app_r (a b sub : string) :
  Js.includes b sub = true -> Js.includes (a ++ b) sub = true.
Proof.
  intros H. induction a as [|c a IH]; [exact H|].
  cbn [append Js.includes]. destruct (prefix sub (String c (a ++ b))); auto.
Qed.

Lemma append_assoc_string (a b c : string) : ((a ++ b) ++ c = a ++ (b ++ c))%string.
Proof. induction a as [|x a IH]; simpl; [reflexivity | now rewrite IH]. Qed.

Lemma append_empty_r (a : string) : (a ++ "" = a)%string.
Proof. induction a as [|x a IH]; simpl; [reflexivity | now rewrite IH]. Qed.

Lemma prefix_spec (sub s : string) :
  prefix sub s = true <-> exists b, s = (sub ++ b)%string.
Proof.
  revert s. induction sub as [|x sub IH]; intros s.
  - destruct s; simpl; split; eauto.
  - destruct s as [|y s]; simpl.
    + split; [discriminate | intros [b H]; discriminate].
    + destruct (Ascii.ascii_dec x y) as [->|Hne].
      * rewrite IH. split; intros [b H]; exists b; congruence.
      * split; [discriminate | intros [b H]; congruence].
Qed.

Lemma FileData_eq_dec (a b : FileData.t) : {a = b} + {a <> b}.
Proof.
  decide equality; try apply string_dec.
  decide equality. apply string_dec.
Qed.

(** [includes] is the occurrence of one string inside another. *)
Lemma includes_spec (s sub : string) :
  Js.includes s sub = true <-> exists a b, s = (a ++ sub ++ b)%string.
Proof.
  split.
  - induction s as [|x s IH]; cbn [Js.includes].
    + destruct (prefix sub "") eqn:E; [|intros H; discriminate H].
      intros _. apply prefix_spec in E as [b E]. now exists "", b.
    + destruct (prefix sub (String x s)) eqn:E.
      * intros _. apply prefix_spec in E as [b E]. now exists "", b.
      * intros H. destruct (IH H) as (a & b & ->). now exists (String x a), b.
  - intros (a & b & ->). apply includes_app_r.
    assert (Hp : prefix sub (sub ++ b) = true) by (apply prefix_spec; eauto).
    destruct (sub ++ b)%string; cbn [Js.includes]; now rewrite Hp.
Qed.

Lemma includes_trans (s mid sub : string) :
  Js.includes s mid = true -> Js.includes mid sub = true ->
  Js.includes s sub = true.
Proof.
  rewrite !includes_spec. intros (a & b & ->) (a' & b' & ->).
  exists (a ++ a')%string, (b' ++ b)%string.
  now rewrite !append_assoc_string.
Qed.

Lemma split_from_slash_free (cur s : string) :
  slash_free s = true -> Js.split_from "/" cur s = [(cur ++ s)%string].
Proof.
  revert cur. induction s as [|c s IH]; intros cur; simpl.
  - intros _. now rewrite append_empty_r.
  - destruct (Ascii.eqb c "/"); [discriminate|]. simpl. intros H.
    rewrite IH by exact H. now rewrite append_assoc_string.
Qed.

Lemma pop_cons (x y : string) (l : list string) :
  Js.pop l = Some x -> Js.pop (y :: l) = Some x.
Proof.
  unfold Js.pop. simpl. destruct (rev l) as [|z t]; [discriminate|].
  now intros [= ->].
Qed.

Lemma pop_split_dir (dir name cur : string) :
  slash_free name = true ->
  Js.pop (Js.split_from "/" cur (dir ++ String "/" name)) = Some name.
Proof.
  intros Hn. revert cur. induction dir as [|c dir IH]; intros cur; simpl.
  - now rewrite split_from_slash_free.
  - destruct (Ascii.eqb c "/"); [apply pop_cons|]; apply IH.
Qed.

(** The part of a key that is compared with the hint is what follows its
    last slash: the whole key when it has none, nothing when the key ends
    with one. *)
Lemma key_segment_spec (f : FileData.t) (name : string) :
  slash_free name = true ->
  (FileData.s3Key f = name
   \/ exists dir, FileData.s3Key f = (dir ++ String "/" name)%string) ->
  key_segment f = name.
Proof.
  intros Hn Hkey. unfold key_segment, Js.split.
  destruct Hkey as [->|[dir ->]].
  - rewrite split_from_slash_free by exact Hn. simpl. now destruct name.
  - rewrite pop_split_dir by exact Hn. now destruct name.
Qed.

(** Every key holds one name. *)
Lemma is_name_of_exists (key : string) : exists name, is_name_of name key.
Proof.
  unfold is_name_of. induction key as [|c key (name & Hfree & Hkey)].
  - exists "". split; [reflexivity | now left].
  - destruct Hkey as [->|[dir ->]].
    + destruct (Ascii.eqb c "/") eqn:E.
      * apply Ascii.eqb_eq in E. subst c. exists name.
        split; [exact Hfree|]. right. now exists "".
      * exists (String c name). split; [|now left].
        simpl. now rewrite E.
    + exists name. split; [exact Hfree|]. right. now exists (String c dir).
Qed.

Lemma is_name_of_segment (f : FileData.t) (name : string) :
  is_name_of name (FileData.s3Key f) <-> name = key_segment f.
Proof.
  split.
  - intros [Hfree Hkey]. symmetry. now apply key_segment_spec.
  - intros ->. destruct (is_name_of_exists (FileData.s3Key f)) as (name & Hn).
    destruct Hn as [Hfree Hkey].
    rewrite (key_segment_spec f name Hfree Hkey). now split.
Qed.

(** The test of line 110 is that the hint names the file. *)
Lemma hint_names_spec (hint : string) (f : FileData.t) :
  hint_names hint f <-> Js.includes hint (key_segment f) = true.
Proof.
  unfold hint_names, occurs_in. rewrite includes_spec. split.
  - intros (name & Hn & Ho). apply is_name_of_segment in Hn. now subst name.
  - intros Ho. exists (key_segment f). split; [|exact Ho].
    now apply is_name_of_segment.
Qed.

(** The search of lines 109-111 finds the first file the hint names, and
    none when the hint names no file. *)
Lemma coverFile_of_spec (hint : string) (files : list FileData.t) :
  (exists file, coverFile_of hint files = Some file /\ first_named hint files file)
  \/ (coverFile_of hint files = None /\ forall g, In g files -> ~ hint_names hint g).
Proof.
  unfold coverFile_of. fold key_segment.
  change (find (fun f => Js.includes hint
                           (Js.or_else (Js.pop (Js.split "/" (FileData.s3Key f))) ""))
               files)
    with (find (fun f => Js.includes hint (key_segment f)) files).
  induction files as [|g rest IH]; simpl.
  - right. split; [reflexivity | intros g []].
  - destruct (Js.includes hint (key_segment g)) eqn:E.
    + left. exists g. split; [reflexivity|].
      exists [], rest. split; [reflexivity|].
      split; [now apply hint_names_spec | intros x []].
    + assert (Hg : ~ hint_names hint g).
      { intros H. apply hint_names_spec in H. congruence. }
      destruct IH as [(file & Hf & before & after & -> & Hn & Hb)|[Hf Hnone]].
      * left. exists file. split; [exact Hf|].
        exists (g :: before), after. split; [reflexivity|].
        split; [exact Hn|]. intros x [<-|Hx]; auto.
      * right. split; [exact Hf|]. intros x [<-|Hx]; auto.
Qed.

Lemma first_named_unique hint files a b :
  first_named hint files a -> first_named hint files b -> a = b.
Proof.
  intros (ba & aa & Ha & Hna & Hba) (bb & ab & Hb & Hnb & Hbb).
  subst files. revert bb Hb Hbb.
  induction ba as [|x ba IH]; intros [|y bb] Hb Hbb; simpl in Hb.
  - now injection Hb.
  - injection Hb as -> _. exfalso. apply (Hbb y); [now left | exact Hna].
  - injection Hb as -> _. exfalso. apply (Hba b); [now left | exact Hnb].
  - injection Hb as -> Hb. apply (IH (fun g Hg => Hba g (or_intror Hg)) bb Hb).
    intros g Hg. apply Hbb. now right.
Qed.

Lemma coverFile_of_first_named hint files file :
  first_named hint files file -> coverFile_of hint files = Some file.
Proof.
  intros Hfirst.
  destruct (coverFile_of_spec hint files) as [(file' & Hf & Hfirst')|[_ Hnone]].
  - now rewrite (first_named_unique _ _ _ _ Hfirst Hfirst').
  - destruct Hfirst as (before & after & -> & Hn & _).
    exfalso. apply (Hnone file); [|exact Hn].
    apply in_or_app. right. now left.
Qed.

Lemma coverFile_of_unnamed hint files :
  (forall g, In g files -> ~ hint_names hint g) -> coverFile_of hint files = None.
Proof.
  intros Hnone.
  destruct (coverFile_of_spec hint files)
    as [(file & _ & before & after & -> & Hn & _)|[Hf _]]; [|exact Hf].
  exfalso. apply (Hnone file); [|exact Hn].
  apply in_or_app. right. now left.
Qed.

(** ** The cover image *)

Lemma final_url_truthy env key : Js.truthy (Some (final_url env key)) = true.
Proof. reflexivity. Qed.

Lemma cover_of_final env key movedFiles :
  cover_of (final_url env key) movedFiles = Some (final_url env key).
Proof. reflexivity. Qed.

Lemma cover_of_empty movedFiles :
  cover_of "" movedFiles = given (hd_error movedFiles).
Proof. unfold cover_of, Js.or_null. now destruct movedFiles as [|[|c r] l]. Qed.

Lemma cover_of_not_placeholder finalCoverImage movedFiles :
  cover_of finalCoverImage movedFiles <> Some "".
Proof.
  unfold cover_of, Js.or_null.
  destruct finalCoverImage as [|c r]; simpl; [|discriminate].
  destruct movedFiles as [|[|c r] l]; simpl; discriminate.
Qed.

Lemma coverFile_of_some hint files file :
  coverFile_of hint files = Some file ->
  In file files
  /\ Js.includes hint (Js.or_else (Js.pop (Js.split "/" (FileData.s3Key file))) "")
     = true.
Proof. unfold coverFile_of. intros H. now apply find_some in H. Qed.

(** The two ways the handler computes [finalCoverImage]. *)
Lemma finalCoverImage_cases env user post visibility coverImage files :
  (exists hint file,
      given coverImage = Some hint
      /\ coverFile_of hint files = Some file
      /\ finalCoverImage_of env user post visibility coverImage files
         = final_url env
             (finalKey_of env (User.id user) (Post.id post) visibility file))
  \/ ((given coverImage = None
       \/ exists hint, given coverImage = Some hint /\ coverFile_of hint files = None)
      /\ finalCoverImage_of env user post visibility coverImage files = "").
Proof.
  unfold finalCoverImage_of.
  destruct coverImage as [[|c r]|]; simpl; auto.
  destruct (coverFile_of (String c r) files) as [file|] eqn:E.
  - left. exists (String c r), file. auto.
  - right. split; [|reflexivity]. right. exists (String c r). auto.
Qed.

(** The answer of a successful request carries the resolved cover, and so
    does the row of the post. *)
Lemma POST_created_cover env request d message view d' :
  POST env request d = (Returns (Created message view), d') ->
  exists user post body d1,
    creates env request d user post body d1
    /\ Post.coverImage (PostView.post view) = resolved_cover env user post body
    /\ post_of d' (Post.id post) = Some (PostView.post view).
Proof.
  intros HP.
  destruct (POST_created_inv _ _ _ _ _ _ HP) as (user & post & body & d1 & Hc & Ht).
  exists user, post, body, d1. split; [exact Hc|].
  destruct (creates_post _ _ _ _ _ _ _ Hc) as (_ & _ & _ & _ & _ & Hin & _).
  assert (Hu : Env.throws env AtPostUpdate = false).
  { rewrite (file_processing_try_spec _ _ _ _ _ Hin) in Ht.
    destruct (Env.throws env AtPostUpdate); [discriminate | reflexivity]. }
  destruct (POST_created _ _ _ _ _ _ _ Hc Hu) as (view' & d'' & HP' & Hv & Hrow & _).
  rewrite HP in HP'. injection HP' as _ <- <-.
  split; [now rewrite Hv | exact Hrow].
Qed.

(** The cover of a successful request, by what the hint names. *)
Lemma resolved_cover_cases env user post body :
  let visibility := Body.visibility body in
  let files := files_of body in
  let movedFiles :=
    moved_urls env (User.id user) (Post.id post) visibility 0 files in
  (exists hint file,
      given (Body.coverImage body) = Some hint
      /\ first_named hint files file
      /\ resolved_cover env user post body
         = Some (final_url env
                   (finalKey_of env (User.id user) (Post.id post) visibility file)))
  \/ ((given (Body.coverImage body) = None
       \/ exists hint,
            given (Body.coverImage body) = Some hint
            /\ forall g, In g files -> ~ hint_names hint g)
      /\ resolved_cover env user post body = given (hd_error movedFiles)).
Proof.
  cbv zeta. unfold resolved_cover, finalCoverImage_of.
  destruct (Body.coverImage body) as [[|c r]|]; cbn [given].
  - right. split; [now left | apply cover_of_empty].
  - destruct (coverFile_of_spec (String c r) (files_of body))
      as [(file & -> & Hfirst)|[-> Hnone]].
    + left. exists (String c r), file. split; [reflexivity|].
      split; [exact Hfirst | apply cover_of_final].
    + right. split; [|apply cover_of_empty].
      right. exists (String c r). now split.
  - right. split; [now left | apply cover_of_empty].
Qed.

(** C5, as worded, fails: the handler does not ask that the hint ends
    with the name of the file.  It takes the first file whose name
    occurs anywhere in the hint.  Alice sends the files [ab] and
    [abc.png] and hints [abc.png]: the hint ends with the name of the
    second file, and the cover is the URL of the first. *)
Lemma hint_taken_by_shorter_name :
  ~ cover_follows_suffix_match Sample.as_alice
      (Sample.request_of (Sample.body_of (Some "abc.png") Sample.two_alike))
      Sample.db.
Proof.
  intros H.
  assert (Hc : creates Sample.as_alice
                 (Sample.request_of (Sample.body_of (Some "abc.png") Sample.two_alike))
                 Sample.db Sample.alice Sample.created
                 (Sample.body_of (Some "abc.png") Sample.two_alike) Sample.db_created)
    by sample_creates.
  specialize (H _ _ _ _ _ _ _ "abc.png" (Sample.photo "abc.png") "abc.png"
                eq_refl Hc eq_refl).
  assert (Hcover : Some "https://memora.s3.eu-west-1.amazonaws.com/posts/u1/p8/ab"
                   = Some "https://memora.s3.eu-west-1.amazonaws.com/posts/u1/p8/abc.png").
  { apply H.
    - simpl. tauto.
    - split; [reflexivity|]. right. now exists "temp/u1".
    - now exists "". }
  discriminate Hcover.
Qed.

(** C5, amended.  In a successful creation request the cover of the post
    is resolved as follows.  A hint names a file when the name the
    temporary key of the file holds (what follows its last slash) occurs
    in the hint.  When a hint that is not empty is sent and names a file
    of the request, the cover is the URL recomputed for the first file of
    the request it names: bucket, region and the final key of that file.
    Otherwise, without a hint or with one that names no file, the cover
    is the URL of the first file whose move did not throw, and null when
    no file was moved (a moved URL that is the empty string counts as
    none).  One of the two is always the case. *)
Theorem cover_resolution env request d message view d' :
  POST env request d = (Returns (Created message view), d') ->
  exists user post body d1,
    creates env request d user post body d1
    /\ let cover := Post.coverImage (PostView.post view) in
       let visibility := Body.visibility body in
       let files := files_of body in
       let movedFiles :=
         moved_urls env (User.id user) (Post.id post) visibility 0 files in
       post_of d' (Post.id post) = Some (PostView.post view)
       /\ (forall hint file,
             given (Body.coverImage body) = Some hint ->
             first_named hint files file ->
             cover
             = Some (final_url env
                       (finalKey_of env (User.id user) (Post.id post) visibility
                          file)))
       /\ (given (Body.coverImage body) = None
           \/ (exists hint,
                  given (Body.coverImage body) = Some hint
                  /\ forall g, In g files -> ~ hint_names hint g) ->
           cover = given (hd_error movedFiles)
           /\ (movedFiles = [] -> cover = None)
           /\ (forall url rest,
                 movedFiles = url :: rest -> url <> "" -> cover = Some url))
       /\ ((exists hint file,
               given (Body.coverImage body) = Some hint
               /\ first_named hint files file)
           \/ given (Body.coverImage body) = None
           \/ (exists hint,
                  given (Body.coverImage body) = Some hint
                  /\ forall g, In g files -> ~ hint_names hint g)).
Proof.
  intros HP.
  destruct (POST_created_cover _ _ _ _ _ _ HP)
    as (user & post & body & d1 & Hc & Hcover & Hrow).
  exists user, post, body, d1. split; [exact Hc|]. cbv zeta.
  split; [exact Hrow|]. rewrite Hcover.
  assert (Hfall : forall o : option string,
             o = given (hd_error
                          (moved_urls env (User.id user) (Post.id post)
                             (Body.visibility body) 0 (files_of body))) ->
             o = given (hd_error
                          (moved_urls env (User.id user) (Post.id post)
                             (Body.visibility body) 0 (files_of body)))
             /\ (moved_urls env (User.id user) (Post.id post)
                   (Body.visibility body) 0 (files_of body) = [] -> o = None)
             /\ (forall url rest,
                   moved_urls env (User.id user) (Post.id post)
                     (Body.visibility body) 0 (files_of body) = url :: rest ->
                   url <> "" -> o = Some url)).
  { intros o ->. split; [reflexivity|]. split.
    - now intros ->.
    - intros url rest -> Hurl. destruct url; [contradiction | reflexivity]. }
  destruct (resolved_cover_cases env user post body)
    as [(hint & file & Hg & Hfirst & ->)|[Hno ->]].
  - split; [|split].
    + intros hint' file' Hg' Hfirst'. rewrite Hg in Hg'. injection Hg' as <-.
      now rewrite (first_named_unique _ _ _ _ Hfirst' Hfirst).
    + intros [Hnone|(hint' & Hg' & Hnone)]; [congruence|].
      rewrite Hg in Hg'. injection Hg' as <-.
      destruct Hfirst as (before & after & Hfiles & Hn & _).
      exfalso. apply (Hnone file); [|exact Hn].
      rewrite Hfiles. apply in_or_app. right. now left.
    + left. now exists hint, file.
  - split; [|split].
    + intros hint file Hg (before & after & Hfiles & Hn & _).
      exfalso. destruct Hno as [Hnone|(hint' & Hg' & Hnone)]; [congruence|].
      rewrite Hg in Hg'. injection Hg' as <-.
      apply (Hnone file); [|exact Hn].
      rewrite Hfiles. apply in_or_app. right. now left.
    + intros _. now apply Hfall.
    + right. exact Hno.
Qed.

Lemma cover_resolution_witness :
  Sample.cover
    (POST Sample.as_alice
       (Sample.request_of
          (Sample.body_of (Some "https://x/temp/u1/b.png") Sample.three_photos))
       Sample.db)
  = Some (final_url Sample.as_alice
            (finalKey_of Sample.as_alice "u1" "p8" (Some "PUBLIC")
               (Sample.photo "b.png")))
  /\ first_named "https://x/temp/u1/b.png" Sample.three_photos (Sample.photo "b.png").
Proof.
  assert (Hfirst : first_named "https://x/temp/u1/b.png" Sample.three_photos
                     (Sample.photo "b.png")).
  { exists [Sample.photo "a.png"], [Sample.photo "c.png"].
    split; [reflexivity|]. split.
    - exists "b.png". split.
      + split; [reflexivity|]. right. now exists "temp/u1".
      + now exists "https://x/temp/u1/", "".
    - intros g [<-|[]] Hn. apply hint_names_spec in Hn. discriminate Hn. }
  split; [|exact Hfirst].
  destruct (cover_resolution Sample.as_alice
              (Sample.request_of
                 (Sample.body_of (Some "https://x/temp/u1/b.png") Sample.three_photos))
              Sample.db _ _ _ eq_refl)
    as (user & post & body & d1 & Hc & _ & Hhint & _).
  destruct (sample_creates_inv _ _ _ _ _ _ Hc) as (-> & -> & ->).
  exact (Hhint _ _ eq_refl Hfirst).
Defined.

(** The same request on the sample world: the first of the two files is
    the cover. *)
Example shorter_name_is_the_cover :
  Sample.cover
    (POST Sample.as_alice
       (Sample.request_of (Sample.body_of (Some "abc.png") Sample.two_alike))
       Sample.db)
  = Some "https://memora.s3.eu-west-1.amazonaws.com/posts/u1/p8/ab".
Proof. reflexivity. Qed.

Example cover_falls_back_to_first_moved :
  Sample.cover
    (POST (Sample.env_with (Sample.session_of "alice@example.org") (fun _ => false)
             (Nat.eqb 0))
       (Sample.request_of (Sample.body_of None Sample.three_photos)) Sample.db)
  = Some "https://memora.s3.eu-west-1.amazonaws.com/posts/u1/p8/b.png".
Proof. reflexivity. Qed.

Example cover_null_when_nothing_moved :
  let r := POST (Sample.env_with (Sample.session_of "alice@example.org")
                   (fun _ => false) (fun _ => true))
             (Sample.request_of (Sample.body_of None Sample.three_photos)) Sample.db in
  Sample.status_of r = 200 /\ Sample.cover r = None /\ Sample.image_urls r = [].
Proof. vm_compute. auto. Qed.

(** The hinted file need not have been moved: its recomputed URL is the
    cover all the same. *)
Example cover_of_a_file_that_failed :
  Sample.cover
    (POST Sample.second_move_fails
       (Sample.request_of (Sample.body_of (Some "b.png") Sample.three_photos))
       Sample.db)
  = Some "https://memora.s3.eu-west-1.amazonaws.com/posts/u1/p8/b.png".
Proof. reflexivity. Qed.

(** ** What a finalized cover can be *)

(** C8, as the code has it.  The cover of a post finalized by a successful
    request is null, or the URL recomputed for the first file of the
    request that the hint, sent and not empty, names (the name the
    temporary key of the file holds occurs in the hint), or the URL that
    the move of the first moved file yielded.  It is never the empty
    placeholder the post was created with, and the row of the post
    carries the same cover as the answer. *)
Theorem cover_is_final_or_null env request d message view d' :
  POST env request d = (Returns (Created message view), d') ->
  exists user post body d1,
    creates env request d user post body d1
    /\ let cover := Post.coverImage (PostView.post view) in
       let visibility := Body.visibility body in
       let files := files_of body in
       (cover = None
        \/ (exists hint file,
               given (Body.coverImage body) = Some hint
               /\ In file files
               /\ first_named hint files file
               /\ cover
                  = Some (final_url env
                            (finalKey_of env (User.id user) (Post.id post) visibility
                               file)))
        \/ (exists i file url,
               In (i, file) (indexed 0 files)
               /\ moved_url env (User.id user) (Post.id post) visibility i file
                  = Some url
               /\ hd_error (moved_urls env (User.id user) (Post.id post) visibility
                              0 files) = Some url
               /\ cover = Some url))
       /\ cover <> Some ""
       /\ Post.coverImage post = Some ""
       /\ post_of d' (Post.id post) = Some (PostView.post view).
Proof.
  intros HP.
  destruct (POST_created_cover _ _ _ _ _ _ HP)
    as (user & post & body & d1 & Hc & Hcover & Hrow).
  exists user, post, body, d1. split; [exact Hc|]. cbv zeta.
  destruct (creates_post _ _ _ _ _ _ _ Hc) as (_ & Hplace & _).
  split; [|split; [|split; [exact Hplace | exact Hrow]]].
  2:{ rewrite Hcover. apply cover_of_not_placeholder. }
  rewrite Hcover.
  destruct (resolved_cover_cases env user post body)
    as [(hint & file & Hg & Hfirst & ->)|[_ ->]].
  - right. left. exists hint, file. split; [exact Hg|].
    split; [|split; [exact Hfirst | reflexivity]].
    destruct Hfirst as (before & after & -> & _).
    apply in_or_app. right. now left.
  - destruct (moved_urls env (User.id user) (Post.id post) (Body.visibility body) 0
                (files_of body)) as [|url rest] eqn:Hm; [now left|].
    destruct url as [|c r]; [now left|].
    right. right.
    assert (Hfirst : forall files i,
               moved_urls env (User.id user) (Post.id post) (Body.visibility body)
                 i files = String c r :: rest ->
               exists j file,
                 In (j, file) (indexed i files)
                 /\ moved_url env (User.id user) (Post.id post) (Body.visibility body)
                      j file = Some (String c r)).
    { clear. unfold indexed.
      induction files as [|file files IH]; intros i; [discriminate|].
      cbn [moved_urls List.length seq combine].
      destruct (moved_url env (User.id user) (Post.id post) (Body.visibility body)
                  i file) as [url|] eqn:E.
      - intros [= -> _]. exists i, file. split; [now left | exact E].
      - intros H. destruct (IH _ H) as (j & f & Hin & Hj).
        exists j, f. split; [now right | exact Hj]. }
    destruct (Hfirst _ _ Hm) as (j & file & Hin & Hj).
    exists j, file, (String c r). auto.
Qed.

Lemma cover_is_final_or_null_witness :
  exists user post body d1,
    creates Sample.as_alice
      (Sample.request_of (Sample.body_of None Sample.three_photos)) Sample.db
      user post body d1
    /\ Sample.cover
         (POST Sample.as_alice
            (Sample.request_of (Sample.body_of None Sample.three_photos)) Sample.db)
       <> Some "".
Proof.
  destruct (cover_is_final_or_null Sample.as_alice
              (Sample.request_of (Sample.body_of None Sample.three_photos))
              Sample.db _ _ _ eq_refl)
    as (user & post & body & d1 & Hc & _ & Hne & _).
  exists user, post, body, d1. split; [exact Hc | exact Hne].
Defined.

(** A request with one file whose temporary key is [com], hinted as the
    cover: whatever the bucket, the region and the key helper are, the
    recomputed URL has the key inside, in the host name of the store. *)
Lemma recomputed_url_holds_key env key :
  Js.includes (final_url env key) "com" = true.
Proof.
  unfold final_url. do 4 apply includes_app_r. reflexivity.
Qed.

(** So it is for every environment in which that request goes through. *)
Lemma every_helper_lets_key_in env request d user post d1 :
  let file := FileData.Build "com" None "x" "image/png" in
  creates env request d user post (Sample.body_of (Some "com") [file]) d1 ->
  Env.throws env AtPostUpdate = false ->
  exists view d' url,
    POST env request d = (Returns (Created "Post created successfully" view), d')
    /\ Post.coverImage (PostView.post view) = Some url
    /\ Js.includes url (FileData.s3Key file) = true.
Proof.
  intros file Hc Hu.
  destruct (POST_created _ _ _ _ _ _ _ Hc Hu) as (view & d' & HP & Hv & _).
  exists view, d', (final_url env (finalKey_of env (User.id user) (Post.id post)
                                     (Some "PUBLIC") file)).
  split; [exact HP|]. split; [now rewrite Hv|].
  apply recomputed_url_holds_key.
Qed.

(** In the sample world: the request is answered with 200 and the cover
    holds the temporary key of its file. *)
Lemma temp_key_inside_cover :
  ~ cover_free_of_temp_keys Sample.as_alice
      (Sample.request_of
         (Sample.body_of (Some "com") [FileData.Build "com" None "x" "image/png"]))
      Sample.db.
Proof.
  intros H.
  specialize (H _ _ _ _ eq_refl eq_refl
                "https://memora.s3.eu-west-1.amazonaws.com/posts/u1/p8/x"
                (FileData.Build "com" None "x" "image/png") eq_refl
                (or_introl eq_refl)).
  vm_compute in H. discriminate H.
Qed.

(** With the key helper of the sample world, which keeps the file name, an
    upload kept under its own name gives the same. *)
Example temp_key_equal_to_file_name :
  let file := FileData.Build "a.png" None "a.png" "image/png" in
  match Sample.cover
          (POST Sample.as_alice (Sample.request_of (Sample.body_of None [file]))
             Sample.db) with
  | Some url => Js.includes url (FileData.s3Key file) = true
  | None => False
  end.
Proof. reflexivity. Qed.

(* ================================================================== *)
(** * Further properties of the listing *)

(** ** What the session can do to the filter *)

Lemma authorize_returns env q w0 d w d' :
  authorize env q w0 d = (Returns w, d') ->
  (signed_in env = false /\ w = Where.with_visibility "PUBLIC" w0)
  \/ (signed_in env = true
      /\ (w = w0
          \/ exists u,
               caller env d = Some u
               /\ Js.truthy (Query.userId q) = false
               /\ w = Where.with_OR (visible_to (User.id u)) w0)).
Proof.
  unfold authorize, bind, await, ret, throw, signed_in, caller.
  destruct (Env.getServerSession env) as [s|]; [|discriminate].
  destruct (session_email s) as [[|c r]|] eqn:He; simpl.
  - intros [= <- _]. now left.
  - destruct (Js.truthy (Query.userId q)) eqn:Hu; simpl.
    + intros [= <- _]. right. split; [reflexivity | now left].
    + unfold prisma.user_findUnique.
      destruct (Env.throws env AtUserFindUnique); [discriminate|].
      destruct (find _ (DB.users d)) as [u|] eqn:Hf.
      * intros [= <- _]. right. split; [reflexivity|]. right. now exists u.
      * intros [= <- _]. right. split; [reflexivity | now left].
  - intros [= <- _]. now left.
Qed.

(** Whatever the session, the filter keeps the draft, category and owner
    constraints of the parameters. *)
Lemma authorize_keeps env q d w d' :
  authorize env q (where_of_query q) d = (Returns w, d') ->
  Where.isDraft w = false
  /\ Where.category w = given (Query.category q)
  /\ Where.userId w = given (Query.userId q).
Proof.
  intros Ha.
  destruct (where_of_query_fields q) as (Hd & _ & Hc & Hu & _).
  destruct (authorize_returns _ _ _ _ _ _ Ha)
    as [[_ ->]|[_ [->|(u & _ & _ & ->)]]]; auto.
Qed.

Lemma GET_listing_rows env q d posts pg d' :
  GET env q d = (Returns (Listing posts pg), d') ->
  exists w rows,
    authorize env q (where_of_query q) d = (Returns w, d)
    /\ paginate (skip_of q) (limit_of q) (ordered d w) = Returns rows
    /\ posts = map (include d) rows
    /\ map PostView.post posts = rows.
Proof.
  intros HG.
  destruct (GET_listing_inv _ _ _ _ _ _ HG) as (w & rows & Ha & _ & _ & Hp & -> & _).
  exists w, rows. repeat split; auto.
  rewrite map_map. simpl. apply map_id.
Qed.

(** ** Drafts and explicit filters *)

(** X1.  No listing answer ever holds a draft: whoever asks and whatever
    the parameters are, also when the caller is the author. *)
Theorem drafts_are_never_listed env q d posts pg d' :
  GET env q d = (Returns (Listing posts pg), d') ->
  forall v, In v posts -> Post.isDraft (PostView.post v) = false.
Proof.
  intros HG v Hv.
  destruct (GET_listing_rows _ _ _ _ _ _ HG) as (w & rows & Ha & _ & _ & _).
  destruct (authorize_keeps _ _ _ _ _ Ha) as (Hd & _).
  pose proof (GET_page_selected _ _ _ _ _ _ _ _ HG Ha Hv) as Hs.
  apply selected_spec in Hs as (_ & Hdraft & _). congruence.
Qed.

Lemma drafts_are_never_listed_witness :
  Forall (fun v => Post.isDraft (PostView.post v) = false)
    (posts_of (GET Sample.as_alice (Query.Build None None None None (Some "u2"))
                 Sample.db)).
Proof.
  apply Forall_forall.
  apply (drafts_are_never_listed Sample.as_alice
           (Query.Build None None None None (Some "u2")) Sample.db _ _ _ eq_refl).
Defined.

(** X2.  A non-empty [category] or [userId] parameter is honoured for
    every caller: each post of a listing answer has that category and
    that owner, with or without a session. *)
Theorem explicit_filters_are_honoured env q d posts pg d' :
  GET env q d = (Returns (Listing posts pg), d') ->
  forall v, In v posts ->
    (forall c, given (Query.category q) = Some c ->
               Post.category (PostView.post v) = c)
    /\ (forall u, given (Query.userId q) = Some u ->
                  Post.userId (PostView.post v) = u).
Proof.
  intros HG v Hv.
  destruct (GET_listing_rows _ _ _ _ _ _ HG) as (w & rows & Ha & _ & _ & _).
  destruct (authorize_keeps _ _ _ _ _ Ha) as (_ & Hc & Hu).
  pose proof (GET_page_selected _ _ _ _ _ _ _ _ HG Ha Hv) as Hs.
  apply selected_spec in Hs as (_ & _ & _ & Hcat & Hown & _).
  rewrite Hc in Hcat. rewrite Hu in Hown.
  split; intros x Hx.
  - now apply (proj1 (field_is_spec _ _) Hcat).
  - now apply (proj1 (field_is_spec _ _) Hown).
Qed.

Lemma explicit_filters_are_honoured_witness :
  Forall (fun v => Post.category (PostView.post v) = "TRAVEL"
                   /\ Post.userId (PostView.post v) = "u2")
    (posts_of (GET Sample.anonymous
                 (Query.Build None None None (Some "TRAVEL") (Some "u2")) Sample.db)).
Proof.
  apply Forall_forall. intros v Hv.
  destruct (explicit_filters_are_honoured Sample.anonymous
              (Query.Build None None None (Some "TRAVEL") (Some "u2")) Sample.db
              _ _ _ eq_refl v Hv) as [Hc Hu].
  split; [exact (Hc _ eq_refl) | exact (Hu _ eq_refl)].
Defined.

(** ** The order of a page *)

Lemma insert_desc_newest_first p l :
  newest_first l -> newest_first (insert_desc p l).
Proof.
  unfold newest_first. induction l as [|q r IH]; intros Hs; simpl.
  - constructor; constructor.
  - destruct (Post.createdAt q <=? Post.createdAt p) eqn:E.
    + apply Z.leb_le in E. constructor; [exact Hs|].
      apply StronglySorted_inv in Hs as [_ Hall].
      constructor; [exact E|].
      eapply Forall_impl; [|exact Hall]. intros a Ha. simpl in Ha. lia.
    + apply Z.leb_gt in E. apply StronglySorted_inv in Hs as [Hr Hall].
      constructor; [now apply IH|].
      apply Forall_forall. intros x Hx. apply insert_desc_In in Hx as [->|Hx].
      * lia.
      * now apply (proj1 (Forall_forall _ _) Hall).
Qed.

Lemma orderBy_newest_first l : newest_first (orderBy_createdAt_desc l).
Proof.
  unfold orderBy_createdAt_desc. induction l as [|p r IH]; simpl.
  - constructor.
  - now apply insert_desc_newest_first.
Qed.

Lemma StronglySorted_skipn {A} (R : A -> A -> Prop) n l :
  StronglySorted R l -> StronglySorted R (skipn n l).
Proof.
  revert l. induction n as [|n IH]; intros l Hs; [exact Hs|].
  destruct l as [|x l]; [exact Hs|].
  simpl. apply IH. now apply StronglySorted_inv in Hs.
Qed.

Lemma StronglySorted_firstn {A} (R : A -> A -> Prop) n l :
  StronglySorted R l -> StronglySorted R (firstn n l).
Proof.
  revert l. induction n as [|n IH]; intros l Hs; [constructor|].
  destruct l as [|x l]; [constructor|].
  simpl. apply StronglySorted_inv in Hs as [Hl Hall].
  constructor; [now apply IH|].
  apply Forall_forall. intros y Hy. apply firstn_incl in Hy.
  now apply (proj1 (Forall_forall _ _) Hall).
Qed.

Lemma StronglySorted_snoc {A} (R : A -> A -> Prop) l a :
  StronglySorted R l -> Forall (fun x => R x a) l -> StronglySorted R (l ++ [a]).
Proof.
  induction l as [|x l IH]; intros Hs Hall; simpl.
  - constructor; constructor.
  - apply StronglySorted_inv in Hs as [Hl Hx].
    apply Forall_inv_tail in Hall as Htail. apply Forall_inv in Hall.
    constructor; [now apply IH|].
    apply Forall_app. split; [exact Hx|]. now constructor.
Qed.

Lemma StronglySorted_rev {A} (R : A -> A -> Prop) l :
  StronglySorted R l -> StronglySorted (fun a b => R b a) (rev l).
Proof.
  induction l as [|x l IH]; intros Hs; simpl; [constructor|].
  apply StronglySorted_inv in Hs as [Hl Hx].
  apply StronglySorted_snoc; [now apply IH|].
  apply Forall_forall. intros y Hy. apply in_rev in Hy.
  now apply (proj1 (Forall_forall _ _) Hx).
Qed.

Lemma paginate_sorted {A} (R : A -> A -> Prop) skip take rows page :
  StronglySorted R rows ->
  paginate skip take rows = Returns page ->
  StronglySorted R page.
Proof.
  intros Hs H. apply paginate_returns in H as (s & t & _ & _ & _ & _ & _ & ->).
  destruct (0 <=? t).
  - now apply StronglySorted_firstn, StronglySorted_skipn.
  - apply (StronglySorted_rev (fun a b => R b a)).
    now apply StronglySorted_firstn, StronglySorted_skipn, StronglySorted_rev.
Qed.

(** X3.  The posts of every listing answer come newest first: no post of
    the page was created before one that follows it, whichever way the
    page is cut out of the result. *)
Theorem page_is_newest_first env q d posts pg d' :
  GET env q d = (Returns (Listing posts pg), d') ->
  newest_first (map PostView.post posts).
Proof.
  intros HG.
  destruct (GET_listing_rows _ _ _ _ _ _ HG) as (w & rows & _ & Hp & _ & ->).
  eapply paginate_sorted; [|exact Hp]. apply orderBy_newest_first.
Qed.

Lemma page_is_newest_first_witness :
  newest_first
    (map PostView.post (posts_of (GET Sample.as_alice Sample.no_query Sample.db))).
Proof.
  apply (page_is_newest_first Sample.as_alice Sample.no_query Sample.db _ _ _ eq_refl).
Defined.

(** ** Walking through the pages *)

Lemma firstn_add {A} (a b : nat) (l : list A) :
  firstn (a + b) l = (firstn a l ++ firstn b (skipn a l))%list.
Proof.
  revert l. induction a as [|a IH]; intros l; [reflexivity|].
  destruct l as [|x l]; simpl; [now rewrite firstn_nil|].
  now rewrite IH.
Qed.

Lemma slices_concat {A} (size n : nat) (rows : list A) :
  List.concat (map (fun k => slice size k rows) (seq 0 n)) = firstn (n * size) rows.
Proof.
  induction n as [|n IH]; [reflexivity|].
  rewrite seq_S, map_app, concat_app, IH. simpl.
  rewrite app_nil_r. unfold slice.
  replace (size + n * size)%nat with (n * size + size)%nat by lia.
  now rewrite firstn_add.
Qed.

Lemma ordered_length d w :
  List.length (ordered d w) = List.length (selected d w).
Proof. apply orderBy_length. Qed.

(** The rows a request skips: the product of the page number less one
    and the limit where that is below 2^53, and no less than 2^53
    otherwise. *)
Lemma skip_of_cases q p l s :
  page_of q = Some p -> 1 <= p ->
  limit_of q = Some l -> 0 <= l ->
  skip_of q = Some s ->
  s = (p - 1) * l \/ (2 ^ 53 <= s /\ 2 ^ 53 <= (p - 1) * l).
Proof.
  intros Hp Hp1 Hl Hl0. unfold skip_of. rewrite Hp, Hl, sub_one.
  intros H. apply mul_Some in H. subst s.
  destruct (Z_lt_le_dec (p - 1) (2 ^ 53)) as [Hx|Hx].
  - rewrite (round_double_small (p - 1)) by lia.
    destruct (Z_lt_le_dec ((p - 1) * l) (2 ^ 53)) as [Hy|Hy].
    + left. apply round_double_small. nia.
    + right. split; [now apply round_double_ge | exact Hy].
  - pose proof (round_double_ge _ Hx) as Hr.
    destruct (Z.eq_dec l 0) as [->|Hne].
    + left. rewrite !Z.mul_0_r. reflexivity.
    + right. split; [apply round_double_ge|]; nia.
Qed.

(** The page a request with a positive limit and a page number from 1 on
    is shown. *)
Lemma GET_page_slice env q d posts pg d' w l p :
  GET env q d = (Returns (Listing posts pg), d') ->
  authorize env q (where_of_query q) d = (Returns w, d) ->
  limit_of q = Some l -> 0 <= l ->
  page_of q = Some p -> 1 <= p ->
  map PostView.post posts = slice (Z.to_nat l) (Z.to_nat (p - 1)) (ordered d w).
Proof.
  intros HG Ha Hl Hl0 Hp Hp1.
  destruct (GET_listing_rows _ _ _ _ _ _ HG) as (w' & rows & Ha' & Hpag & _ & ->).
  rewrite Ha in Ha'. injection Ha' as <-.
  apply paginate_returns in Hpag as (s & t & Hs & Ht & Hs63 & _ & Hn & ->).
  rewrite Hl in Ht. injection Ht as <-.
  replace (0 <=? l) with true by lia. unfold slice.
  destruct (skip_of_cases _ _ _ _ Hp Hp1 Hl Hl0 Hs) as [->|[H1 H2]].
  - now rewrite Z2Nat.inj_mul by lia.
  - fold (ordered d w) in *.
    rewrite !skipn_all2; [reflexivity| |]; nia.
Qed.

(** X4.  Pages follow one another without gap or overlap.  For requests
    that differ in the page number only (page [k+1] for the [k]-th, the
    same positive limit, the same filter), the posts of the first [n]
    answers, one after the other, are the first [n * limit] rows of the
    ordered result; and when [n] is the number of [pages] the answers
    report, they are the whole ordered result, each row once. *)
Theorem pages_follow_one_another env d w l n (ask : nat -> Query.t) :
  0 < l ->
  (forall k, (k < n)%nat ->
     page_of (ask k) = Some (Z.of_nat (S k))
     /\ limit_of (ask k) = Some l
     /\ authorize env (ask k) (where_of_query (ask k)) d = (Returns w, d)
     /\ exists posts pg, GET env (ask k) d = (Returns (Listing posts pg), d)) ->
  List.concat (map (fun k => map PostView.post (posts_of (GET env (ask k) d))) (seq 0 n))
  = firstn (n * Z.to_nat l) (ordered d w)
  /\ (Js.Math_ceil (Js.div (Some (Z.of_nat (List.length (selected d w)))) (Some l))
      = Some (Z.of_nat n) ->
      List.concat (map (fun k => map PostView.post (posts_of (GET env (ask k) d)))
                (seq 0 n))
      = ordered d w).
Proof.
  intros Hl Hask.
  assert (Hpre :
    List.concat (map (fun k => map PostView.post (posts_of (GET env (ask k) d))) (seq 0 n))
    = firstn (n * Z.to_nat l) (ordered d w)).
  { rewrite <- slices_concat. f_equal. apply map_ext_in.
    intros k Hk. apply in_seq in Hk.
    destruct (Hask k ltac:(lia)) as (Hp & Hlim & Ha & posts & pg & HG).
    unfold posts_of. rewrite HG. simpl.
    rewrite (GET_page_slice _ _ _ _ _ _ _ _ _ HG Ha Hlim ltac:(lia) Hp ltac:(lia)).
    f_equal. lia. }
  split; [exact Hpre|].
  intros Hpages. rewrite Hpre. apply firstn_all2. rewrite ordered_length.
  destruct (ceil_div_nonzero (Z.of_nat (List.length (selected d w))) l ltac:(lia))
    as [Hc Hq].
  rewrite Hc, Hq in Hpages. injection Hpages as Hn.
  pose proof (ceil_div_bounds (Z.of_nat (List.length (selected d w))) l Hl).
  nia.
Qed.

Lemma pages_follow_one_another_witness :
  List.concat (map (fun k => map PostView.post
                          (posts_of (GET Sample.as_ghost (Tour.ask k) Sample.db)))
            (seq 0 3))
  = ordered Sample.db Tour.everything.
Proof.
  refine (proj2 (pages_follow_one_another Sample.as_ghost Sample.db Tour.everything
                   2 3 Tour.ask _ _) _).
  - lia.
  - intros k Hk.
    destruct k as [|[|[|k]]]; [| | |lia];
      (split; [reflexivity|]; split; [reflexivity|]; split; [reflexivity|];
       eexists _, _; reflexivity).
  - reflexivity.
Defined.

Lemma paginate_refuses_far {A} (s : Z) (take : Js.number) (rows : list A) :
  2 ^ 63 <= s -> paginate (Some s) take rows = Throws.
Proof.
  intros Hs. unfold paginate, int64. destruct take as [t|]; [|reflexivity].
  replace (s <? 2 ^ 63) with false by lia.
  now rewrite Bool.andb_false_r, Bool.orb_true_r.
Qed.

(** X5.  Asking for a page past the last one is no error, up to the
    largest offset the query engine takes.  With [skip] the number the
    handler computes for (page - 1) * limit: when [skip] is a finite
    number from 2^63 on the answer is 500; when it is less, and at least
    the total, and the limit is not negative, a request without a
    category parameter whose calls do not fail is answered with a
    listing without posts that still reports the total. *)
Theorem page_past_the_end_is_empty env q d s :
  skip_of q = Some s ->
  (2 ^ 63 <= s < Js.infinity ->
   GET env q d = (Returns (Failure 500 "Internal server error"), d))
  /\ (forall w l,
        authorize env q (where_of_query q) d = (Returns w, d) ->
        Env.throws env AtPostFindMany = false ->
        Env.throws env AtPostCount = false ->
        prisma.valid_where w = true ->
        given (Query.category q) = None ->
        limit_of q = Some l -> 0 <= l ->
        Z.of_nat (List.length (selected d w)) <= s < 2 ^ 63 ->
        Z.of_nat (List.length (selected d w)) < 2 ^ 53 ->
        GET env q d =
          (Returns
             (Listing []
                (Pagination.Build (page_of q) (Some l)
                   (Z.of_nat (List.length (selected d w)))
                   (Js.Math_ceil
                      (Js.div (Some (Z.of_nat (List.length (selected d w))))
                         (Some l))))),
           d)).
Proof.
  intros Hs. split.
  - intros [Hfar _]. unfold GET, try_catch, bind, ret.
    destruct (authorize env q (where_of_query q) d) as [[w|] d1] eqn:Ha;
      assert (d1 = d) as -> by (eapply authorize_db; eauto); [|reflexivity].
    unfold prisma.post_findMany.
    destruct (Env.throws env AtPostFindMany || negb (prisma.valid_where w));
      [reflexivity|].
    now rewrite Hs, paginate_refuses_far.
  - intros w l Ha Hf Hc Hv _ Hl Hl0 Hpast Hn.
    rewrite (GET_listing env q d w [] Ha Hf Hc Hv); [now rewrite Hl|].
    pose proof (limit_of_clamped _ _ Hl) as Hl50.
    rewrite Hs, Hl, paginate_accepts; [|lia|lia|rewrite orderBy_length; lia].
    replace (0 <=? l) with true by lia.
    rewrite skipn_all2; [now rewrite firstn_nil|].
    rewrite orderBy_length. lia.
Qed.

Lemma page_past_the_end_is_empty_witness :
  GET Sample.anonymous Tour.far Sample.db
  = (Returns (Failure 500 "Internal server error"), Sample.db)
  /\ GET Sample.as_ghost (Tour.page "9") Sample.db
     = (Returns (Listing [] (Pagination.Build (Some 9) (Some 2) 6 (Some 3))),
        Sample.db).
Proof.
  split.
  - apply (proj1 (page_past_the_end_is_empty Sample.anonymous Tour.far Sample.db
                    9223372036854775808 eq_refl)).
    split; [discriminate | reflexivity].
  - refine (proj2 (page_past_the_end_is_empty Sample.as_ghost (Tour.page "9")
                     Sample.db 16 eq_refl)
              Tour.everything 2 eq_refl eq_refl eq_refl eq_refl eq_refl eq_refl
              _ _ _).
    + lia.
    + simpl. lia.
    + simpl. lia.
Defined.

(** The page 2^63 of a listing with one post a page: the page number
    less one is rounded back to 2^63, which the query engine does not
    take. *)
Example far_page_is_refused :
  Sample.status_of (GET Sample.anonymous Tour.far Sample.db) = 500
  /\ Sample.status_of
       (GET Sample.anonymous
          (Query.Build (Some "4611686018427387904") (Some "1") None None None)
          Sample.db) = 200.
Proof. split; reflexivity. Qed.

(** ** Signing in *)

(** X6.  Signing in never hides a post, unless the request asks for
    another visibility than PUBLIC: when there is no visibility parameter,
    or it is PUBLIC, every row selected for a request without a session is
    selected for the same request with a session, whatever user row that
    session has or lacks. *)
Theorem signing_in_hides_nothing env q d w :
  signed_in env = true ->
  authorize env q (where_of_query q) d = (Returns w, d) ->
  given (Query.visibility q) = None
  \/ given (Query.visibility q) = Some "PUBLIC" ->
  forall p,
    In p (selected d (Where.with_visibility "PUBLIC" (where_of_query q))) ->
    In p (selected d w).
Proof.
  intros Hin Ha Hvis p Hp.
  destruct (where_of_query_fields q) as (Hd & Hv & Hc & Hu & Hor).
  apply selected_spec in Hp as (Hposts & Hdraft & Hpub & Hcat & Hown & _).
  cbn [Where.with_visibility Where.isDraft Where.visibility Where.category
       Where.userId] in Hdraft, Hpub, Hcat, Hown.
  apply field_is_PUBLIC in Hpub.
  assert (Hvf : field_is (Where.visibility (where_of_query q))
                  (Visibility_name (Post.visibility p)) = true).
  { rewrite Hv, Hpub. destruct Hvis as [->| ->]; reflexivity. }
  destruct (authorize_returns _ _ _ _ _ _ Ha)
    as [[Hout _]|[_ [->|(u & _ & _ & ->)]]]; [congruence| |].
  - apply selected_spec. rewrite Hor. tauto.
  - apply selected_spec.
    cbn [Where.with_OR Where.isDraft Where.visibility Where.category Where.userId
         Where.OR].
    repeat split; auto. apply visible_to_spec. now left.
Qed.

Lemma signing_in_hides_nothing_witness :
  incl (selected Sample.db
          (Where.with_visibility "PUBLIC" (where_of_query Sample.no_query)))
       (selected Sample.db
          (Where.with_OR (visible_to "u3") (where_of_query Sample.no_query))).
Proof.
  unfold incl.
  apply (signing_in_hides_nothing Sample.as_carol Sample.no_query Sample.db
           (Where.with_OR (visible_to "u3") (where_of_query Sample.no_query))
           eq_refl eq_refl).
  left. reflexivity.
Defined.

(** With another visibility parameter the two differ: without a session
    the parameter is overridden, with one it is kept. *)
Example signing_in_with_private_parameter :
  let q := Query.Build None None (Some "PRIVATE") None None in
  Sample.ids (GET Sample.anonymous q Sample.db) = ["p1"]
  /\ Sample.ids (GET Sample.as_alice q Sample.db) = ["p6"].
Proof. split; reflexivity. Qed.

(** ** When the listing fails *)

Lemma authorize_fails env q w0 d :
  (exists d', authorize env q w0 d = (Throws, d'))
  <-> Env.getServerSession env = Throws
      \/ (signed_in env = true
          /\ Js.truthy (Query.userId q) = false
          /\ Env.throws env AtUserFindUnique = true).
Proof.
  unfold authorize, bind, await, ret, throw, signed_in.
  destruct (Env.getServerSession env) as [s|].
  2:{ split; [now left | intros _; now exists d]. }
  destruct (session_email s) as [[|c r]|]; simpl.
  - split; [intros [d' H]; discriminate | intros [H|(H & _)]; discriminate].
  - destruct (Js.truthy (Query.userId q)); simpl.
    + split; [intros [d' H]; discriminate | intros [H|(_ & H & _)]; discriminate].
    + unfold prisma.user_findUnique.
      destruct (Env.throws env AtUserFindUnique).
      * split; [intros _; right; auto | intros _; now exists d].
      * split.
        -- intros [d' H]. destruct (find _ (DB.users d)); discriminate.
        -- intros [H|(_ & _ & H)]; discriminate.
  - split; [intros [d' H]; discriminate | intros [H|(H & _)]; discriminate].
Qed.

(** X7.  A listing request has two answers only, and leaves the
    database as it was: 200 with a listing, or 500 with the fixed
    message.  It is the 500 whenever something the handler awaits fails:
    the session service, the user lookup (which runs only for a
    signed-in caller without a [userId] parameter), or one of the two
    queries. *)
Theorem listing_failures_are_500 env q d :
  (GET env q d = (Returns (Failure 500 "Internal server error"), d)
   \/ exists posts pg, GET env q d = (Returns (Listing posts pg), d))
  /\ (Env.getServerSession env = Throws
      \/ (signed_in env = true
          /\ Js.truthy (Query.userId q) = false
          /\ Env.throws env AtUserFindUnique = true)
      \/ Env.throws env AtPostFindMany = true
      \/ Env.throws env AtPostCount = true ->
      GET env q d = (Returns (Failure 500 "Internal server error"), d)).
Proof.
  pose proof (authorize_fails env q (where_of_query q) d) as Hfail.
  unfold GET, try_catch, bind, ret.
  destruct (authorize env q (where_of_query q) d) as [[w|] d1] eqn:Ha;
    assert (d1 = d) as -> by (eapply authorize_db; eauto).
  - assert (Hno : ~ (Env.getServerSession env = Throws
                     \/ (signed_in env = true
                         /\ Js.truthy (Query.userId q) = false
                         /\ Env.throws env AtUserFindUnique = true))).
    { intros H. apply Hfail in H as [d' H]. discriminate. }
    unfold prisma.post_findMany, prisma.post_count.
    destruct (Env.throws env AtPostFindMany) eqn:Hf; simpl.
    { split; [now left | reflexivity]. }
    destruct (prisma.valid_where w) eqn:Hv; simpl.
    2:{ split; [now left | reflexivity]. }
    destruct (paginate _ _ _) as [rows|] eqn:Hp.
    2:{ split; [now left | reflexivity]. }
    destruct (Env.throws env AtPostCount) eqn:Hc.
    { split; [now left | reflexivity]. }
    split; [right; eexists _, _; reflexivity|].
    intros [H|[H|[H|H]]]; try discriminate; exfalso; apply Hno; auto.
  - split; [now left | reflexivity].
Qed.

Lemma listing_failures_are_500_witness :
  GET Sample.count_fails Sample.no_query Sample.db
  = (Returns (Failure 500 "Internal server error"), Sample.db).
Proof.
  apply (proj2 (listing_failures_are_500 Sample.count_fails Sample.no_query
                  Sample.db)).
  right. right. right. reflexivity.
Defined.

Example lookup_failure_spares_owner_filter :
  let env := Sample.env_with (Sample.session_of "alice@example.org")
               (fun c => match c with AtUserFindUnique => true | _ => false end)
               (fun _ => false) in
  Sample.status_of (GET env Sample.no_query Sample.db) = 500
  /\ Sample.ids (GET env (Query.Build None None None None (Some "u3")) Sample.db)
     = ["p5"; "p4"].
Proof. split; reflexivity. Qed.

(* ================================================================== *)
(** * Further properties of the creation *)

(** ** The answers of the inner [try] and [catch] *)

Lemma file_processing_try_answers env user post body d1 o d2 :
  file_processing_try env user post body d1 = (o, d2) ->
  o = Throws \/ exists view, o = Returns (Created "Post created successfully" view).
Proof.
  unfold file_processing_try, bind, ret.
  destruct (process_files _ _ _ _ _ _ _ d1) as [[moved|] d1']; [|intros [= <- _]; auto].
  destruct (prisma.post_update _ _ _ d1') as [[view|] d1'']; intros [= <- _]; eauto.
Qed.

Lemma file_processing_answers env user post body d1 o d2 :
  file_processing env user post body d1 = (o, d2) ->
  o = Throws
  \/ (exists view, o = Returns (Created "Post created successfully" view))
  \/ o = Returns (Failure 500 "Failed to process uploaded files").
Proof.
  unfold file_processing, try_catch, bind, ret.
  destruct (file_processing_try env user post body d1) as [[r|] d1'] eqn:Ht.
  - destruct (file_processing_try_answers _ _ _ _ _ _ _ Ht) as [H|[view H]];
      [discriminate|]. injection H as ->. intros [= <- _]. eauto.
  - destruct (prisma.post_delete _ _ d1') as [[[]|] d1'']; intros [= <- _]; auto.
Qed.

(** The answer after the post is created is a 200 or a 500. *)
Lemma POST_after_create_answers env request d user post body d1 r d' :
  creates env request d user post body d1 ->
  POST env request d = (Returns r, d') ->
  (exists view, r = Created "Post created successfully" view)
  \/ r = Failure 500 "Failed to process uploaded files"
  \/ r = Failure 500 "Internal server error".
Proof.
  intros Hc. rewrite (POST_after_create _ _ _ _ _ _ _ Hc).
  destruct (file_processing env user post body d1) as [o d2] eqn:Hf.
  destruct (file_processing_answers _ _ _ _ _ _ _ Hf) as [->|[[view ->]| ->]];
    intros [= <- _]; eauto.
Qed.

(** How far a request gets.  Either it is answered before the post is
    created, with one of five answers and the database untouched, or it
    creates its post. *)
Lemma POST_stages env request d :
  (exists r,
      POST env request d = (Returns r, d)
      /\ ((r = Failure 401 "Unauthorized"
           /\ exists s, Env.getServerSession env = Returns s
                        /\ Js.truthy (session_email s) = false)
          \/ (r = Failure 400 "Missing required fields"
              /\ signed_in env = true
              /\ exists body, Request.json request = Returns body
                              /\ missing_required body = true)
          \/ (r = Failure 404 "User not found"
              /\ signed_in env = true
              /\ Env.throws env AtUserFindUnique = false
              /\ caller env d = None
              /\ exists body, Request.json request = Returns body
                              /\ missing_required body = false)
          \/ (r = Failure 500 "Internal server error"
              /\ (Env.getServerSession env = Throws
                  \/ (signed_in env = true /\ Request.json request = Throws)
                  \/ (signed_in env = true
                      /\ Env.throws env AtUserFindUnique = true
                      /\ exists body, Request.json request = Returns body
                                      /\ missing_required body = false)
                  \/ exists user body d1,
                       caller env d = Some user
                       /\ Request.json request = Returns body
                       /\ missing_required body = false
                       /\ prisma.post_create env (post_data_of body user) d
                          = (Throws, d1)))))
  \/ exists user post body d1, creates env request d user post body d1.
Proof.
  unfold POST, try_catch, bind, await, ret, throw, signed_in, caller.
  destruct (Env.getServerSession env) as [s|] eqn:Hs.
  2:{ left. eexists. split; [reflexivity|]. right. right. right. auto. }
  destruct (session_email s) as [[|c r]|] eqn:He; simpl.
  1,3: left; eexists; split; [reflexivity|]; left; split; [reflexivity|];
       exists s; rewrite He; auto.
  destruct (Request.json request) as [body|] eqn:Hj.
  2:{ left. eexists. split; [reflexivity|]. right. right. right.
      split; [reflexivity|]. right. left. auto. }
  destruct (missing_required body) eqn:Hm.
  { left. eexists. split; [reflexivity|]. right. left. eauto. }
  unfold prisma.user_findUnique.
  destruct (Env.throws env AtUserFindUnique) eqn:Ht.
  { left. eexists. split; [reflexivity|]. right. right. right.
    split; [reflexivity|]. right. right. left. eauto 6. }
  destruct (find _ (DB.users d)) as [user|] eqn:Hf.
  2:{ left. eexists. split; [reflexivity|]. right. right. left. eauto 8. }
  destruct (prisma.post_create env (post_data_of body user) d) as [[post|] d1] eqn:Hp.
  - right. exists user, post, body, d1. exists s, c, r.
    unfold prisma.user_findUnique. rewrite Ht, Hf. auto 8.
  - assert (d1 = d) as ->.
    { unfold prisma.post_create in Hp.
      destruct (Env.throws env AtPostCreate); [now injection Hp|].
      destruct (match prisma.visibility _ with Some _ => _ | None => _ end);
        [|now injection Hp].
      destruct (existsb _ _); [now injection Hp | discriminate]. }
    left. eexists. split; [reflexivity|]. right. right. right.
    split; [reflexivity|]. right. right. right. exists user, body, d. auto.
Qed.

(** ** Client errors *)

(** X8.  The three client errors of a creation request, in the order the
    handler tests them: 401 exactly when the session has no email
    (whatever the body is, which is not even read), 400 exactly when a
    signed-in caller sends a body without the required fields (whether or
    not the caller has a user row), 404 exactly when a signed-in caller
    with a complete body has no user row.  An answer with one of these
    statuses leaves the database as it was. *)
Theorem client_errors_of_creation env request d :
  (POST env request d = (Returns (Failure 401 "Unauthorized"), d)
   <-> exists s, Env.getServerSession env = Returns s
                 /\ Js.truthy (session_email s) = false)
  /\ (POST env request d = (Returns (Failure 400 "Missing required fields"), d)
      <-> signed_in env = true
          /\ exists body, Request.json request = Returns body
                          /\ missing_required body = true)
  /\ (POST env request d = (Returns (Failure 404 "User not found"), d)
      <-> signed_in env = true
          /\ Env.throws env AtUserFindUnique = false
          /\ caller env d = None
          /\ exists body, Request.json request = Returns body
                          /\ missing_required body = false)
  /\ (forall r d',
        POST env request d = (Returns r, d') ->
        status r = 400 \/ status r = 401 \/ status r = 404 ->
        d' = d).
Proof.
  destruct (POST_stages env request d)
    as [(r & HP & Hcase)|(user & post & body & d1 & Hc)].
  - assert (Hfacts :
      (r = Failure 401 "Unauthorized"
       <-> exists s, Env.getServerSession env = Returns s
                     /\ Js.truthy (session_email s) = false)
      /\ (r = Failure 400 "Missing required fields"
          <-> signed_in env = true
              /\ exists body, Request.json request = Returns body
                              /\ missing_required body = true)
      /\ (r = Failure 404 "User not found"
          <-> signed_in env = true
              /\ Env.throws env AtUserFindUnique = false
              /\ caller env d = None
              /\ exists body, Request.json request = Returns body
                              /\ missing_required body = false)).
    { unfold signed_in, caller in *.
      destruct Hcase as [(-> & s & Hs & He)|[(-> & Hin & b & Hj & Hm)
                        |[(-> & Hin & Ht & Hcl & b & Hj & Hm)|(-> & Hcause)]]].
      - rewrite Hs in *. split; [split; eauto|].
        split; (split; [discriminate|]); intros (Hin & _); congruence.
      - destruct (Env.getServerSession env) as [s|]; [|discriminate].
        rewrite Hj. split.
        { split; [discriminate|]. intros (s' & [= <-] & He). congruence. }
        split; [split; eauto|]. split; [discriminate|].
        intros (_ & _ & _ & b' & [= <-] & Hm'). congruence.
      - destruct (Env.getServerSession env) as [s|]; [|discriminate].
        rewrite Hj. split.
        { split; [discriminate|]. intros (s' & [= <-] & He). congruence. }
        split.
        { split; [discriminate|]. intros (_ & b' & [= <-] & Hm'). congruence. }
        split; eauto 8.
      - split; [|split]; (split; [discriminate|]).
        + intros (s & Hs & He).
          destruct Hcause as [H|[(H & _)|[(H & _)|(u & b & d1 & H & _)]]];
            rewrite Hs in H; try discriminate; try congruence.
          destruct (session_email s) as [[|c r']|]; discriminate.
        + intros (Hin & b & Hj & Hm).
          destruct Hcause as [H|[(_ & H)|[(_ & _ & b' & Hj' & Hm')
                                         |(u & b' & d1 & _ & Hj' & Hm' & _)]]];
            try congruence.
          rewrite H in Hin. discriminate.
        + intros (Hin & Ht & Hcl & b & Hj & Hm).
          destruct Hcause as [H|[(_ & H)|[(_ & Ht' & _)|(u & b' & d1 & Hcl' & _)]]];
            try congruence.
          rewrite H in Hin. discriminate. }
    destruct Hfacts as (H401 & H400 & H404).
    rewrite HP.
    split; [rewrite <- H401; split; [now intros [= ->] | now intros ->]|].
    split; [rewrite <- H400; split; [now intros [= ->] | now intros ->]|].
    split; [rewrite <- H404; split; [now intros [= ->] | now intros ->]|].
    intros r' d' [= <- <-] _. reflexivity.
  - pose proof Hc as (s & c & r0 & Hs & He & Hj & Hm & Hu & Hp).
    destruct (user_findUnique_inv _ _ _ _ _ Hu) as (_ & Ht & Hfind).
    assert (Hnot4 : forall r d',
               POST env request d = (Returns r, d') ->
               status r <> 400 /\ status r <> 401 /\ status r <> 404).
    { intros r d' HP.
      destruct (POST_after_create_answers _ _ _ _ _ _ _ _ _ Hc HP)
        as [[view ->]|[->| ->]]; simpl; repeat split; discriminate. }
    split.
    { split.
      - intros HP. apply Hnot4 in HP. simpl in HP. tauto.
      - intros (s' & Hs' & He'). rewrite Hs in Hs'. injection Hs' as <-.
        rewrite He in He'. discriminate. }
    split.
    { split.
      - intros HP. apply Hnot4 in HP. simpl in HP. tauto.
      - intros (_ & b & Hj' & Hm'). congruence. }
    split.
    { split.
      - intros HP. apply Hnot4 in HP. simpl in HP. tauto.
      - intros (_ & _ & Hcl & _). unfold caller in Hcl. rewrite Hs, He in Hcl.
        congruence. }
    intros r d' HP Hst. apply Hnot4 in HP. tauto.
Qed.

(** ** When the post row is made *)

(** [post.create] is refused for three reasons and no other. *)
Lemma post_create_cases env data d :
  (prisma.post_create env data d = (Throws, d)
   /\ (Env.throws env AtPostCreate = true
       \/ (exists v, prisma.visibility data = Some v /\ Visibility_of_name v = None)
       \/ post_of d (Env.newId env) <> None))
  \/ (exists post d1,
         prisma.post_create env data d = (Returns post, d1)
         /\ Env.throws env AtPostCreate = false
         /\ (forall v, prisma.visibility data = Some v -> Visibility_of_name v <> None)
         /\ post_of d (Env.newId env) = None).
Proof.
  unfold prisma.post_create, post_of.
  destruct (Env.throws env AtPostCreate); [left; auto|].
  destruct (prisma.visibility data) as [v|] eqn:Hv.
  - destruct (Visibility_of_name v) as [vis|] eqn:Hn.
    + destruct (existsb _ (DB.posts d)) eqn:E.
      * left. split; [reflexivity|]. right. right. intros H.
        apply find_existsb in H. congruence.
      * right. eexists _, _. split; [reflexivity|]. split; [reflexivity|].
        split; [|now apply find_existsb]. intros v' [= <-]. congruence.
    + left. split; [reflexivity|]. right. left. eauto.
  - destruct (existsb _ (DB.posts d)) eqn:E.
    + left. split; [reflexivity|]. right. right. intros H.
      apply find_existsb in H. congruence.
    + right. eexists _, _. split; [reflexivity|]. split; [reflexivity|].
      split; [discriminate | now apply find_existsb].
Qed.

(** X9.  A creation request that fails before its post exists is answered
    with 500 and the generic message, and nothing is written: a session
    service or a body that cannot be read, a failing user lookup, or a
    post row that is refused.  The row is refused when the database call
    fails, when the identifier is taken, and when the body carries a
    visibility that is not a member of the enumeration, which the
    validation of the required fields does not look at. *)
Theorem early_failure_writes_nothing env request d :
  Env.getServerSession env = Throws
  \/ (signed_in env = true /\ Request.json request = Throws)
  \/ (exists body,
         signed_in env = true
         /\ Request.json request = Returns body
         /\ missing_required body = false
         /\ (Env.throws env AtUserFindUnique = true
             \/ (Env.throws env AtUserFindUnique = false
                 /\ caller env d <> None
                 /\ (Env.throws env AtPostCreate = true
                     \/ (exists v, Body.visibility body = Some v
                                   /\ Visibility_of_name v = None)
                     \/ post_of d (Env.newId env) <> None)))) ->
  POST env request d = (Returns (Failure 500 "Internal server error"), d).
Proof.
  unfold POST, try_catch, bind, await, ret, throw, signed_in, caller.
  intros [Hs|[(Hin & Hj)|(body & Hin & Hj & Hm & Hcause)]].
  - now rewrite Hs.
  - destruct (Env.getServerSession env) as [s|]; [|discriminate].
    apply truthy_Some in Hin as (c & r & ->). now rewrite Hj.
  - destruct (Env.getServerSession env) as [s|]; [|discriminate].
    apply truthy_Some in Hin as (c & r & He). rewrite He in *. rewrite Hj, Hm.
    unfold prisma.user_findUnique.
    destruct Hcause as [Ht|(Ht & Hcl & Hrefused)]; rewrite Ht; [reflexivity|].
    destruct (find _ (DB.users d)) as [user|]; [|exfalso; apply Hcl; reflexivity].
    destruct (post_create_cases env (post_data_of body user) d)
      as [(-> & _)|(post & d1 & _ & Hok & Hvis & Hfree)]; [reflexivity|].
    exfalso. destruct Hrefused as [H|[(v & Hv & Hn)|H]]; try congruence.
    exact (Hvis v Hv Hn).
Qed.

Lemma early_failure_writes_nothing_witness :
  POST Sample.as_alice
    (Sample.request_of
       (Body.Build (Some "Trip") (Some "Three days") (Some "TRAVEL") None
          (Some "SECRET") None None (Some Sample.three_photos)))
    Sample.db
  = (Returns (Failure 500 "Internal server error"), Sample.db).
Proof.
  apply early_failure_writes_nothing. right. right.
  eexists. split; [reflexivity|]. split; [reflexivity|]. split; [reflexivity|].
  right. split; [reflexivity|]. split; [discriminate|].
  right. left. exists "SECRET". split; reflexivity.
Defined.

(** X10.  A creation request is answered with 200 exactly when the caller
    is signed in and has a user row, the body has the required fields,
    the post row is accepted and the final update of the cover does not
    fail.  Nothing that happens to a single file (its move, the creation
    of its image) has a part in it. *)
Theorem creation_succeeds_exactly_when env request d :
  (exists view d',
      POST env request d = (Returns (Created "Post created successfully" view), d'))
  <-> signed_in env = true
      /\ Env.throws env AtUserFindUnique = false
      /\ Env.throws env AtPostCreate = false
      /\ Env.throws env AtPostUpdate = false
      /\ post_of d (Env.newId env) = None
      /\ exists body user,
           Request.json request = Returns body
           /\ missing_required body = false
           /\ caller env d = Some user
           /\ forall v, Body.visibility body = Some v -> Visibility_of_name v <> None.
Proof.
  split.
  - intros (view & d' & HP).
    destruct (POST_created_inv _ _ _ _ _ _ HP) as (user & post & body & d1 & Hc & Ht).
    pose proof Hc as (s & c & r & Hs & He & Hj & Hm & Hu & Hp).
    destruct (creates_post _ _ _ _ _ _ _ Hc) as (_ & _ & _ & Hcl & _ & Hin & _).
    destruct (user_findUnique_inv _ _ _ _ _ Hu) as (_ & Hlook & _).
    destruct (post_create_cases env (post_data_of body user) d)
      as [(Hthrow & _)|(post' & d1' & _ & Hok & Hvis & Hfree)]; [congruence|].
    rewrite (file_processing_try_spec _ _ _ _ _ Hin) in Ht.
    destruct (Env.throws env AtPostUpdate) eqn:Hup; [discriminate|].
    unfold signed_in. rewrite Hs, He.
    repeat split; auto. exists body, user. auto.
  - intros (Hin & Hlook & Hok & Hup & Hfree & body & user & Hj & Hm & Hcl & Hvis).
    destruct (caller_session _ _ _ Hcl) as (s & c & r & Hs & He & Hf).
    destruct (post_create_cases env (post_data_of body user) d)
      as [(_ & [H|[(v & Hv & Hn)|H]])|(post & d1 & Hp & _)]; try congruence.
    { exfalso. exact (Hvis v Hv Hn). }
    assert (Hc : creates env request d user post body d1).
    { exists s, c, r. unfold prisma.user_findUnique. rewrite Hlook, Hf. auto 8. }
    destruct (POST_created _ _ _ _ _ _ _ Hc Hup) as (view & d' & HP & _).
    now exists view, d'.
Qed.

(** Every move fails and every image creation fails: the answer is still
    200. *)
Example all_files_fail :
  let env := Sample.env_with (Sample.session_of "alice@example.org")
               (fun c => match c with AtImageCreate _ => true | _ => false end)
               (fun _ => true) in
  let r := POST env (Sample.request_of (Sample.body_of None Sample.three_photos))
             Sample.db in
  Sample.status_of r = 200 /\ Sample.image_urls r = [] /\ Sample.cover r = None.
Proof. vm_compute. auto. Qed.

(** ** The three ways a created post can end *)

Lemma map_update_none {A} (f : A -> bool) (g : A -> A) (l : list A) :
  find f l = None -> map (fun q => if f q then g q else q) l = l.
Proof.
  induction l as [|x l IH]; [reflexivity|].
  simpl. destruct (f x); [discriminate|]. intros H. now rewrite IH.
Qed.

Lemma filter_out_none {A} (f : A -> bool) (l : list A) :
  find f l = None -> filter (fun q => negb (f q)) l = l.
Proof.
  induction l as [|x l IH]; [reflexivity|].
  simpl. destruct (f x); [discriminate|]. intros H. simpl. now rewrite IH.
Qed.

Lemma filter_all {A} (f : A -> bool) (l : list A) :
  (forall x, In x l -> f x = true) -> filter f l = l.
Proof.
  induction l as [|x l IH]; intros H; [reflexivity|].
  simpl. rewrite (H x (or_introl eq_refl)), IH; [reflexivity|].
  intros y Hy. apply H. now right.
Qed.

Lemma filter_none {A} (f : A -> bool) (l : list A) :
  (forall x, In x l -> f x = false) -> filter f l = [].
Proof.
  induction l as [|x l IH]; intros H; [reflexivity|].
  simpl. rewrite (H x (or_introl eq_refl)). apply IH.
  intros y Hy. apply H. now right.
Qed.

(** The database a created post leaves behind, by what becomes of the
    update and of the delete. *)
Lemma POST_after_create_paths env request d user post body d1 :
  creates env request d user post body d1 ->
  let d2 := after_files env user post body d1 in
  let cover := resolved_cover env user post body in
  let kept := DB.with_posts (DB.posts d) d2 in
  DB.posts d2 = (DB.posts d ++ [post])%list
  /\ POST env request d =
     if Env.throws env AtPostUpdate then
       if Env.throws env AtPostDelete then
         (Returns (Failure 500 "Internal server error"), d2)
       else
         (Returns (Failure 500 "Failed to process uploaded files"),
          if Env.cascade env then DB.without_rows_of (Post.id post) kept else kept)
     else
       let d3 := DB.with_posts (DB.posts d ++ [Post.with_coverImage cover post])%list d2 in
       (Returns (Created "Post created successfully"
                   (include d3 (Post.with_coverImage cover post))), d3).
Proof.
  intros Hc d2 cover kept.
  pose proof Hc as (s & c & r & _ & _ & _ & _ & _ & Hp).
  destruct (post_create_returns _ _ _ _ _ Hp) as (_ & _ & _ & Hfree & Hd1 & Hin).
  assert (Hposts : DB.posts d2 = (DB.posts d ++ [post])%list).
  { subst d2. unfold after_files. cbn [DB.posts DB.with_images]. now rewrite Hd1. }
  split; [exact Hposts|].
  rewrite (POST_after_create _ _ _ _ _ _ _ Hc).
  unfold file_processing, try_catch, bind, ret.
  rewrite (file_processing_try_spec _ _ _ _ _ Hin).
  fold d2. fold cover. unfold post_of in Hfree.
  destruct (Env.throws env AtPostUpdate).
  - unfold prisma.post_delete.
    destruct (Env.throws env AtPostDelete); [reflexivity|].
    rewrite (post_of_existsb d2 (Post.id post) post) by exact Hin.
    rewrite Hposts, filter_app.
    rewrite (filter_out_none (fun p => String.eqb (Post.id p) (Post.id post)))
      by exact Hfree.
    cbn [filter]. rewrite String.eqb_refl. cbn [negb]. rewrite app_nil_r.
    reflexivity.
  - cbv zeta. rewrite Hposts, map_app.
    rewrite (map_update_none (fun q => String.eqb (Post.id q) (Post.id post)))
      by exact Hfree.
    cbn [map]. rewrite String.eqb_refl. reflexivity.
Qed.

(** X11.  Whatever a creation request ends in, it touches one post only.
    The user and follow tables are as before; the post table is as
    before or has one more row at its end, with the new identifier; every
    post that was there is there unchanged; every image row that was
    there and names another post is still there, and every image row
    that was not there names the new post. *)
Theorem creation_touches_one_post env request d r d' :
  POST env request d = (Returns r, d') ->
  DB.users d' = DB.users d
  /\ DB.follows d' = DB.follows d
  /\ (DB.posts d' = DB.posts d
      \/ exists post,
           Post.id post = Env.newId env
           /\ post_of d (Env.newId env) = None
           /\ DB.posts d' = (DB.posts d ++ [post])%list)
  /\ (forall p, In p (DB.posts d) -> In p (DB.posts d'))
  /\ (forall i, In i (DB.images d) -> Image.postId i <> Env.newId env ->
                In i (DB.images d'))
  /\ (forall i, In i (DB.images d') ->
                In i (DB.images d) \/ Image.postId i = Env.newId env).
Proof.
  intros HP.
  destruct (POST_stages env request d)
    as [(r0 & HP0 & _)|(user & post & body & d1 & Hc)].
  { rewrite HP in HP0. injection HP0 as _ ->. repeat split; auto. }
  destruct (creates_post _ _ _ _ _ _ _ Hc) as (Hid & _ & _ & _ & Hfree & _ & Him).
  rewrite Hid in Hfree.
  destruct (POST_after_create_paths _ _ _ _ _ _ _ Hc) as (Hposts & Hrun).
  rewrite HP in Hrun.
  pose proof Hc as (_ & _ & _ & _ & _ & _ & _ & _ & Hp).
  destruct (post_create_returns _ _ _ _ _ Hp) as (_ & _ & _ & _ & Hd1 & _).
  assert (Hrows : forall i,
             In i (recorded env (User.id user) (Post.id post) (Body.visibility body) 0
                     (files_of body)) ->
             Image.postId i = Env.newId env).
  { intros i Hi. apply recorded_rows in Hi as [Hi _]. congruence. }
  assert (Hd2 : DB.users (after_files env user post body d1) = DB.users d
                /\ DB.follows (after_files env user post body d1) = DB.follows d
                /\ DB.images (after_files env user post body d1)
                   = (DB.images d
                      ++ recorded env (User.id user) (Post.id post)
                           (Body.visibility body) 0 (files_of body))%list).
  { unfold after_files. cbn [DB.users DB.follows DB.images DB.with_images].
    rewrite Him, Hd1. auto. }
  destruct Hd2 as (Hus & Hfo & Himg).
  assert (Hgrown : forall d0,
             DB.images d0 = DB.images (after_files env user post body d1) ->
             (forall i, In i (DB.images d) -> Image.postId i <> Env.newId env ->
                        In i (DB.images d0))
             /\ (forall i, In i (DB.images d0) ->
                           In i (DB.images d) \/ Image.postId i = Env.newId env)).
  { intros d0 ->. rewrite Himg. split.
    - intros i Hi _. apply in_or_app. now left.
    - intros i Hi. apply in_app_or in Hi as [Hi|Hi]; auto. }
  destruct (Env.throws env AtPostUpdate).
  - destruct (Env.throws env AtPostDelete).
    + injection Hrun as _ ->. rewrite Hus, Hfo, Hposts.
      split; [reflexivity|]. split; [reflexivity|].
      split; [right; exists post; auto|].
      split; [intros p Hp0; apply in_or_app; now left|].
      now apply Hgrown.
    + destruct (Env.cascade env); injection Hrun as _ ->;
        cbn [DB.users DB.follows DB.posts DB.images DB.without_rows_of DB.with_posts];
        rewrite Hus, Hfo;
        (split; [reflexivity|]); (split; [reflexivity|]);
        (split; [now left|]); (split; [auto|]).
      * rewrite Himg. split.
        -- intros i Hi Hne. apply filter_In. split; [apply in_or_app; now left|].
           apply Bool.negb_true_iff, String.eqb_neq. congruence.
        -- intros i Hi. apply filter_In in Hi as [Hi _].
           apply in_app_or in Hi as [Hi|Hi]; auto.
      * now apply Hgrown.
  - cbv zeta in Hrun. injection Hrun as _ ->.
    cbn [DB.users DB.follows DB.posts DB.images DB.with_posts].
    rewrite Hus, Hfo.
    split; [reflexivity|]. split; [reflexivity|].
    split; [right; exists (Post.with_coverImage (resolved_cover env user post body) post);
            auto|].
    split; [intros p Hp0; apply in_or_app; now left|].
    now apply Hgrown.
Qed.

Lemma creation_touches_one_post_witness :
  let run := POST Sample.update_fails
               (Sample.request_of (Sample.body_of None Sample.three_photos))
               Sample.db in
  DB.users (snd run) = DB.users Sample.db
  /\ DB.posts (snd run) = DB.posts Sample.db
  /\ forall p, In p (DB.posts Sample.db) -> In p (DB.posts (snd run)).
Proof.
  intros run.
  destruct (creation_touches_one_post Sample.update_fails
              (Sample.request_of (Sample.body_of None Sample.three_photos))
              Sample.db (Failure 500 "Failed to process uploaded files") (snd run)
              eq_refl) as (Hu & _ & _ & Hp & _).
  split; [exact Hu|]. split; [reflexivity | exact Hp].
Defined.

(** ** What the compensation leaves *)

Lemma build_same (d : DB.t) :
  DB.Build (DB.users d) (DB.posts d) (DB.images d) (DB.follows d) (DB.likes d)
    (DB.comments d) = d.
Proof. now destruct d. Qed.

(** X12.  When the final update fails and the delete that follows goes
    through, the post table is as it was before the request.  If the
    delete takes the rows of the post with it, the whole database is as it
    was before the request (provided no row named the new identifier
    before).  If it does not, the image rows made for the files stay
    behind, each naming a post that is no longer there. *)
Theorem compensation_restores_or_orphans env request d user post body d1 :
  creates env request d user post body d1 ->
  Env.throws env AtPostUpdate = true ->
  Env.throws env AtPostDelete = false ->
  unreferenced d (Env.newId env) ->
  let rows :=
    recorded env (User.id user) (Post.id post) (Body.visibility body) 0
      (files_of body) in
  exists d',
    POST env request d
    = (Returns (Failure 500 "Failed to process uploaded files"), d')
    /\ DB.posts d' = DB.posts d
    /\ (Env.cascade env = true -> d' = d)
    /\ (Env.cascade env = false ->
        DB.images d' = (DB.images d ++ rows)%list
        /\ forall i, In i rows -> post_of d' (Image.postId i) = None).
Proof.
  intros Hc Hup Hdel (Hui & Hul & Huc) rows.
  destruct (creates_post _ _ _ _ _ _ _ Hc) as (Hid & _ & _ & _ & Hfree & _ & Him).
  destruct (POST_after_create_paths _ _ _ _ _ _ _ Hc) as (_ & Hrun).
  rewrite Hup, Hdel in Hrun.
  pose proof Hc as (_ & _ & _ & _ & _ & _ & _ & _ & Hp).
  destruct (post_create_returns _ _ _ _ _ Hp) as (_ & _ & _ & _ & Hd1 & _).
  assert (Hrows : forall i, In i rows -> Image.postId i = Post.id post).
  { intros i Hi. now apply recorded_rows in Hi as [Hi _]. }
  eexists. split; [exact Hrun|].
  split; [now destruct (Env.cascade env)|].
  split; intros Hcas; rewrite Hcas.
  - unfold DB.without_rows_of, after_files.
    cbn [DB.users DB.posts DB.images DB.follows DB.likes DB.comments
         DB.with_posts DB.with_images].
    rewrite Hd1.
    cbn [DB.users DB.posts DB.images DB.follows DB.likes DB.comments DB.with_posts].
    rewrite filter_app.
    rewrite (filter_all _ (DB.images d)), (filter_none _ rows), app_nil_r,
      (filter_all _ (DB.likes d)), (filter_all _ (DB.comments d)).
    + apply build_same.
    + intros c Hcm. apply Bool.negb_true_iff, String.eqb_neq.
      rewrite Hid. now apply Huc.
    + intros l Hl. apply Bool.negb_true_iff, String.eqb_neq.
      rewrite Hid. now apply Hul.
    + intros i Hi. apply Bool.negb_false_iff, String.eqb_eq. now apply Hrows.
    + intros i Hi. apply Bool.negb_true_iff, String.eqb_neq.
      rewrite Hid. now apply Hui.
  - unfold after_files. cbn [DB.images DB.posts DB.with_posts DB.with_images].
    rewrite Hd1. cbn [DB.images DB.with_posts].
    split; [reflexivity|].
    intros i Hi. rewrite (Hrows i Hi). unfold post_of in *.
    cbn [DB.posts DB.with_posts]. exact Hfree.
Qed.

Lemma sample_unreferenced : unreferenced Sample.db "p8".
Proof.
  repeat split; intros x Hx; simpl in Hx; intuition (subst; discriminate).
Qed.

Lemma compensation_restores_or_orphans_witness :
  POST Sample.update_fails
    (Sample.request_of (Sample.body_of None Sample.three_photos)) Sample.db
  = (Returns (Failure 500 "Failed to process uploaded files"), Sample.db).
Proof.
  assert (Hc : creates Sample.update_fails
                 (Sample.request_of (Sample.body_of None Sample.three_photos))
                 Sample.db Sample.alice Sample.created
                 (Sample.body_of None Sample.three_photos) Sample.db_created)
    by sample_creates.
  destruct (compensation_restores_or_orphans _ _ _ _ _ _ _ Hc eq_refl eq_refl
              sample_unreferenced) as (d' & HP & _ & Hsame & _).
  rewrite <- (Hsame eq_refl) at 2. exact HP.
Defined.

(** Where a delete leaves the other tables alone, the rows of the files
    outlive the post. *)
Example orphans_without_cascade :
  let env := Env.Build (Some "memora") (Some "eu-west-1") Sample.key
               (fun _ _ k => Returns ("https://memora.s3.eu-west-1.amazonaws.com/" ++ k))
               (Sample.session_of "alice@example.org")
               (fun c => match c with AtPostUpdate => true | _ => false end)
               "p8" 8 PUBLIC false false in
  let r := POST env (Sample.request_of (Sample.body_of None Sample.three_photos))
             Sample.db in
  Sample.status_of r = 500
  /\ Sample.post_ids r = map Post.id (DB.posts Sample.db)
  /\ List.length (Sample.image_urls r) = 3%nat.
Proof. vm_compute. auto. Qed.

(** ** The post of a successful answer *)

Lemma Visibility_of_name_inv s v :
  Visibility_of_name s = Some v -> Visibility_name v = s.
Proof.
  unfold Visibility_of_name.
  destruct (String.eqb s "PUBLIC") eqn:E1;
    [apply String.eqb_eq in E1; now intros [= <-]|].
  destruct (String.eqb s "FOLLOWERS") eqn:E2;
    [apply String.eqb_eq in E2; now intros [= <-]|].
  destruct (String.eqb s "PRIVATE") eqn:E3;
    [apply String.eqb_eq in E3; now intros [= <-]|].
  discriminate.
Qed.

Lemma post_create_fields env data d post d1 :
  prisma.post_create env data d = (Returns post, d1) ->
  Post.title post = prisma.title data
  /\ Post.description post = prisma.description data
  /\ Post.category post = prisma.category data
  /\ Post.tags post = match prisma.tags data with Some ts => ts | None => [] end
  /\ Post.isDraft post
     = match prisma.isDraft data with
       | Some b => b
       | None => Env.defaultIsDraft env
       end
  /\ Post.createdAt post = Env.now env
  /\ match prisma.visibility data with
     | Some v => Visibility_name (Post.visibility post) = v
     | None => Post.visibility post = Env.defaultVisibility env
     end.
Proof.
  unfold prisma.post_create.
  destruct (Env.throws env AtPostCreate); [discriminate|].
  destruct (prisma.visibility data) as [v|].
  - destruct (Visibility_of_name v) as [vis|] eqn:Hn; [|discriminate].
    destruct (existsb _ _); [discriminate|]. intros [= <- _]. simpl.
    repeat split; auto. now apply Visibility_of_name_inv.
  - destruct (existsb _ _); [discriminate|]. intros [= <- _]. simpl.
    repeat split; auto.
Qed.

Lemma truthy_the o : Js.truthy o = true -> o = Some (the o).
Proof. now destruct o as [[|c r]|]. Qed.

Lemma recorded_urls env userId postId visibility files :
  (forall i, Env.throws env (AtImageCreate i) = false) ->
  forall i,
    map Image.url (recorded env userId postId visibility i files)
    = moved_urls env userId postId visibility i files.
Proof.
  intros Hok. induction files as [|file rest IH]; intros i; [reflexivity|].
  cbn [recorded moved_urls].
  destruct (moved_url env userId postId visibility i file); [|apply IH].
  rewrite Hok. simpl. now rewrite IH.
Qed.

(** X13.  The post of a 200 answer is the row of the request: it carries
    the new identifier, the identifier of the caller's user row as owner,
    the title, description and category of the body, the tags of the body
    or none, the draft flag and the visibility of the body or the defaults
    of the schema, and the time of the request.  When no row named the
    new identifier before, the images of the answer are exactly the rows
    made for the files, in the order of the files, and both counts are
    zero.  When moreover no image creation fails and no hint is sent, the
    cover is the URL of the first image of the answer. *)
Theorem answer_describes_the_new_post env request d message view d' :
  POST env request d = (Returns (Created message view), d') ->
  exists user body,
    caller env d = Some user
    /\ Request.json request = Returns body
    /\ let p := PostView.post view in
       let rows :=
         recorded env (User.id user) (Env.newId env) (Body.visibility body) 0
           (files_of body) in
       Post.id p = Env.newId env
       /\ Post.userId p = User.id user
       /\ Body.title body = Some (Post.title p)
       /\ Body.description body = Some (Post.description p)
       /\ Body.category body = Some (Post.category p)
       /\ Post.tags p = match Body.tags body with Some ts => ts | None => [] end
       /\ Post.isDraft p
          = match Body.isDraft body with
            | Some b => b
            | None => Env.defaultIsDraft env
            end
       /\ match Body.visibility body with
          | Some v => Visibility_name (Post.visibility p) = v
          | None => Post.visibility p = Env.defaultVisibility env
          end
       /\ Post.createdAt p = Env.now env
       /\ (unreferenced d (Env.newId env) ->
           PostView.images view = rows
           /\ PostView.count_likes view = 0
           /\ PostView.count_comments view = 0
           /\ ((forall i, Env.throws env (AtImageCreate i) = false) ->
               given (Body.coverImage body) = None ->
               Post.coverImage p
               = given (hd_error (map Image.url (PostView.images view))))).
Proof.
  intros HP.
  destruct (POST_created_inv _ _ _ _ _ _ HP) as (user & post & body & d1 & Hc & Ht).
  pose proof Hc as (s & c & r & _ & _ & Hj & Hm & _ & Hp).
  destruct (creates_post _ _ _ _ _ _ _ Hc) as (Hid & _ & Hown & Hcl & _ & Hin & Him).
  destruct (post_create_fields _ _ _ _ _ Hp) as (Hti & Hde & Hca & Hta & Hdr & Hat & Hvi).
  destruct (POST_after_create_paths _ _ _ _ _ _ _ Hc) as (_ & Hrun).
  rewrite HP in Hrun.
  destruct (Env.throws env AtPostUpdate);
    [destruct (Env.throws env AtPostDelete); discriminate|].
  cbv zeta in Hrun. injection Hrun as _ -> ->.
  exists user, body. split; [exact Hcl|]. split; [exact Hj|].
  cbn [PostView.post PostView.images PostView.count_likes PostView.count_comments
       include Post.id Post.userId Post.title Post.description Post.category
       Post.tags Post.isDraft Post.visibility Post.createdAt Post.coverImage
       Post.with_coverImage DB.images DB.likes DB.comments DB.with_posts].
  unfold missing_required in Hm.
  apply Bool.orb_false_iff in Hm as (Hm & _).
  apply Bool.orb_false_iff in Hm as (Hm & Hcat).
  apply Bool.orb_false_iff in Hm as (Htitle & Hdesc).
  apply Bool.negb_false_iff in Htitle, Hdesc, Hcat.
  split; [exact Hid|]. split; [exact Hown|].
  split; [rewrite Hti; now apply truthy_the|].
  split; [rewrite Hde; now apply truthy_the|].
  split; [rewrite Hca; now apply truthy_the|].
  split; [exact Hta|]. split; [exact Hdr|]. split; [exact Hvi|].
  split; [exact Hat|].
  intros (Hui & Hul & Huc).
  assert (Himages :
    filter (fun i => String.eqb (Image.postId i) (Post.id post))
      (DB.images (after_files env user post body d1))
    = recorded env (User.id user) (Env.newId env) (Body.visibility body) 0
        (files_of body)).
  { unfold after_files. cbn [DB.images DB.with_images].
    rewrite Him, filter_app, Hid.
    rewrite (filter_none _ (DB.images d)), (filter_all _ (recorded _ _ _ _ _ _));
      [reflexivity| |].
    - intros i Hi. apply recorded_rows in Hi as [Hi _]. now apply String.eqb_eq.
    - intros i Hi. apply String.eqb_neq. now apply Hui. }
  assert (Hcount : forall rows0,
             (forall l, In l rows0 -> l <> Env.newId env) ->
             count_of (Post.id post) rows0 = 0).
  { intros rows0 Hnone. unfold count_of. rewrite filter_none; [reflexivity|].
    intros l Hl. apply String.eqb_neq. rewrite Hid. intros E.
    now apply (Hnone l Hl). }
  assert (Hothers : DB.likes (after_files env user post body d1) = DB.likes d
                    /\ DB.comments (after_files env user post body d1)
                       = DB.comments d).
  { unfold after_files. cbn [DB.likes DB.comments DB.with_images].
    apply post_create_returns in Hp as (_ & _ & _ & _ & -> & _). auto. }
  destruct Hothers as [-> ->].
  split; [exact Himages|].
  split; [now apply Hcount|]. split; [now apply Hcount|].
  intros Hok Hnohint. rewrite Himages, (recorded_urls _ _ _ _ _ Hok).
  unfold resolved_cover, finalCoverImage_of.
  destruct (Body.coverImage body) as [[|ch cr]|]; try discriminate;
    rewrite cover_of_empty, Hid; reflexivity.
Qed.

Lemma answer_describes_the_new_post_witness :
  exists view d',
    POST Sample.as_alice
      (Sample.request_of (Sample.body_of None Sample.three_photos)) Sample.db
    = (Returns (Created "Post created successfully" view), d')
    /\ Post.userId (PostView.post view) = "u1"
    /\ List.length (PostView.images view) = 3%nat
    /\ Post.coverImage (PostView.post view)
       = given (hd_error (map Image.url (PostView.images view))).
Proof.
  eexists _, _. split; [vm_compute; reflexivity|].
  match goal with
  | |- Post.userId (PostView.post ?v) = _ /\ _ =>
      destruct (answer_describes_the_new_post Sample.as_alice
                  (Sample.request_of (Sample.body_of None Sample.three_photos))
                  Sample.db "Post created successfully" v _ eq_refl)
        as (user & body & Hcl & Hj & _ & Hown & _ & _ & _ & _ & _ & _ & _ & Hrows)
  end.
  injection Hcl as <-. injection Hj as <-.
  destruct (Hrows sample_unreferenced) as (_ & _ & _ & Hcover).
  split; [exact Hown|]. split; [reflexivity|].
  apply Hcover; reflexivity.
Defined.

(** ** Which file a hint picks *)

(** X14.  A hint picks the file it names.  In a successful creation
    request with a hint that is not empty, when the hint ends with the
    name of a file of the request (what follows the last slash of its
    temporary key, as in a URL or a key of that file) and names no other
    file of the request, the cover of the answer is the URL recomputed
    for that file. *)
Theorem hint_picks_the_named_file env request d message view d' :
  POST env request d = (Returns (Created message view), d') ->
  exists user post body d1,
    creates env request d user post body d1
    /\ forall hint file name,
         given (Body.coverImage body) = Some hint ->
         In file (files_of body) ->
         is_name_of name (FileData.s3Key file) ->
         ends_with hint name ->
         (forall other, In other (files_of body) -> other <> file ->
                        ~ hint_names hint other) ->
         Post.coverImage (PostView.post view)
         = Some (final_url env
                   (finalKey_of env (User.id user) (Post.id post)
                      (Body.visibility body) file)).
Proof.
  intros HP.
  destruct (POST_created_cover _ _ _ _ _ _ HP)
    as (user & post & body & d1 & Hc & Hcover & _).
  exists user, post, body, d1. split; [exact Hc|].
  intros hint file name Hg Hin Hname [before Hend] Hothers.
  assert (Hn : hint_names hint file).
  { exists name. split; [exact Hname|]. exists before, "".
    now rewrite append_empty_r. }
  rewrite Hcover.
  destruct (resolved_cover_cases env user post body)
    as [(hint' & file' & Hg' & Hfirst & ->)|[[Hnone|(hint' & Hg' & Hnone)] _]].
  - rewrite Hg in Hg'. injection Hg' as <-.
    destruct (FileData_eq_dec file' file) as [->|Hne]; [reflexivity|].
    destruct Hfirst as (bf & af & Hfiles & Hn' & _).
    exfalso. apply (Hothers file'); [|exact Hne | exact Hn'].
    rewrite Hfiles. apply in_or_app. right. now left.
  - congruence.
  - rewrite Hg in Hg'. injection Hg' as <-. exfalso. now apply (Hnone file).
Qed.

Lemma hint_picks_the_named_file_witness :
  Sample.cover
    (POST Sample.as_alice
       (Sample.request_of
          (Sample.body_of (Some "https://x/temp/u1/c.png") Sample.three_photos))
       Sample.db)
  = Some (final_url Sample.as_alice
            (finalKey_of Sample.as_alice "u1" "p8" (Some "PUBLIC")
               (Sample.photo "c.png"))).
Proof.
  destruct (hint_picks_the_named_file Sample.as_alice
              (Sample.request_of
                 (Sample.body_of (Some "https://x/temp/u1/c.png") Sample.three_photos))
              Sample.db _ _ _ eq_refl)
    as (user & post & body & d1 & Hc & Hhint).
  destruct (sample_creates_inv _ _ _ _ _ _ Hc) as (-> & -> & ->).
  apply (Hhint "https://x/temp/u1/c.png" (Sample.photo "c.png") "c.png").
  - reflexivity.
  - simpl. tauto.
  - split; [reflexivity|]. right. now exists "temp/u1".
  - now exists "https://x/temp/u1/".
  - intros other [<-|[<-|[<-|[]]]] Hne Hn;
      [apply hint_names_spec in Hn; discriminate Hn ..|now apply Hne].
Defined.

(** X15.  A hint can be taken by another file.  When the name of an
    earlier file of the request occurs in the name of the file the hint
    names, the hint picks that earlier file or one before it, never the
    later one; so does every hint when the key of an earlier file ends
    with a slash, since its name is empty. *)
Theorem earlier_file_takes_the_cover hint before first between second after :
  Js.includes hint (key_segment second) = true ->
  Js.includes (key_segment second) (key_segment first) = true ->
  exists chosen,
    coverFile_of hint (before ++ first :: between ++ second :: after) = Some chosen
    /\ In chosen (before ++ [first])
    /\ Js.includes hint (key_segment chosen) = true.
Proof.
  intros Hsecond Hinside.
  pose proof (includes_trans _ _ _ Hsecond Hinside) as Hfirst.
  unfold coverFile_of. fold key_segment.
  change (exists chosen,
             find (fun f => Js.includes hint (key_segment f))
                  (before ++ first :: between ++ second :: after) = Some chosen
             /\ In chosen (before ++ [first])
             /\ Js.includes hint (key_segment chosen) = true).
  induction before as [|g before IH]; simpl.
  - rewrite Hfirst. exists first. auto.
  - destruct (Js.includes hint (key_segment g)) eqn:E.
    + exists g. auto.
    + destruct IH as (chosen & Hf & Hin & Hm). exists chosen. auto.
Qed.

Lemma earlier_file_takes_the_cover_witness :
  let a := FileData.Build "temp/a.png" None "a.png" "image/png" in
  let xa := FileData.Build "temp/xa.png" None "xa.png" "image/png" in
  exists chosen,
    coverFile_of "temp/xa.png" [a; xa] = Some chosen /\ chosen = a.
Proof.
  intros a xa.
  destruct (earlier_file_takes_the_cover "temp/xa.png" [] a [] xa [] eq_refl eq_refl)
    as (chosen & Hf & [<-|[]] & _).
  now exists a.
Defined.

Lemma key_ending_in_slash_matches_all (f : FileData.t) (dir hint : string) :
  FileData.s3Key f = (dir ++ "/")%string ->
  key_segment f = "" /\ Js.includes hint (key_segment f) = true.
Proof.
  intros Hk.
  assert (Hs : key_segment f = "")
    by (apply key_segment_spec; [reflexivity | right; now exists dir]).
  split; [exact Hs|]. rewrite Hs. apply includes_spec. now exists "", hint.
Qed.

(** ** From creation to listing *)

Lemma post_of_In d id p : post_of d id = Some p -> In p (DB.posts d).
Proof. unfold post_of. intros H. now apply find_some in H. Qed.

(** X16.  A post that was just created and is not a draft is listed to
    its author whatever its visibility; it is listed to a caller without
    a session exactly when it is PUBLIC.  (Without a visibility, category
    or owner parameter; the listing is asked of the database the creation
    left.) *)
Theorem author_is_shown_the_new_post env request d message view d' :
  POST env request d = (Returns (Created message view), d') ->
  Post.isDraft (PostView.post view) = false ->
  forall reader q,
    given (Query.visibility q) = None ->
    given (Query.category q) = None ->
    given (Query.userId q) = None ->
    (forall author,
        caller reader d' = Some author ->
        User.id author = Post.userId (PostView.post view) ->
        Env.throws reader AtUserFindUnique = false ->
        exists w,
          authorize reader q (where_of_query q) d' = (Returns w, d')
          /\ In (PostView.post view) (selected d' w))
    /\ (forall s,
          Env.getServerSession reader = Returns s ->
          Js.truthy (session_email s) = false ->
          exists w,
            authorize reader q (where_of_query q) d' = (Returns w, d')
            /\ (In (PostView.post view) (selected d' w)
                <-> Post.visibility (PostView.post view) = PUBLIC)).
Proof.
  intros HP Hdraft reader q Hv Hc Hu.
  destruct (POST_created_cover _ _ _ _ _ _ HP) as (user & post & body & d1 & _ & _ & Hrow).
  apply post_of_In in Hrow.
  assert (Hfalsy : Js.truthy (Query.userId q) = false).
  { destruct (Query.userId q) as [[|c r]|]; [reflexivity|discriminate|reflexivity]. }
  destruct (where_of_query_fields q) as (Hwd & Hwv & Hwc & Hwu & Hwo).
  split.
  - intros author Hcl Hid Hlook.
    destruct (caller_session _ _ _ Hcl) as (s & c & r & Hs & He & Hf).
    eexists. split.
    + exact (authorize_known reader q (where_of_query q) d' s c r author
               Hs He Hfalsy Hlook Hf).
    + apply rule_filter_selected. unfold published_in_category.
      rewrite Hv, Hc, Hu. simpl.
      repeat split; auto. right. left. now symmetry.
  - intros s Hs He. eexists. split.
    + exact (authorize_anonymous reader q (where_of_query q) d' s Hs He).
    + rewrite selected_spec.
      cbn [Where.with_visibility Where.isDraft Where.visibility Where.category
           Where.userId Where.OR].
      rewrite Hwd, Hwc, Hwu, Hwo, Hc, Hu, field_is_PUBLIC. simpl. tauto.
Qed.

Lemma author_is_shown_the_new_post_witness :
  exists view d',
    POST Sample.as_carol
      (Sample.request_of
         (Body.Build (Some "Trip") (Some "Three days") (Some "TRAVEL") None
            (Some "PRIVATE") None None (Some Sample.three_photos)))
      Sample.db
    = (Returns (Created "Post created successfully" view), d')
    /\ Post.visibility (PostView.post view) = PRIVATE
    /\ exists w,
         authorize Sample.as_carol Sample.no_query (where_of_query Sample.no_query) d'
         = (Returns w, d')
         /\ In (PostView.post view) (selected d' w).
Proof.
  eexists _, _. split; [vm_compute; reflexivity|]. split; [reflexivity|].
  match goal with
  | |- exists w, authorize _ _ _ ?d' = _ /\ In (PostView.post ?v) _ =>
      destruct (author_is_shown_the_new_post Sample.as_carol
                  (Sample.request_of
                     (Body.Build (Some "Trip") (Some "Three days") (Some "TRAVEL")
                        None (Some "PRIVATE") None None (Some Sample.three_photos)))
                  Sample.db "Post created successfully" v d' eq_refl eq_refl
                  Sample.as_carol Sample.no_query eq_refl eq_refl eq_refl)
        as [Hauthor _]
  end.
  exact (Hauthor Sample.carol eq_refl eq_refl eq_refl).
Defined.
